(** * Creato AI Studio: the generation service, verified over a shallow embedding

    The repository holds three copies of the generation service:
    - [src/services/geminiService.ts]                      (module [GeminiService]),
    - [src/unnamed/part_000]                               (module [Part000]),
    - the second document of [src/services/dbService.ts]   (module [DbDoc]).
    They share [createWavHeader] (module [Wav]) and the shape of [retry],
    [generateContent] and [generateStudioAudio]; they differ in constants, in
    the credential test of [retry], in the gain stage and in the test of the
    quota flag before the thumbnail.  Each copy is embedded as it is written.
    The duration effect, the duration controls and the history updates of
    [src/App.tsx] are in module [App]; the IndexedDB history of the first
    document of [src/services/dbService.ts] is in module [DbService]; the
    audio download of [src/components/StudioOutput.tsx] is in module
    [StudioOutput].

    How the code is read:
    - A function that can throw returns an [Exc]; a function that also acts
      (calls, waits, progress reports, logs) returns a [Run]: its outcome
      and the trace of what it did, kept when it throws as well.
    - What the service does not define is a parameter: the remote model (the
      outcome of each attempt of a request), [JSON.parse], the image adapter
      as the orchestrator sees it, [atob], [URL.createObjectURL],
      [Math.random], and whether a progress callback was passed.  The
      callback itself returns normally.
    - Thrown values are objects read through [message], [status] and
      [JSON.stringify]; the parsed text response is an object.
    - The object store of the history is the list of its records in key
      order; a request that fails aborts its transaction, which undoes it.
    - Durations, delays and percentages are integers; the volume and the
      arithmetic of the gain stage are IEEE doubles (primitive floats); an
      [Int16Array] reads its buffer little-endian. *)

From Stdlib Require Import ZArith String Ascii Strings.Byte Lia Bool.
From Stdlib Require Import QArith Qround DecimalString.
From Stdlib Require Import Uint63 PrimFloat FloatOps SpecFloat FloatAxioms.
From stdpp Require Import base list sorting.

Local Open Scope Z_scope.

(** ** Exceptions

    A JavaScript error value as the service inspects it: [error?.message],
    [error?.status] and the text of [JSON.stringify(error)]. *)

Record JsError : Type := mkError {
  message : option string;
  status : option string;
  json : string
}.

(** [new Error(msg)]: the message is the only field, and it is not enumerable,
    so [JSON.stringify] prints an empty object. *)
Definition newError (msg : string) : JsError :=
  {| message := Some msg; status := None; json := "{}" |}.

(** The exceptions the runtime itself raises inside the service. *)
Definition RangeError (msg : string) : JsError := newError msg.

Inductive Exc (A : Type) : Type :=
| Ok (a : A)
| Throw (e : JsError).
Arguments Ok {A} a.
Arguments Throw {A} e.

Definition bindE {A B} (m : Exc A) (k : A -> Exc B) : Exc B :=
  match m with
  | Ok a => k a
  | Throw e => Throw e
  end.

#[global] Instance Exc_ret : MRet Exc := @Ok.
#[global] Instance Exc_bind : MBind Exc := fun A B k m => bindE m k.

Definition isOk {A} (m : Exc A) : bool :=
  match m with Ok _ => true | Throw _ => false end.

(** ** Strings

    [String.prototype.includes]: [includes needle hay] is [hay.includes(needle)]. *)

Fixpoint includes (needle hay : string) : bool :=
  if String.prefix needle hay then true
  else match hay with
       | EmptyString => false
       | String _ rest => includes needle rest
       end.

(** ** Bytes, typed arrays and [DataView] *)

Definition byte_of_Z (z : Z) : byte :=
  default x00 (Byte.of_N (Z.to_N (z mod 256))).

Definition Z_of_byte (b : byte) : Z := Z.of_N (Byte.to_N b).

Definition ToUint32 (v : Z) : Z := v mod 2 ^ 32.
Definition ToUint16 (v : Z) : Z := v mod 2 ^ 16.

(** The [n] low bytes of [v], least significant first. *)
Fixpoint bytesLE (n : nat) (v : Z) : list byte :=
  match n with
  | O => []
  | S k => byte_of_Z v :: bytesLE k (Z.shiftr v 8)
  end.

Definition bytesOf (n : nat) (v : Z) (littleEndian : bool) : list byte :=
  if littleEndian then bytesLE n v else rev (bytesLE n v).

(** The number a run of bytes spells, least significant first. *)
Fixpoint valueLE (bs : list byte) : Z :=
  match bs with
  | [] => 0
  | b :: rest => Z_of_byte b + 256 * valueLE rest
  end.

Definition valueOf (bs : list byte) (littleEndian : bool) : Z :=
  if littleEndian then valueLE bs else valueLE (rev bs).

(** [new ArrayBuffer(n)] / [new Uint8Array(n)]: [n] zero bytes. *)
Definition newBuffer (n : nat) : list byte := replicate n x00.

(** A write of [bs] at [off]; out of bounds raises [RangeError] (as
    [DataView.prototype.setUint32] and [TypedArray.prototype.set] do) where
    the list update alone would silently drop the bytes. *)
Definition writeBytes (buf : list byte) (off : nat) (bs : list byte) : Exc (list byte) :=
  if decide (off + length bs <= length buf)%nat
  then Ok (list_inserts off bs buf)
  else Throw (RangeError "Offset is outside the bounds of the DataView").

Definition readBytes (buf : list byte) (off n : nat) : Exc (list byte) :=
  if decide (off + n <= length buf)%nat
  then Ok (take n (drop off buf))
  else Throw (RangeError "Offset is outside the bounds of the DataView").

Definition setUint32 (view : list byte) (off : nat) (v : Z) (littleEndian : bool) :=
  writeBytes view off (bytesOf 4 (ToUint32 v) littleEndian).

Definition setUint16 (view : list byte) (off : nat) (v : Z) (littleEndian : bool) :=
  writeBytes view off (bytesOf 2 (ToUint16 v) littleEndian).

Definition getUint32 (view : list byte) (off : nat) (littleEndian : bool) : Exc Z :=
  bindE (readBytes view off 4) (fun bs => Ok (valueOf bs littleEndian)).

Definition getUint16 (view : list byte) (off : nat) (littleEndian : bool) : Exc Z :=
  bindE (readBytes view off 2) (fun bs => Ok (valueOf bs littleEndian)).

(** [target.set(src, off)] on a [Uint8Array]. *)
Definition uint8Set (target src : list byte) (off : nat) : Exc (list byte) :=
  writeBytes target off src.

(** ** The audio container ([createWavHeader], identical in the three copies) *)

Module Wav.

Definition createWavHeader (dataLength sampleRate : Z) : Exc (list byte) :=
  let view := newBuffer 44 in
  view ← setUint32 view 0 0x52494646 false;
  view ← setUint32 view 4 (36 + dataLength) true;
  view ← setUint32 view 8 0x57415645 false;
  view ← setUint32 view 12 0x666d7420 false;
  view ← setUint16 view 16 16 true;
  view ← setUint16 view 20 1 true;
  view ← setUint16 view 22 1 true;
  view ← setUint32 view 24 sampleRate true;
  view ← setUint32 view 28 (sampleRate * 2) true;
  view ← setUint16 view 32 2 true;
  view ← setUint16 view 34 16 true;
  view ← setUint32 view 36 0x64617461 false;
  view ← setUint32 view 40 dataLength true;
  Ok view.

(** The four lines of [generateStudioAudio] that put header and samples
    together:
    [wavHeader = createWavHeader(pcmData.length, sampleRate)],
    [combined = new Uint8Array(wavHeader.length + pcmData.length)],
    [combined.set(wavHeader)], [combined.set(pcmData, wavHeader.length)]. *)
Definition encodeWav (pcmData : list byte) (sampleRate : Z) : Exc (list byte) :=
  wavHeader ← createWavHeader (Z.of_nat (length pcmData)) sampleRate;
  let combined := newBuffer (length wavHeader + length pcmData) in
  combined ← uint8Set combined wavHeader 0;
  combined ← uint8Set combined pcmData (length wavHeader);
  Ok combined.

(** The header written out: what the thirteen writes leave in the buffer. *)
Definition headerBytes (dataLength sampleRate : Z) : list byte :=
  bytesOf 4 (ToUint32 0x52494646) false
  ++ bytesOf 4 (ToUint32 (36 + dataLength)) true
  ++ bytesOf 4 (ToUint32 0x57415645) false
  ++ bytesOf 4 (ToUint32 0x666d7420) false
  ++ bytesOf 2 (ToUint16 16) true ++ [x00; x00]
  ++ bytesOf 2 (ToUint16 1) true
  ++ bytesOf 2 (ToUint16 1) true
  ++ bytesOf 4 (ToUint32 sampleRate) true
  ++ bytesOf 4 (ToUint32 (sampleRate * 2)) true
  ++ bytesOf 2 (ToUint16 2) true
  ++ bytesOf 2 (ToUint16 16) true
  ++ bytesOf 4 (ToUint32 0x64617461) false
  ++ bytesOf 4 (ToUint32 dataLength) true.

End Wav.

(** The layout the container is specified to have, for samples [pcm] at rate
    [R]: the three sizes, the four markers in ASCII order, every numeric field
    read little-endian, and the samples from byte 44 on. *)
Record WavLayout (pcm : list byte) (R : Z) (out : list byte) : Prop := {
  wl_length : length out = (44 + length pcm)%nat;
  wl_chunk_size : getUint32 out 4 true = Ok (36 + Z.of_nat (length pcm));
  wl_data_length : getUint32 out 40 true = Ok (Z.of_nat (length pcm));
  wl_riff : take 4 out = list_byte_of_string "RIFF";
  wl_wave : take 4 (drop 8 out) = list_byte_of_string "WAVE";
  wl_fmt : take 4 (drop 12 out) = list_byte_of_string "fmt ";
  wl_data : take 4 (drop 36 out) = list_byte_of_string "data";
  wl_riff_be : getUint32 out 0 false = Ok 0x52494646;
  wl_wave_be : getUint32 out 8 false = Ok 0x57415645;
  wl_fmt_be : getUint32 out 12 false = Ok 0x666d7420;
  wl_data_be : getUint32 out 36 false = Ok 0x64617461;
  wl_fmt_size : getUint16 out 16 true = Ok 16;
  wl_audio_format : getUint16 out 20 true = Ok 1;
  wl_channels : getUint16 out 22 true = Ok 1;
  wl_sample_rate : getUint32 out 24 true = Ok (ToUint32 R);
  wl_byte_rate : getUint32 out 28 true = Ok (ToUint32 (R * 2));
  wl_block_align : getUint16 out 32 true = Ok 2;
  wl_bits : getUint16 out 34 true = Ok 16;
  wl_samples : drop 44 out = pcm
}.

(** ** The types of the application (the second document of [src/constants.ts]) *)

Inductive Language := ENGLISH | HINDI.
Inductive Gender := MALE | FEMALE.
Inductive Tone := CALM | ENERGETIC | EMOTIONAL | AUTHORITATIVE.
Inductive Speed := SLOW | NORMAL | FAST.
Inductive ContentType := REEL | LONG | PODCAST | NEWS.
Inductive AspectRatio := VERTICAL | HORIZONTAL.
Inductive ScriptCategory :=
| TECH | EDUCATION | AI | SONG | MOVIE | SHOPPING | ADVERTISING
| TRAVEL | GAMING | MOTIVATION | HEALTH.

#[global] Instance Speed_eq_dec : EqDecision Speed.
Proof. solve_decision. Defined.
#[global] Instance ContentType_eq_dec : EqDecision ContentType.
Proof. solve_decision. Defined.
#[global] Instance AspectRatio_eq_dec : EqDecision AspectRatio.
Proof. solve_decision. Defined.

(** The values of the string enums, as template literals print them. *)
Definition ContentType_str (c : ContentType) : string :=
  match c with
  | REEL => "Shorts/Reels" | LONG => "Long Video"
  | PODCAST => "Podcast" | NEWS => "News Bulletin"
  end.

Definition AspectRatio_str (a : AspectRatio) : string :=
  match a with VERTICAL => "9:16" | HORIZONTAL => "16:9" end.

Definition ScriptCategory_str (c : ScriptCategory) : string :=
  match c with
  | TECH => "Technology" | EDUCATION => "Education"
  | AI => "Artificial Intelligence" | SONG => "Song/Music"
  | MOVIE => "Movie/Cinema" | SHOPPING => "Shopping/E-commerce"
  | ADVERTISING => "Advertising/Marketing" | TRAVEL => "Travel/Vlog"
  | GAMING => "Gaming" | MOTIVATION => "Motivation"
  | HEALTH => "Health & Fitness"
  end.

Definition Language_str (l : Language) : string :=
  match l with ENGLISH => "English" | HINDI => "Hindi" end.

(** [StudioConfig].  The two durations are the integers the number inputs of
    the application produce; [volume] is an IEEE double. *)
Record StudioConfig : Type := mkConfig {
  language : Language;
  primaryGender : Gender;
  voiceId : string;
  tone : Tone;
  speed : Speed;
  volume : float;
  contentType : ContentType;
  scriptCategory : ScriptCategory;
  durationMinutes : Z;
  durationSeconds : Z;
  aspectRatio : AspectRatio
}.

(** The response of [ai.models.generateContent], as far as the service reads
    it: [response.text] and
    [response.candidates?.[0]?.content?.parts?.[k]?.inlineData?.data]. *)
Record Part : Type := mkPart { inlineData : option string }.
Record Content : Type := mkContent { parts : option (list Part) }.
Record Candidate : Type := mkCandidate { content : option Content }.
Record Response : Type := mkResponse {
  text : option string;
  candidates : option (list Candidate)
}.

(** The object [JSON.parse] yields for the text response; every field may be
    absent. *)
Record Data : Type := mkData {
  title : option string;
  script : option string;
  description : option string;
  caption : option string;
  hashtags : option (list string);
  bestTime : option string;
  imagePrompts : option (list string);
  thumbnailPrompt : option string
}.

Record Blob : Type := mkBlob { blobParts : list byte; blobType : string }.
Record AudioArtifact : Type := mkAudio { blob : Blob; url : string }.

(** [{ blob: new Blob(), url: '' }] *)
Definition emptyAudio : AudioArtifact :=
  {| blob := {| blobParts := []; blobType := "" |}; url := "" |}.

Record StudioResult : Type := mkResult {
  rData : Data;
  rContentType : ContentType;
  rAspectRatio : AspectRatio;
  images : list string;
  thumbnail : string;
  audioBlob : Blob;
  audioUrl : string
}.

(** ** What a run does, in order

    The observable actions of the service: an invocation of the operation
    handed to [retry], [console.warn] in [retry], a [setTimeout] wait, a call
    of the progress callback, a call of the image adapter, and
    [console.error]. *)
Inductive Event : Type :=
| Invoke
| Warn (attempt waitTime : Z)
| Sleep (ms : Z)
| Progress (percent : Z)
| ImageCall (prompt : string) (ratio : AspectRatio)
| ConsoleError.

Definition isInvoke (e : Event) : bool :=
  match e with Invoke => true | _ => false end.
Definition isImageCall (e : Event) : bool :=
  match e with ImageCall _ _ => true | _ => false end.

Definition invocations (tr : list Event) : nat := length (filter isInvoke tr).
Definition sleeps (tr : list Event) : list Z :=
  omap (fun e => match e with Sleep ms => Some ms | _ => None end) tr.
Definition progressValues (tr : list Event) : list Z :=
  omap (fun e => match e with Progress p => Some p | _ => None end) tr.

(** A computation that may throw and that leaves a trace either way. *)
Definition Run (A : Type) : Type := Exc A * list Event.

Definition retR {A} (a : A) : Run A := (Ok a, []).
Definition throwR {A} (e : JsError) : Run A := (Throw e, []).
Definition emit (e : Event) : Run unit := (Ok tt, [e]).

Definition bindR {A B} (m : Run A) (k : A -> Run B) : Run B :=
  match m with
  | (Ok a, tr) => let (r, tr') := k a in (r, tr ++ tr')
  | (Throw e, tr) => (Throw e, tr)
  end.

(** [try { m } catch (err) { h err }], with the trace of both parts. *)
Definition tryR {A} (m : Run A) (h : JsError -> Run A) : Run A :=
  match m with
  | (Ok a, tr) => (Ok a, tr)
  | (Throw e, tr) => let (r, tr') := h e in (r, tr ++ tr')
  end.

Definition liftE {A} (m : Exc A) : Run A := (m, []).

#[global] Instance Run_ret : MRet Run := @retR.
#[global] Instance Run_bind : MBind Run := fun A B k m => bindR m k.

(** ** JavaScript values in templates and conditions *)

(** [`${v}`] of a string-or-undefined. *)
Definition show_opt (v : option string) : string :=
  match v with Some s => s | None => "undefined" end.

(** [v || d] on a string-or-undefined: the empty string is falsy too. *)
Definition orElse (v : option string) (d : string) : string :=
  match v with
  | Some s => if String.eqb s "" then d else s
  | None => d
  end.

(** [`${n}`] of an integer. *)
Definition show_Z (n : Z) : string :=
  match n with
  | Z0 => "0"
  | Zpos p => DecimalString.NilEmpty.string_of_uint (Pos.to_uint p)
  | Zneg p => "-" ++ DecimalString.NilEmpty.string_of_uint (Pos.to_uint p)
  end.

Definition show_nat (n : nat) : string := show_Z (Z.of_nat n).

(** [Math.round] on an exact rational: the nearest integer, ties towards
    plus infinity. *)
Definition Math_round (x : Q) : Z := Qfloor (Qplus x (1 # 2)).

(** ** IEEE doubles, as the gain stage uses them *)

(** [x || d] on numbers: [0], [-0] and [NaN] are falsy. *)
Definition truthyNumber (x : float) : bool :=
  negb (PrimFloat.is_zero x || PrimFloat.is_nan x).

Definition orNumber (x d : float) : float := if truthyNumber x then x else d.

(** [x !== y] on numbers. *)
Definition strictNe (x y : float) : bool := negb (PrimFloat.eqb x y).

Definition isNegZero (x : float) : bool := PrimFloat.is_zero x && PrimFloat.get_sign x.
Definition isPosZero (x : float) : bool := PrimFloat.is_zero x && negb (PrimFloat.get_sign x).

(** [Math.min(a, b)] and [Math.max(a, b)]: [NaN] if either is, and [-0] below [+0]. *)
Definition Math_min (a b : float) : float :=
  if PrimFloat.is_nan a || PrimFloat.is_nan b then PrimFloat.nan
  else if isNegZero b && isPosZero a then b
  else if PrimFloat.ltb b a then b else a.

Definition Math_max (a b : float) : float :=
  if PrimFloat.is_nan a || PrimFloat.is_nan b then PrimFloat.nan
  else if isPosZero b && isNegZero a then b
  else if PrimFloat.ltb a b then b else a.

(** The integer part of a double, towards zero; [0] for [NaN] and the
    infinities (the first steps of [ToInt16]). *)
Definition truncZ (x : float) : Z :=
  match Prim2SF x with
  | S754_finite s m e => let a := Z.shiftl (Zpos m) e in if s then - a else a
  | _ => 0
  end.

(** The wrap of [ToInt16]: modulo 2^16, into [-32768, 32767]. *)
Definition wrapInt16 (z : Z) : Z :=
  let m := z mod 65536 in if m <? 32768 then m else m - 65536.

Definition ToInt16 (x : float) : Z := wrapInt16 (truncZ x).

(** A 16-bit sample read as a number. *)
Definition float_of_int16 (s : Z) : float :=
  if s <? 0 then PrimFloat.opp (PrimFloat.of_uint63 (Uint63.of_Z (- s)))
  else PrimFloat.of_uint63 (Uint63.of_Z s).

(** [Int16Array] over a byte buffer (little-endian, as on the platforms the
    application runs on). *)
Definition int16_of_bytes (lo hi : byte) : Z :=
  wrapInt16 (Z_of_byte lo + 256 * Z_of_byte hi).

Definition bytes_of_int16 (s : Z) : list byte := bytesLE 2 (s mod 65536).

(** [new Int16Array(buffer)]: the samples of the buffer; a buffer of odd
    length raises [RangeError]. *)
Fixpoint int16View (bs : list byte) : Exc (list Z) :=
  match bs with
  | [] => Ok []
  | lo :: hi :: rest =>
      match int16View rest with
      | Ok samples => Ok (int16_of_bytes lo hi :: samples)
      | Throw e => Throw e
      end
  | [_] => Throw (RangeError "byte length of Int16Array should be a multiple of 2")
  end.

(** The buffer behind a run of samples. *)
Definition int16Bytes (samples : list Z) : list byte :=
  concat (map bytes_of_int16 samples).

(** ** The response of the image model, as [generateStudioImage] reads it

    [response.candidates?.[0]?.content?.parts], each part with an optional
    [inlineData] object whose [data] may be absent. *)
Module Image.

Record InlineData : Type := mkInlineData { data : option string }.
Record Part : Type := mkPart { inlineData : option InlineData }.
Record Content : Type := mkContent { parts : option (list Part) }.
Record Candidate : Type := mkCandidate { content : option Content }.
Record Response : Type := mkResponse { candidates : option (list Candidate) }.

(** [response.candidates?.[0]?.content?.parts || []] *)
Definition responseParts (response : Response) : list Part :=
  default [] (cs ← candidates response; c ← cs !! 0%nat; ct ← content c; parts ct).

(** [for (const part of ps) if (part.inlineData) return
    `data:image/png;base64,${part.inlineData.data}`]: what the loop returns,
    [None] when it runs to its end. *)
Fixpoint firstInline (ps : list Part) : option string :=
  match ps with
  | [] => None
  | part :: rest =>
      match inlineData part with
      | Some inline => Some ("data:image/png;base64," ++ show_opt (data inline))%string
      | None => firstInline rest
      end
  end.

End Image.

Definition Tone_str (t : Tone) : string :=
  match t with
  | CALM => "Calm" | ENERGETIC => "Energetic"
  | EMOTIONAL => "Emotional" | AUTHORITATIVE => "Authoritative"
  end.

Definition Speed_str (s : Speed) : string :=
  match s with SLOW => "Slow" | NORMAL => "Normal" | FAST => "Fast" end.

(** [VOICES] of [src/constants.ts]: identifier and remote voice name. *)
Definition VOICES : list (string * string) :=
  [("v1", "Puck"); ("v2", "Charon"); ("v3", "Fenrir");
   ("v4", "Kore"); ("v5", "Zephyr"); ("v6", "Aoede")]%string.

(** [(VOICES.find(v => v.id === id) || VOICES[0]).geminiVoice] *)
Definition selectedVoice (id : string) : string :=
  match List.find (fun v => String.eqb (fst v) id) VOICES with
  | Some v => snd v
  | None => "Puck"
  end.

(** The speech configuration of the audio request. *)
Inductive SpeechConfig : Type :=
| SingleVoice (voiceName : string)
| MultiSpeaker (speakers : list (string * string)).

Record AudioParams : Type := mkAudioParams {
  ttsText : string;
  speechConfig : SpeechConfig
}.

Definition nl : string := String (ascii_of_nat 10) EmptyString.
Definition dq : string := String (ascii_of_nat 34) EmptyString.

(** [err.message?.includes('429')], the test of the image loop. *)
Definition messageHas429 (err : JsError) : bool :=
  match message err with
  | Some m => includes "429" m
  | None => false
  end.

(** [config.aspectRatio === AspectRatio.VERTICAL ? '720/1280' : '1280/720'] *)
Definition dims (config : StudioConfig) : string :=
  if decide (aspectRatio config = VERTICAL) then "720/1280" else "1280/720".

(** [candidates?.[0]?.content?.parts?.[0]?.inlineData?.data] *)
Definition firstInlineData (response : Response) : option string :=
  cs ← candidates response; c ← cs !! 0%nat; ct ← content c;
  ps ← parts ct; p ← ps !! 0%nat; inlineData p.

(** * [src/services/geminiService.ts] *)

Module GeminiService.

(** The state of the image loop: [images], [isQuotaExhausted], and the number
    of calls of the image adapter made so far in the run. *)
Record LoopState : Type := mkLoop {
  loopImages : list string;
  isQuotaExhausted : bool;
  adapterCalls : nat
}.

Definition errorMsg (error : JsError) : string :=
  orElse (message error) (json error).

Definition isRateLimit (error : JsError) : bool :=
  includes "429" (errorMsg error) || includes "RESOURCE_EXHAUSTED" (errorMsg error).

Definition isAuthError (error : JsError) : bool :=
  includes "403" (errorMsg error) || includes "API_KEY_INVALID" (errorMsg error)
  || includes "not found" (errorMsg error).

Definition apiKeyIssue : JsError :=
  newError "API Key issue: Please check your Netlify Environment Variables. Make sure API_KEY is set.".

(** The loop of [retry] from index [i], with [n] iterations left; [fn k] is
    the outcome of the invocation of the operation at index [k]. *)
Fixpoint retryFrom {T} (fn : nat -> Exc T) (retries : Z) (n i : nat)
    (currentDelay : Z) : Run T :=
  match n with
  | O => throwR (newError "Production process timed out after retries.")
  | S n' =>
      match fn i with
      | Ok v => (Ok v, [Invoke])
      | Throw error =>
          if isAuthError error then (Throw apiKeyIssue, [Invoke])
          else if Z.of_nat i =? retries then (Throw error, [Invoke])
          else
            let waitTime := if isRateLimit error then currentDelay * 3 else currentDelay in
            let (r, tr) := retryFrom fn retries n' (S i) (currentDelay * 2) in
            (r, Invoke :: Warn (Z.of_nat i + 1) waitTime :: Sleep waitTime :: tr)
      end
  end.

(** [retry(fn, retries = 3, initialDelay = 3000)]: the loop runs for
    [i = 0 .. retries]. *)
Definition retry {T} (fn : nat -> Exc T) (retries initialDelay : Z) : Run T :=
  retryFrom fn retries (Z.to_nat (retries + 1)) 0 initialDelay.

Definition totalSeconds (config : StudioConfig) : Z :=
  durationMinutes config * 60 + durationSeconds config.

Definition multiplier (config : StudioConfig) : Q :=
  let multiplier := 2.5%Q in
  let multiplier := if decide (speed config = SLOW) then 2.0%Q else multiplier in
  let multiplier := if decide (speed config = FAST) then 3.0%Q else multiplier in
  multiplier.

Definition targetWordCount (config : StudioConfig) : Z :=
  Math_round (Qmult (inject_Z (totalSeconds config)) (multiplier config)).

(** The [contents] of the text request. *)
Definition textContents (prompt : string) (config : StudioConfig) : string :=
  "Production Topic: " ++ prompt ++ ". Word count target: "
    ++ show_Z (targetWordCount config) ++ ".".

Definition fallbackImage (i : nat) (config : StudioConfig) : string :=
  "https://picsum.photos/seed/" ++ show_nat i ++ "/" ++ dims config.

Definition errImage (i : nat) (config : StudioConfig) : string :=
  "https://picsum.photos/seed/err" ++ show_nat i ++ "/" ++ dims config.

Definition thumbPlaceholder (config : StudioConfig) : string :=
  "https://picsum.photos/seed/thumb/" ++ dims config.

Section Service.

(** The collaborators: the environment's key, the remote model (the outcome
    of each attempt of a request), [JSON.parse], the image adapter
    [generateStudioImage] (by number of the call within the run), [atob],
    [URL.createObjectURL], and whether a progress callback was passed. *)
Variable apiKey : option string.
Variable remoteText : string -> nat -> Exc Response.
Variable JSON_parse : string -> Exc Data.
Variable generateStudioImage : nat -> string -> AspectRatio -> Exc string.
Variable remoteAudio : AudioParams -> nat -> Exc Response.
Variable atob : string -> Exc string.
Variable createObjectURL : Blob -> Exc string.
Variable onProgress : bool.

Definition progress (percent : Z) : Run unit :=
  if onProgress then emit (Progress percent) else retR tt.

Definition audioParams (script : string) (config : StudioConfig) : AudioParams :=
  {| ttsText := "Tone: " ++ Tone_str (tone config) ++ ". Script: " ++ script;
     speechConfig := SingleVoice (selectedVoice (voiceId config)) |}.

(** The [try] block of [generateStudioAudio]: [Some] is its [return]. *)
Definition audioAttempt (script : string) (config : StudioConfig)
    : Run (option AudioArtifact) :=
  response ← retry (remoteAudio (audioParams script config)) 1 5000;
  match firstInlineData response with
  | Some base64Audio =>
      if String.eqb base64Audio "" then retR None
      else
        binaryString ← liftE (atob base64Audio);
        let pcmData := list_byte_of_string binaryString in
        combined ← liftE (Wav.encodeWav pcmData 24000);
        let blob := {| blobParts := combined; blobType := "audio/wav" |} in
        url ← liftE (createObjectURL blob);
        retR (Some {| blob := blob; url := url |})
  | None => retR None
  end.

Definition generateStudioAudio (script : string) (config : StudioConfig)
    : Run AudioArtifact :=
  returned ← tryR (audioAttempt script config)
                  (fun err => emit ConsoleError ;; retR None);
  retR (default emptyAudio returned).

(** One iteration of the image loop, before its progress report. *)
Definition imageStep (data : Data) (config : StudioConfig) (i : nat)
    (st : LoopState) : Run LoopState :=
  if isQuotaExhausted st then
    retR {| loopImages := loopImages st ++ [fallbackImage i config];
            isQuotaExhausted := true;
            adapterCalls := adapterCalls st |}
  else
    let imgPrompt :=
      orElse (imagePrompts data ≫= (.!! i))
             ("Cinematic scene for " ++ show_opt (title data)) in
    tryR (emit (Sleep 2500) ;;
          emit (ImageCall imgPrompt (aspectRatio config)) ;;
          img ← liftE (generateStudioImage (adapterCalls st) imgPrompt (aspectRatio config));
          retR {| loopImages := loopImages st ++ [img];
                  isQuotaExhausted := false;
                  adapterCalls := S (adapterCalls st) |})
         (fun err =>
            emit ConsoleError ;;
            retR {| loopImages := loopImages st ++ [errImage i config];
                    isQuotaExhausted := messageHas429 err;
                    adapterCalls := S (adapterCalls st) |}).

(** [for (let i = 0; i < 4; i++)], from index [i] with [n] iterations left. *)
Fixpoint imageLoop (data : Data) (config : StudioConfig) (n i : nat)
    (st : LoopState) : Run LoopState :=
  match n with
  | O => retR st
  | S n' =>
      st' ← imageStep data config i st;
      progress (25 + (Z.of_nat i + 1) * 15) ;;
      imageLoop data config n' (S i) st'
  end.

Definition thumbnailStage (prompt : string) (data : Data) (config : StudioConfig)
    (st : LoopState) : Run string :=
  let thumbPrompt := orElse (thumbnailPrompt data) ("Hero shot for " ++ prompt) in
  tryR (emit (Sleep 3000) ;;
        emit (ImageCall thumbPrompt (aspectRatio config)) ;;
        liftE (generateStudioImage (adapterCalls st) thumbPrompt (aspectRatio config)))
       (fun err => retR (thumbPlaceholder config)).

Definition keyMissing : bool :=
  match apiKey with
  | None => true
  | Some k => String.eqb k "" || String.eqb k "undefined"
  end.

Definition generateContent (prompt : string) (config : StudioConfig) : Run StudioResult :=
  if keyMissing then
    throwR (newError "API_KEY is missing. Please add it to your Netlify Dashboard under Site Settings > Environment Variables.")
  else
    progress 5 ;;
    response ← retry (remoteText (textContents prompt config)) 3 3000;
    progress 25 ;;
    data ← liftE (JSON_parse (orElse (text response) "{}"));
    st ← imageLoop data config 4 0
           {| loopImages := []; isQuotaExhausted := false; adapterCalls := 0 |};
    thumbnail ← thumbnailStage prompt data config st;
    progress 90 ;;
    audioData ← generateStudioAudio (orElse (script data) "") config;
    progress 100 ;;
    retR {| rData := data;
            rContentType := contentType config;
            rAspectRatio := aspectRatio config;
            images := loopImages st;
            thumbnail := thumbnail;
            audioBlob := blob audioData;
            audioUrl := url audioData |}.

End Service.

(** [generateStudioImage]: [remoteImage text ratio k] is the outcome of the
    [k]-th attempt of the request with that text and that [imageConfig]. *)
Definition imageText (prompt : string) (aspectRatio : AspectRatio) : string :=
  prompt ++ ". High quality, cinematic, ultra-realistic, "
    ++ AspectRatio_str aspectRatio ++ " aspect ratio.".

Definition generateStudioImage
    (remoteImage : string -> AspectRatio -> nat -> Exc Image.Response)
    (prompt : string) (aspectRatio : AspectRatio) : Run string :=
  response ← retry (remoteImage (imageText prompt aspectRatio) aspectRatio) 2 4000;
  match Image.firstInline (Image.responseParts response) with
  | Some dataUrl => retR dataUrl
  | None => throwR (newError "Asset generation failed.")
  end.

End GeminiService.

(** * [src/unnamed/part_000] *)

Module Part000.

(** The state of the image loop: [images], [isQuotaExhausted],
    [currentProgress], and the numbers of calls of the image adapter and of
    [Math.random] made so far in the run. *)
Record LoopState : Type := mkLoop {
  loopImages : list string;
  isQuotaExhausted : bool;
  currentProgress : Z;
  adapterCalls : nat;
  randomCalls : nat
}.

(** [error?.message?.includes('429') || error?.status === 'RESOURCE_EXHAUSTED'
    || JSON.stringify(error).includes('429')] *)
Definition isRateLimit (error : JsError) : bool :=
  messageHas429 error
  || match status error with
     | Some s => String.eqb s "RESOURCE_EXHAUSTED"
     | None => false
     end
  || includes "429" (json error).

Fixpoint retryFrom {T} (fn : nat -> Exc T) (retries : Z) (n i : nat)
    (currentDelay : Z) : Run T :=
  match n with
  | O => throwR (newError "Retry failed after maximum attempts")
  | S n' =>
      match fn i with
      | Ok v => (Ok v, [Invoke])
      | Throw error =>
          if Z.of_nat i =? retries then (Throw error, [Invoke])
          else
            let waitTime := if isRateLimit error then currentDelay * 2 else currentDelay in
            let (r, tr) := retryFrom fn retries n' (S i) (currentDelay * 2) in
            (r, Invoke :: Warn (Z.of_nat i + 1) waitTime :: Sleep waitTime :: tr)
      end
  end.

(** [retry(fn, retries = 3, initialDelay = 2000)] *)
Definition retry {T} (fn : nat -> Exc T) (retries initialDelay : Z) : Run T :=
  retryFrom fn retries (Z.to_nat (retries + 1)) 0 initialDelay.

Definition totalSeconds (config : StudioConfig) : Z :=
  durationMinutes config * 60 + durationSeconds config.

Definition multiplier (config : StudioConfig) : Q :=
  let multiplier := 2.5%Q in
  let multiplier := if decide (speed config = SLOW) then 2.0%Q else multiplier in
  let multiplier := if decide (speed config = FAST) then 3.0%Q else multiplier in
  multiplier.

Definition targetWordCount (config : StudioConfig) : Z :=
  Math_round (Qmult (inject_Z (totalSeconds config)) (multiplier config)).

Definition textContents (prompt : string) (config : StudioConfig) : string :=
  "Topic: " ++ prompt ++ nl
    ++ "Format: " ++ ContentType_str (contentType config) ++ nl
    ++ "Category: " ++ ScriptCategory_str (scriptCategory config) ++ nl
    ++ "Words: " ++ show_Z (targetWordCount config) ++ nl
    ++ "Ratio: " ++ AspectRatio_str (aspectRatio config).

(** The gain of one sample:
    [Math.max(-32768, Math.min(32767, dataInt16[i] * volumeFactor))] stored
    into an [Int16Array]. *)
Definition clampScaled (s : Z) (volumeFactor : float) : float :=
  let scaled := PrimFloat.mul (float_of_int16 s) volumeFactor in
  Math_max (-32768)%float (Math_min 32767%float scaled).

Definition gainSample (volumeFactor : float) (s : Z) : Z :=
  ToInt16 (clampScaled s volumeFactor).

(** [config.volume || 1.0] *)
Definition volumeFactor (config : StudioConfig) : float :=
  orNumber (volume config) 1.0%float.

(** The gain stage.  [dataInt16] is a view of the buffer of [pcmData], so
    the stores of the loop are what [pcmData] holds afterwards. *)
Definition gainStage (pcmData : list byte) (volumeFactor : float) : Exc (list byte) :=
  if strictNe volumeFactor 1.0%float then
    dataInt16 ← int16View pcmData;
    Ok (int16Bytes (map (gainSample volumeFactor) dataInt16))
  else Ok pcmData.

Section Service.

(** The collaborators, as in [GeminiService], and [Math.random] as the text
    its [k]-th value prints to. *)
Variable remoteText : string -> nat -> Exc Response.
Variable JSON_parse : string -> Exc Data.
Variable generateStudioImage : nat -> string -> AspectRatio -> Exc string.
Variable remoteAudio : AudioParams -> nat -> Exc Response.
Variable atob : string -> Exc string.
Variable createObjectURL : Blob -> Exc string.
Variable random : nat -> string.
Variable onProgress : bool.

Definition progress (percent : Z) : Run unit :=
  if onProgress then emit (Progress percent) else retR tt.

Definition audioParams (script : string) (config : StudioConfig) : AudioParams :=
  {| ttsText :=
       "Performance: " ++ Tone_str (tone config)
         ++ ". Speed: " ++ Speed_str (speed config)
         ++ ". Duration target: " ++ show_Z (durationMinutes config) ++ "m "
         ++ show_Z (durationSeconds config) ++ "s. Script: " ++ script;
     speechConfig :=
       if decide (contentType config = PODCAST)
       then MultiSpeaker [("Joe", "Puck"); ("Jane", "Kore")]%string
       else SingleVoice (selectedVoice (voiceId config)) |}.

Definition audioAttempt (script : string) (config : StudioConfig)
    : Run (option AudioArtifact) :=
  response ← retry (remoteAudio (audioParams script config)) 3 2000;
  match firstInlineData response with
  | Some base64Audio =>
      if String.eqb base64Audio "" then retR None
      else
        binaryString ← liftE (atob base64Audio);
        let pcmData := list_byte_of_string binaryString in
        pcmData ← liftE (gainStage pcmData (volumeFactor config));
        combined ← liftE (Wav.encodeWav pcmData 24000);
        let blob := {| blobParts := combined; blobType := "audio/wav" |} in
        url ← liftE (createObjectURL blob);
        retR (Some {| blob := blob; url := url |})
  | None => retR None
  end.

Definition generateStudioAudio (script : string) (config : StudioConfig)
    : Run AudioArtifact :=
  returned ← tryR (audioAttempt script config)
                  (fun err => emit ConsoleError ;; retR None);
  retR (default emptyAudio returned).

Definition fallbackImage (i : nat) (rnd : string) (config : StudioConfig) : string :=
  "https://picsum.photos/seed/fallback_" ++ show_nat i ++ "_" ++ rnd ++ "/" ++ dims config.

Definition errImage (i : nat) (rnd : string) (config : StudioConfig) : string :=
  "https://picsum.photos/seed/err_" ++ show_nat i ++ "_" ++ rnd ++ "/" ++ dims config.

Definition thumbFallback (rnd : string) (config : StudioConfig) : string :=
  "https://picsum.photos/seed/thumb_" ++ rnd ++ "/" ++ dims config.

Definition thumbErr (rnd : string) (config : StudioConfig) : string :=
  "https://picsum.photos/seed/thumb_err_" ++ rnd ++ "/" ++ dims config.

(** One iteration of the image loop, before its progress report. *)
Definition imageStep (prompts : list string) (config : StudioConfig) (i : nat)
    (st : LoopState) : Run LoopState :=
  if isQuotaExhausted st then
    retR {| loopImages := loopImages st ++ [fallbackImage i (random (randomCalls st)) config];
            isQuotaExhausted := true;
            currentProgress := currentProgress st;
            adapterCalls := adapterCalls st;
            randomCalls := S (randomCalls st) |}
  else
    let imgPrompt := show_opt (prompts !! i) in
    tryR ((if (0 <? i)%nat then emit (Sleep 1500) else retR tt) ;;
          emit (ImageCall imgPrompt (aspectRatio config)) ;;
          img ← liftE (generateStudioImage (adapterCalls st) imgPrompt (aspectRatio config));
          retR {| loopImages := loopImages st ++ [img];
                  isQuotaExhausted := false;
                  currentProgress := currentProgress st;
                  adapterCalls := S (adapterCalls st);
                  randomCalls := randomCalls st |})
         (fun err =>
            emit ConsoleError ;;
            retR {| loopImages := loopImages st ++ [errImage i (random (randomCalls st)) config];
                    isQuotaExhausted := messageHas429 err;
                    currentProgress := currentProgress st;
                    adapterCalls := S (adapterCalls st);
                    randomCalls := S (randomCalls st) |}).

(** [for (let i = 0; i < (data.imagePrompts?.length || 0); i++)], from index
    [i] with [n] iterations left. *)
Fixpoint imageLoop (prompts : list string) (config : StudioConfig) (n i : nat)
    (st : LoopState) : Run LoopState :=
  match n with
  | O => retR st
  | S n' =>
      st ← imageStep prompts config i st;
      let st := {| loopImages := loopImages st;
                   isQuotaExhausted := isQuotaExhausted st;
                   currentProgress := currentProgress st + 12;
                   adapterCalls := adapterCalls st;
                   randomCalls := randomCalls st |} in
      progress (Z.min (currentProgress st) 85) ;;
      imageLoop prompts config n' (S i) st
  end.

Definition thumbnailStage (data : Data) (config : StudioConfig)
    (st : LoopState) : Run string :=
  if isQuotaExhausted st then
    retR (thumbFallback (random (randomCalls st)) config)
  else
    let thumbPrompt := orElse (thumbnailPrompt data) "Cinematic title card" in
    tryR (emit (Sleep 2000) ;;
          emit (ImageCall thumbPrompt (aspectRatio config)) ;;
          liftE (generateStudioImage (adapterCalls st) thumbPrompt (aspectRatio config)))
         (fun err => retR (thumbErr (random (randomCalls st)) config)).

Definition generateContent (prompt : string) (config : StudioConfig) : Run StudioResult :=
  progress 5 ;;
  response ← retry (remoteText (textContents prompt config)) 3 2000;
  progress 20 ;;
  data ← liftE (JSON_parse (orElse (text response) "{}"));
  let prompts := default [] (imagePrompts data) in
  st ← imageLoop prompts config (length prompts) 0
         {| loopImages := []; isQuotaExhausted := false; currentProgress := 20;
            adapterCalls := 0; randomCalls := 0 |};
  thumbnail ← thumbnailStage data config st;
  progress 90 ;;
  audioData ← generateStudioAudio (orElse (script data) "") config;
  progress 100 ;;
  retR {| rData := data;
          rContentType := contentType config;
          rAspectRatio := aspectRatio config;
          images := loopImages st;
          thumbnail := thumbnail;
          audioBlob := blob audioData;
          audioUrl := url audioData |}.

End Service.

Definition imageText (prompt : string) (aspectRatio : AspectRatio) : string :=
  prompt ++ ". Optimized for " ++ AspectRatio_str aspectRatio
    ++ " aspect ratio. High detail cinematic style.".

Definition generateStudioImage
    (remoteImage : string -> AspectRatio -> nat -> Exc Image.Response)
    (prompt : string) (aspectRatio : AspectRatio) : Run string :=
  response ← retry (remoteImage (imageText prompt aspectRatio) aspectRatio) 2 3000;
  match Image.firstInline (Image.responseParts response) with
  | Some dataUrl => retR dataUrl
  | None => throwR (newError "No image data returned from API")
  end.

End Part000.

(** * The service in the second document of [src/services/dbService.ts] *)

Module DbDoc.

Record LoopState : Type := mkLoop {
  loopImages : list string;
  isQuotaExhausted : bool;
  adapterCalls : nat
}.

Definition isRateLimit (error : JsError) : bool :=
  messageHas429 error
  || match status error with
     | Some s => String.eqb s "RESOURCE_EXHAUSTED"
     | None => false
     end
  || includes "429" (json error).

Fixpoint retryFrom {T} (fn : nat -> Exc T) (retries : Z) (n i : nat)
    (currentDelay : Z) : Run T :=
  match n with
  | O => throwR (newError "Retry failed after maximum attempts")
  | S n' =>
      match fn i with
      | Ok v => (Ok v, [Invoke])
      | Throw error =>
          if Z.of_nat i =? retries then (Throw error, [Invoke])
          else
            let waitTime := if isRateLimit error then currentDelay * 2 else currentDelay in
            let (r, tr) := retryFrom fn retries n' (S i) (currentDelay * 2) in
            (r, Invoke :: Warn (Z.of_nat i + 1) waitTime :: Sleep waitTime :: tr)
      end
  end.

Definition retry {T} (fn : nat -> Exc T) (retries initialDelay : Z) : Run T :=
  retryFrom fn retries (Z.to_nat (retries + 1)) 0 initialDelay.

Definition totalSeconds (config : StudioConfig) : Z :=
  durationMinutes config * 60 + durationSeconds config.

Definition multiplier (config : StudioConfig) : Q :=
  let multiplier := 2.5%Q in
  let multiplier := if decide (speed config = SLOW) then 2.0%Q else multiplier in
  let multiplier := if decide (speed config = FAST) then 3.0%Q else multiplier in
  multiplier.

Definition targetWordCount (config : StudioConfig) : Z :=
  Math_round (Qmult (inject_Z (totalSeconds config)) (multiplier config)).

(** The text request: [contents] and the system instruction, which is where
    this copy states the word count. *)
Definition textContents (prompt : string) (config : StudioConfig) : string :=
  "Topic: " ++ prompt ++ nl ++ "Ratio: " ++ AspectRatio_str (aspectRatio config).

Definition systemInstruction (prompt : string) (config : StudioConfig) : string :=
  nl
  ++ "    You are Creato AI, a high-end production studio." ++ nl
  ++ "    Generate a complete content package for: " ++ ContentType_str (contentType config)
  ++ " in category: " ++ ScriptCategory_str (scriptCategory config)
  ++ ", language: " ++ Language_str (language config) ++ "." ++ nl
  ++ "    " ++ nl
  ++ "    DURATION: Exactly " ++ show_Z (durationMinutes config) ++ "m "
  ++ show_Z (durationSeconds config) ++ "s (~" ++ show_Z (targetWordCount config)
  ++ " words)." ++ nl
  ++ "    VISUALS: Ratio " ++ AspectRatio_str (aspectRatio config) ++ ". " ++ nl
  ++ "    THUMBNAIL: A " ++ dq ++ "Hero Shot" ++ dq ++ " for topic: "
  ++ dq ++ prompt ++ dq ++ ". " ++ nl
  ++ "    " ++ nl
  ++ "    RESPONSE FORMAT: JSON." ++ nl
  ++ "  ".

Definition fallbackImage (i : nat) (config : StudioConfig) : string :=
  "https://picsum.photos/seed/fallback_" ++ show_nat i ++ "/" ++ dims config.

Definition errImage (i : nat) (config : StudioConfig) : string :=
  "https://picsum.photos/seed/err_" ++ show_nat i ++ "/" ++ dims config.

Definition thumbPlaceholder (config : StudioConfig) : string :=
  "https://picsum.photos/seed/thumb_err/" ++ dims config.

Section Service.

Variable remoteText : string -> string -> nat -> Exc Response.
Variable JSON_parse : string -> Exc Data.
Variable generateStudioImage : nat -> string -> AspectRatio -> Exc string.
Variable remoteAudio : AudioParams -> nat -> Exc Response.
Variable atob : string -> Exc string.
Variable createObjectURL : Blob -> Exc string.
Variable onProgress : bool.

Definition progress (percent : Z) : Run unit :=
  if onProgress then emit (Progress percent) else retR tt.

Definition audioParams (script : string) (config : StudioConfig) : AudioParams :=
  {| ttsText :=
       "Performance: " ++ Tone_str (tone config)
         ++ ". Speed: " ++ Speed_str (speed config) ++ ". Script: " ++ script;
     speechConfig := SingleVoice (selectedVoice (voiceId config)) |}.

Definition audioAttempt (script : string) (config : StudioConfig)
    : Run (option AudioArtifact) :=
  response ← retry (remoteAudio (audioParams script config)) 3 2000;
  match firstInlineData response with
  | Some base64Audio =>
      if String.eqb base64Audio "" then retR None
      else
        binaryString ← liftE (atob base64Audio);
        let pcmData := list_byte_of_string binaryString in
        combined ← liftE (Wav.encodeWav pcmData 24000);
        let blob := {| blobParts := combined; blobType := "audio/wav" |} in
        url ← liftE (createObjectURL blob);
        retR (Some {| blob := blob; url := url |})
  | None => retR None
  end.

Definition generateStudioAudio (script : string) (config : StudioConfig)
    : Run AudioArtifact :=
  returned ← tryR (audioAttempt script config)
                  (fun err => emit ConsoleError ;; retR None);
  retR (default emptyAudio returned).

Definition imageStep (prompts : list string) (config : StudioConfig) (i : nat)
    (st : LoopState) : Run LoopState :=
  if isQuotaExhausted st then
    retR {| loopImages := loopImages st ++ [fallbackImage i config];
            isQuotaExhausted := true;
            adapterCalls := adapterCalls st |}
  else
    let imgPrompt := show_opt (prompts !! i) in
    tryR ((if (0 <? i)%nat then emit (Sleep 1500) else retR tt) ;;
          emit (ImageCall imgPrompt (aspectRatio config)) ;;
          img ← liftE (generateStudioImage (adapterCalls st) imgPrompt (aspectRatio config));
          retR {| loopImages := loopImages st ++ [img];
                  isQuotaExhausted := false;
                  adapterCalls := S (adapterCalls st) |})
         (fun err =>
            retR {| loopImages := loopImages st ++ [errImage i config];
                    isQuotaExhausted := messageHas429 err;
                    adapterCalls := S (adapterCalls st) |}).

Fixpoint imageLoop (prompts : list string) (config : StudioConfig) (n i : nat)
    (st : LoopState) : Run LoopState :=
  match n with
  | O => retR st
  | S n' =>
      st' ← imageStep prompts config i st;
      progress (Z.min (20 + (Z.of_nat i + 1) * 15) 80) ;;
      imageLoop prompts config n' (S i) st'
  end.

Definition thumbnailStage (prompt : string) (data : Data) (config : StudioConfig)
    (st : LoopState) : Run string :=
  let thumbPrompt := orElse (thumbnailPrompt data) ("Hero image for " ++ prompt) in
  tryR (emit (Sleep 2000) ;;
        emit (ImageCall thumbPrompt (aspectRatio config)) ;;
        liftE (generateStudioImage (adapterCalls st) thumbPrompt (aspectRatio config)))
       (fun err => retR (thumbPlaceholder config)).

Definition generateContent (prompt : string) (config : StudioConfig) : Run StudioResult :=
  progress 5 ;;
  response ← retry (remoteText (systemInstruction prompt config)
                               (textContents prompt config)) 3 2000;
  progress 20 ;;
  data ← liftE (JSON_parse (orElse (text response) "{}"));
  let prompts := default [] (imagePrompts data) in
  st ← imageLoop prompts config (length prompts) 0
         {| loopImages := []; isQuotaExhausted := false; adapterCalls := 0 |};
  thumbnail ← thumbnailStage prompt data config st;
  audioData ← generateStudioAudio (orElse (script data) "") config;
  progress 100 ;;
  retR {| rData := data;
          rContentType := contentType config;
          rAspectRatio := aspectRatio config;
          images := loopImages st;
          thumbnail := thumbnail;
          audioBlob := blob audioData;
          audioUrl := url audioData |}.

End Service.

Definition imageText (prompt : string) (aspectRatio : AspectRatio) : string :=
  prompt ++ ". Cinematic, high detail, realistic, "
    ++ AspectRatio_str aspectRatio ++ " aspect ratio.".

Definition generateStudioImage
    (remoteImage : string -> AspectRatio -> nat -> Exc Image.Response)
    (prompt : string) (aspectRatio : AspectRatio) : Run string :=
  response ← retry (remoteImage (imageText prompt aspectRatio) aspectRatio) 2 3000;
  match Image.firstInline (Image.responseParts response) with
  | Some dataUrl => retR dataUrl
  | None => throwR (newError "No image data")
  end.

End DbDoc.

(** * [src/services/dbService.ts]: the history in IndexedDB *)

Module DbService.

(** [HistoryItem]: a result with its identifier, its time and its prompt. *)
Record HistoryItem : Type := mkItem {
  id : string;
  timestamp : Z;
  prompt : string;
  result : StudioResult
}.

(** The object store ['history'], created with [{ keyPath: 'id' }]: its
    records, in the order of their keys (the order [getAll] returns them
    in). *)
Definition Store : Type := list HistoryItem.

Definition hasKey (key : string) (store : Store) : bool :=
  existsb (fun r => String.eqb (id r) key) store.

Fixpoint insertByKey (item : HistoryItem) (store : Store) : Store :=
  match store with
  | [] => [item]
  | r :: rest =>
      if String.ltb (id item) (id r) then item :: r :: rest
      else r :: insertByKey item rest
  end.

(** [store.add(item)]: a record whose key is in the store already makes the
    request fail with a [ConstraintError]. *)
Definition add (item : HistoryItem) (store : Store) : Exc Store :=
  if hasKey (id item) store
  then Throw (newError "Key already exists in the object store.")
  else Ok (insertByKey item store).

(** [items.forEach(item => store.add(item))], as the transaction runs the
    requests: one after the other, up to the first that fails. *)
Fixpoint addAll (items : list HistoryItem) (store : Store) : Exc Store :=
  match items with
  | [] => Ok store
  | item :: rest =>
      match add item store with
      | Ok store' => addAll rest store'
      | Throw e => Throw e
      end
  end.

(** [saveHistoryToDB]: the outcome of the promise and the store afterwards.
    [opened] is the outcome of [openDB].  A failed request aborts the
    transaction, which undoes all of it, [store.clear()] included. *)
Definition saveHistoryToDB (opened : Exc unit) (items : list HistoryItem) (db : Store)
    : Exc unit * Store :=
  match opened with
  | Throw e => (Throw e, db)
  | Ok _ =>
      match addAll items [] with
      | Ok store => (Ok tt, store)
      | Throw e => (Throw e, db)
      end
  end.

(** [results.sort((a, b) => b.timestamp - a.timestamp)]: the sort is stable,
    so records with the same time keep the order they came in. *)
Fixpoint insertByTime (x : HistoryItem) (sorted : list HistoryItem) : list HistoryItem :=
  match sorted with
  | [] => [x]
  | y :: rest =>
      if timestamp x <? timestamp y then y :: insertByTime x rest
      else x :: y :: rest
  end.

Definition sortNewestFirst (results : list HistoryItem) : list HistoryItem :=
  foldr insertByTime [] results.

Definition loadHistoryFromDB (opened : Exc unit) (db : Store) : Exc (list HistoryItem) :=
  match opened with
  | Throw e => Throw e
  | Ok _ => Ok (sortNewestFirst db)
  end.

Definition clearHistoryDB (opened : Exc unit) (db : Store) : Exc unit * Store :=
  match opened with
  | Throw e => (Throw e, db)
  | Ok _ => (Ok tt, [])
  end.

End DbService.

(** * [src/App.tsx]: the duration of the configuration *)

Module App.

(** The effect on [config.contentType], [config.durationMinutes] and
    [config.durationSeconds]: the configuration its [setConfig] call
    installs, or [None] when it calls none. *)
Definition durationEffect (config : StudioConfig) : option StudioConfig :=
  let isReel := bool_decide (contentType config = REEL) in
  let mins := durationMinutes config in
  let secs := durationSeconds config in
  let withDuration (m s : Z) : StudioConfig :=
    {| language := language config; primaryGender := primaryGender config;
       voiceId := voiceId config; tone := tone config; speed := speed config;
       volume := volume config; contentType := contentType config;
       scriptCategory := scriptCategory config;
       durationMinutes := m; durationSeconds := s;
       aspectRatio := aspectRatio config |} in
  if isReel then
    if 0 <? mins then Some (withDuration 0 60)
    else if 60 <? secs then Some (withDuration mins 60)
    else None
  else
    let totalSecs := mins * 60 + secs in
    if 300 <? totalSecs then Some (withDuration 5 0) else None.

(** The effect runs after every render in which one of its dependencies
    changed: the configuration the component comes to rest in, within [n]
    renders. *)
Fixpoint settle (n : nat) (config : StudioConfig) : StudioConfig :=
  match n with
  | O => config
  | S n' =>
      match durationEffect config with
      | Some config' => settle n' config'
      | None => config
      end
  end.

(** [handleGenerate], up to its call of [generateContent]: the word count
    that call computes from the configuration then in the state; [None] when
    the prompt is blank or the duration is under five seconds. *)
Definition handleGenerateWordCount (promptBlank : bool) (config : StudioConfig)
    : option Z :=
  if promptBlank then None
  else
    let totalSecs := durationMinutes config * 60 + durationSeconds config in
    if totalSecs <? 5 then None
    else Some (GeminiService.targetWordCount config).

(** [handleContentTypeChange]: the configuration its [setConfig] installs
    from [prev]. *)
Definition handleContentTypeChange (type : ContentType) (prev : StudioConfig)
    : StudioConfig :=
  {| language := language prev; primaryGender := primaryGender prev;
     voiceId := voiceId prev; tone := tone prev; speed := speed prev;
     volume := volume prev;
     contentType := type;
     scriptCategory := scriptCategory prev;
     durationMinutes := durationMinutes prev;
     durationSeconds := durationSeconds prev;
     aspectRatio := if decide (type = REEL) then VERTICAL else HORIZONTAL |}.

Section Handlers.

(** [parseInt] of the text of a number input: an integer, or [None] for
    [NaN]. *)
Variable parseInt : string -> option Z.

(** [parseInt(val) || 0]: [NaN] and [0] are falsy. *)
Definition parsedOrZero (val : string) : Z := default 0 (parseInt val).

Definition handleMinutesChange (val : string) (prev : StudioConfig) : StudioConfig :=
  let mins := Z.max 0 (Z.min 5 (parsedOrZero val)) in
  {| language := language prev; primaryGender := primaryGender prev;
     voiceId := voiceId prev; tone := tone prev; speed := speed prev;
     volume := volume prev; contentType := contentType prev;
     scriptCategory := scriptCategory prev;
     durationMinutes := mins;
     durationSeconds := if mins =? 5 then 0 else durationSeconds prev;
     aspectRatio := aspectRatio prev |}.

(** [handleSecondsChange] reads the format and the minutes from the [config]
    of the render it was created in, and updates [prev]. *)
Definition handleSecondsChange (val : string) (config prev : StudioConfig)
    : StudioConfig :=
  let isReel := bool_decide (contentType config = REEL) in
  let maxSecs := if isReel then 60 else (if durationMinutes config =? 5 then 0 else 59) in
  let secs := Z.max 0 (Z.min maxSecs (parsedOrZero val)) in
  {| language := language prev; primaryGender := primaryGender prev;
     voiceId := voiceId prev; tone := tone prev; speed := speed prev;
     volume := volume prev; contentType := contentType prev;
     scriptCategory := scriptCategory prev;
     durationMinutes := durationMinutes prev;
     durationSeconds := secs;
     aspectRatio := aspectRatio prev |}.

End Handlers.

(** The history of [App.tsx].  [handleGenerate] puts the new item first and
    keeps thirty: [[newItem, ...history].slice(0, 30)]. *)
Definition pushHistory (newItem : DbService.HistoryItem)
    (history : list DbService.HistoryItem) : list DbService.HistoryItem :=
  take 30 (newItem :: history).

(** [{ ...h, thumbnail: newThumbnail }] *)
Definition withThumbnail (newThumbnail : string) (h : DbService.HistoryItem)
    : DbService.HistoryItem :=
  {| DbService.id := DbService.id h;
     DbService.timestamp := DbService.timestamp h;
     DbService.prompt := DbService.prompt h;
     DbService.result :=
       {| rData := rData (DbService.result h);
          rContentType := rContentType (DbService.result h);
          rAspectRatio := rAspectRatio (DbService.result h);
          images := images (DbService.result h);
          thumbnail := newThumbnail;
          audioBlob := audioBlob (DbService.result h);
          audioUrl := audioUrl (DbService.result h) |} |}.

(** [history.map(h => h.id === (result as HistoryItem).id
                       ? { ...h, thumbnail: newThumbnail } : h)];
    [resultId] is [None] when the result on display is not a history item
    (its [id] is undefined). *)
Definition sameId (hId : string) (resultId : option string) : bool :=
  match resultId with
  | Some rId => String.eqb hId rId
  | None => false
  end.

Definition regenerateThumbnailHistory (resultId : option string) (newThumbnail : string)
    (history : list DbService.HistoryItem) : list DbService.HistoryItem :=
  map (fun h => if sameId (DbService.id h) resultId
                then withThumbnail newThumbnail h else h) history.

End App.

(** * [src/components/StudioOutput.tsx]: the audio download *)

Module StudioOutput.









End StudioOutput.

(** * Notions the statements use *)

(** A run that reports no progress, whatever its outcome. *)
Definition silent {A} (m : Run A) : Prop := progressValues (snd m) = [].

(** What [generateStudioAudio] returns, from the outcome of its [try] block. *)
Definition fromAttempt (attempt : Exc (option AudioArtifact)) : AudioArtifact :=
  match attempt with
  | Ok (Some art) => art
  | _ => emptyAudio
  end.

(** The progress reports of a complete run, per copy; [n] is the number of
    image prompts of the parsed response. *)
Definition GeminiService_stages : list Z := [5; 25; 40; 55; 70; 85; 90; 100].

Definition Part000_stages (n : nat) : list Z :=
  [5; 20]
  ++ map (fun i => Z.min (20 + 12 * (Z.of_nat i + 1)) 85) (seq 0 n)
  ++ [90; 100].

Definition DbDoc_stages (n : nat) : list Z :=
  [5; 20]
  ++ map (fun i => Z.min (20 + (Z.of_nat i + 1) * 15) 80) (seq 0 n)
  ++ [100].

(** A sequence of percentages as the specification wants it: never
    decreasing, and within 0..100. *)
Definition wellFormedProgress (pv : list Z) : Prop :=
  StronglySorted Z.le pv /\ Forall (fun p => 0 <= p <= 100) pv.

(** What a run returned, if it did not throw. *)
Definition returned {A} (m : Run A) : option A :=
  match fst m with
  | Ok a => Some a
  | Throw _ => None
  end.

(** A run all of whose events satisfy [P], whatever its outcome. *)
Definition only {A} (P : Event -> Prop) (m : Run A) : Prop := Forall P (snd m).

(** The events of [retry] and of the audio stage: none is a call of the image
    adapter or of the progress callback. *)
Definition backgroundEvent (e : Event) : Prop :=
  match e with
  | Invoke | Warn _ _ | Sleep _ | ConsoleError => True
  | Progress _ | ImageCall _ _ => False
  end.

(** The image adapter of the scenario of C2: the second call of the run
    fails with a 429 message, every other call returns an image. *)
Definition rateLimitedOnSecond (k : nat) (prompt : string) (ratio : AspectRatio)
    : Exc string :=
  if (k =? 1)%nat then Throw (newError "429 Too Many Requests")
  else Ok ("data:image/png;base64,IMG" ++ show_nat k)%string.

Local Open Scope string_scope.

Definition demoData : Data :=
  {| title := Some "Sunrise"; script := Some "A script."; description := Some "d";
     caption := Some "c"; hashtags := Some ["#a"]%string; bestTime := Some "9am";
     imagePrompts := Some ["p1"; "p2"; "p3"; "p4"]%string;
     thumbnailPrompt := Some "hero" |}.

Definition demoConfig : StudioConfig :=
  {| language := ENGLISH; primaryGender := MALE; voiceId := "v1"; tone := ENERGETIC;
     speed := NORMAL; volume := 1.0%float; contentType := REEL; scriptCategory := TECH;
     durationMinutes := 0; durationSeconds := 30; aspectRatio := VERTICAL |}.

Definition demoText : Response :=
  {| text := Some "{...}"; candidates := None |}.

(** The scenario of C2 run on each copy: the text stage and the parse
    succeed with four image prompts, the image adapter is
    [rateLimitedOnSecond], the audio call fails, a progress callback is
    passed. *)
Definition quotaRunGemini : Run StudioResult :=
  GeminiService.generateContent (Some "key") (fun _ _ => Ok demoText)
    (fun _ => Ok demoData) rateLimitedOnSecond (fun _ _ => Throw (newError "offline"))
    (fun s => Ok s) (fun _ => Ok "blob:1") true "mountain sunrise" demoConfig.

Definition quotaRunDbDoc : Run StudioResult :=
  DbDoc.generateContent (fun _ _ _ => Ok demoText)
    (fun _ => Ok demoData) rateLimitedOnSecond (fun _ _ => Throw (newError "offline"))
    (fun s => Ok s) (fun _ => Ok "blob:1") true "mountain sunrise" demoConfig.

Definition quotaRunPart000 : Run StudioResult :=
  Part000.generateContent (fun _ _ => Ok demoText)
    (fun _ => Ok demoData) rateLimitedOnSecond (fun _ _ => Throw (newError "offline"))
    (fun s => Ok s) (fun _ => Ok "blob:1") (fun k => "0." ++ show_nat k) true
    "mountain sunrise" demoConfig.

Local Close Scope string_scope.

(** The word count as the specification words it:
    [round(total_seconds × speed_multiplier)]. *)
Definition speedMultiplier (s : Speed) : Q :=
  match s with
  | SLOW => 2
  | NORMAL => 5 # 2
  | FAST => 3
  end.

Definition specWordCount (config : StudioConfig) : Z :=
  Math_round
    (Qmult (inject_Z (60 * durationMinutes config + durationSeconds config))
           (speedMultiplier (speed config))).

(** The largest duration the application lets a format have, in seconds. *)
Definition maxSeconds (c : ContentType) : Z :=
  match c with
  | REEL => 60
  | _ => 300
  end.

(** The short-form configuration of C8: 0 minutes, 90 seconds. *)
Definition reel90 : StudioConfig :=
  {| language := ENGLISH; primaryGender := MALE; voiceId := "v1"; tone := ENERGETIC;
     speed := NORMAL; volume := 1.0%float; contentType := REEL; scriptCategory := TECH;
     durationMinutes := 0; durationSeconds := 90; aspectRatio := VERTICAL |}.

(** A configuration with the volume set to zero. *)
Definition mutedConfig : StudioConfig :=
  {| language := ENGLISH; primaryGender := MALE; voiceId := "v1"; tone := ENERGETIC;
     speed := NORMAL; volume := 0%float; contentType := REEL; scriptCategory := TECH;
     durationMinutes := 0; durationSeconds := 30; aspectRatio := VERTICAL |}.

(** A signed 16-bit value. *)
Definition inInt16 (s : Z) : Prop := -32768 <= s <= 32767.

(** A configuration with the volume doubled, and an audio response with an
    inline payload. *)
Definition loudConfig : StudioConfig :=
  {| language := ENGLISH; primaryGender := MALE; voiceId := "v4"; tone := CALM;
     speed := NORMAL; volume := 2%float; contentType := LONG; scriptCategory := TECH;
     durationMinutes := 1; durationSeconds := 0; aspectRatio := HORIZONTAL |}.

Definition audioResponse : Response :=
  {| text := None;
     candidates :=
       Some [ {| content := Some {| parts := Some [ {| inlineData := Some "ECfgsQ=="%string |} ] |} |} ] |}.

(** A duration the application has come to rest on: no negative field, and
    nothing for the duration effect to correct. *)
Definition validDuration (config : StudioConfig) : Prop :=
  0 <= durationMinutes config /\ 0 <= durationSeconds config /\
  App.durationEffect config = None.

(** A long-form configuration with four minutes and a slow voice. *)
Definition longConfig : StudioConfig :=
  {| language := ENGLISH; primaryGender := FEMALE; voiceId := "v4"; tone := CALM;
     speed := SLOW; volume := 1.0%float; contentType := LONG; scriptCategory := TRAVEL;
     durationMinutes := 4; durationSeconds := 30; aspectRatio := HORIZONTAL |}.

(** [parseInt] on the few texts the examples type. *)
Definition parseDigits (val : string) : option Z :=
  if String.eqb val "5" then Some 5
  else if String.eqb val "45" then Some 45
  else if String.eqb val "-3" then Some (-3)
  else None.

(** A history as the application keeps it: newest first, with strictly
    decreasing times, no identifier twice, and at most thirty items. *)
Definition newestFirst (items : list DbService.HistoryItem) : Prop :=
  StronglySorted (fun a b => DbService.timestamp b < DbService.timestamp a) items.

Definition historyInvariant (history : list DbService.HistoryItem) : Prop :=
  NoDup (map DbService.id history) /\ newestFirst history /\
  (length history <= 30)%nat.

(** Never older before newer (records of the same time in any order). *)
Definition notOlderFirst (items : list DbService.HistoryItem) : Prop :=
  StronglySorted (fun a b => DbService.timestamp b <= DbService.timestamp a) items.

Definition demoResult : StudioResult :=
  {| rData := demoData; rContentType := REEL; rAspectRatio := VERTICAL;
     images := ["i1"; "i2"]%string; thumbnail := "t"%string;
     audioBlob := {| blobParts := []; blobType := ""%string |}; audioUrl := ""%string |}.

Definition demoItem (key : string) (time : Z) : DbService.HistoryItem :=
  {| DbService.id := key; DbService.timestamp := time;
     DbService.prompt := "mountain sunrise"%string; DbService.result := demoResult |}.

Definition demoHistory : list DbService.HistoryItem :=
  [demoItem "b7" 300; demoItem "a2" 200; demoItem "c9" 100]%string.




(** ** The common shape of the three copies of [retry]

    The loops differ in the credential test (absent in two copies), in the
    rate-limit test, in the factor applied to the wait of a rate-limited
    attempt and in the error thrown when the loop runs out; [retryWith]
    takes these as arguments, and each copy is an instance of it. *)
Fixpoint retryWith {T} (isAuth isRate : JsError -> bool) (authError timeoutError : JsError)
    (factor : Z) (fn : nat -> Exc T) (retries : Z) (n i : nat) (currentDelay : Z)
    : Run T :=
  match n with
  | O => throwR timeoutError
  | S n' =>
      match fn i with
      | Ok v => (Ok v, [Invoke])
      | Throw error =>
          if isAuth error then (Throw authError, [Invoke])
          else if Z.of_nat i =? retries then (Throw error, [Invoke])
          else
            let waitTime := if isRate error then currentDelay * factor else currentDelay in
            let (r, tr) := retryWith isAuth isRate authError timeoutError factor
                             fn retries n' (S i) (currentDelay * 2) in
            (r, Invoke :: Warn (Z.of_nat i + 1) waitTime :: Sleep waitTime :: tr)
      end
  end.

(** What one copy of [retry] is made of. *)
Record RetryPolicy : Type := mkPolicy {
  polAuth : JsError -> bool;
  polRate : JsError -> bool;
  polAuthError : JsError;
  polTimeout : JsError;
  polFactor : Z
}.

Definition geminiPolicy : RetryPolicy :=
  {| polAuth := GeminiService.isAuthError;
     polRate := GeminiService.isRateLimit;
     polAuthError := GeminiService.apiKeyIssue;
     polTimeout := newError "Production process timed out after retries.";
     polFactor := 3 |}.

Definition part000Policy : RetryPolicy :=
  {| polAuth := fun _ => false;
     polRate := Part000.isRateLimit;
     polAuthError := newError "";
     polTimeout := newError "Retry failed after maximum attempts";
     polFactor := 2 |}.

Definition retryOf {T} (p : RetryPolicy) (fn : nat -> Exc T) (retries initialDelay : Z)
    : Run T :=
  retryWith (polAuth p) (polRate p) (polAuthError p) (polTimeout p) (polFactor p)
    fn retries (Z.to_nat (retries + 1)) 0 initialDelay.

(** The time a run spends waiting, in milliseconds. *)
Definition totalWait (tr : list Event) : Z := foldr Z.add 0 (sleeps tr).

(** Two answers of the image model: a text part followed by an image, and a
    text part alone; and a model that fails once before it answers. *)
Definition imageAnswer : Image.Response :=
  {| Image.candidates :=
       Some [ {| Image.content :=
                   Some {| Image.parts :=
                             Some [ {| Image.inlineData := None |};
                                    {| Image.inlineData :=
                                         Some {| Image.data := Some "iVBORw0KGgo="%string |} |} ] |} |} ] |}.

Definition textOnlyAnswer : Image.Response :=
  {| Image.candidates :=
       Some [ {| Image.content :=
                   Some {| Image.parts := Some [ {| Image.inlineData := None |} ] |} |} ] |}.

Definition secondAttempt (answer : Image.Response)
    : string -> AspectRatio -> nat -> Exc Image.Response :=
  fun _ _ k =>
    match k with
    | O => Throw (newError "503 Service Unavailable")
    | _ => Ok answer
    end.

(** An outcome of the image adapter that sets the quota flag: an error
    whose message contains 429; and an outcome that does not. *)
Definition rateLimited (r : Exc string) : Prop :=
  exists e, r = Throw e /\ messageHas429 e = true.

Definition notRateLimited (r : Exc string) : Prop :=
  match r with
  | Ok _ => True
  | Throw e => messageHas429 e = false
  end.

(** The calls of the image adapter that are not made straight after a wait:
    [afterSleep] tells whether the event before the trace was a wait. *)
Fixpoint unpacedFrom (afterSleep : bool) (tr : list Event) : nat :=
  match tr with
  | [] => 0
  | ImageCall _ _ :: rest => (if afterSleep then 0 else 1) + unpacedFrom false rest
  | Sleep _ :: rest => unpacedFrom true rest
  | _ :: rest => unpacedFrom false rest
  end.

Definition unpacedCalls (tr : list Event) : nat := unpacedFrom false tr.




(** ** Byte-level lemmas *)

Lemma Z_of_byte_of_Z (z : Z) : Z_of_byte (byte_of_Z z) = z mod 256.
Proof.
  unfold Z_of_byte, byte_of_Z.
  assert (Hr : 0 <= z mod 256 < 256) by (apply Z.mod_pos_bound; lia).
  destruct (Byte.of_N (Z.to_N (z mod 256))) as [b|] eqn:E; simpl.
  - apply Byte.to_of_N in E. rewrite E. apply Z2N.id. lia.
  - apply Byte.of_N_None_iff in E.
    assert (Z.to_N (z mod 256) < 256)%N by (change 256%N with (Z.to_N 256); apply Z2N.inj_lt; lia).
    lia.
Qed.

Lemma valueLE_bytesLE (n : nat) (v : Z) :
  valueLE (bytesLE n v) = v mod 256 ^ Z.of_nat n.
Proof.
  revert v. induction n as [|n IH]; intros v.
  - simpl. now rewrite Z.mod_1_r.
  - cbn [bytesLE valueLE]. rewrite Z_of_byte_of_Z, IH, Z.shiftr_div_pow2 by lia.
    change (2 ^ 8) with 256.
    replace (256 ^ Z.of_nat (S n)) with (256 * 256 ^ Z.of_nat n)
      by (rewrite Nat2Z.inj_succ, Z.pow_succ_r by lia; reflexivity).
    rewrite Z.rem_mul_r by lia. reflexivity.
Qed.

Lemma valueOf_bytesOf (n : nat) (v : Z) (le : bool) :
  valueOf (bytesOf n v le) le = v mod 256 ^ Z.of_nat n.
Proof.
  unfold valueOf, bytesOf. destruct le.
  - apply valueLE_bytesLE.
  - rewrite rev_involutive. apply valueLE_bytesLE.
Qed.

Lemma createWavHeader_eq (dataLength sampleRate : Z) :
  Wav.createWavHeader dataLength sampleRate = Ok (Wav.headerBytes dataLength sampleRate).
Proof. reflexivity. Qed.

Lemma length_headerBytes (dataLength sampleRate : Z) :
  length (Wav.headerBytes dataLength sampleRate) = 44%nat.
Proof. reflexivity. Qed.

Lemma writeBytes_at (buf pre old post bs : list byte) (off : nat) :
  buf = pre ++ old ++ post -> off = length pre -> length old = length bs ->
  writeBytes buf off bs = Ok (pre ++ bs ++ post).
Proof.
  intros -> -> Hlen. unfold writeBytes.
  rewrite !length_app. case_decide; [|lia].
  f_equal. rewrite <- (Nat.add_0_r (length pre)), list_inserts_app_r.
  now rewrite list_inserts_0_r.
Qed.

Lemma encodeWav_eq (pcmData : list byte) (sampleRate : Z) :
  Wav.encodeWav pcmData sampleRate =
  Ok (Wav.headerBytes (Z.of_nat (length pcmData)) sampleRate ++ pcmData).
Proof.
  unfold Wav.encodeWav. rewrite createWavHeader_eq. cbn [mbind Exc_bind bindE].
  set (hdr := Wav.headerBytes _ _).
  assert (Hh : length hdr = 44%nat) by apply length_headerBytes.
  unfold uint8Set, newBuffer.
  rewrite (writeBytes_at _ [] (replicate (length hdr) x00)
             (replicate (length pcmData) x00) hdr 0).
  - cbn [mbind Exc_bind bindE app].
    rewrite (writeBytes_at _ hdr (replicate (length pcmData) x00) [] pcmData).
    + cbn [mbind Exc_bind bindE]. now rewrite app_nil_r.
    + now rewrite app_nil_r.
    + reflexivity.
    + apply length_replicate.
  - now rewrite replicate_add.
  - reflexivity.
  - apply length_replicate.
Qed.

Lemma getUint32_in (buf : list byte) (off : nat) (le : bool) :
  (off + 4 <= length buf)%nat ->
  getUint32 buf off le = Ok (valueOf (take 4 (drop off buf)) le).
Proof. intros H. unfold getUint32, readBytes. now case_decide. Qed.

Lemma getUint16_in (buf : list byte) (off : nat) (le : bool) :
  (off + 2 <= length buf)%nat ->
  getUint16 buf off le = Ok (valueOf (take 2 (drop off buf)) le).
Proof. intros H. unfold getUint16, readBytes. now case_decide. Qed.

Lemma ToUint32_idem (v : Z) : ToUint32 v mod 256 ^ Z.of_nat 4 = ToUint32 v.
Proof. unfold ToUint32. change (256 ^ Z.of_nat 4) with (2 ^ 32). now rewrite Z.mod_mod. Qed.

Lemma ToUint16_idem (v : Z) : ToUint16 v mod 256 ^ Z.of_nat 2 = ToUint16 v.
Proof. unfold ToUint16. change (256 ^ Z.of_nat 2) with (2 ^ 16). now rewrite Z.mod_mod. Qed.

Lemma header_fields (L R : Z) (pcm : list byte) :
  let out := Wav.headerBytes L R ++ pcm in
  length out = (44 + length pcm)%nat /\
  getUint32 out 4 true = Ok (ToUint32 (36 + L)) /\
  getUint32 out 40 true = Ok (ToUint32 L) /\
  getUint32 out 24 true = Ok (ToUint32 R) /\
  getUint32 out 28 true = Ok (ToUint32 (R * 2)).
Proof.
  intros out.
  assert (Hlen : length out = (44 + length pcm)%nat).
  { unfold out. now rewrite length_app, length_headerBytes. }
  split; [exact Hlen|].
  repeat split; rewrite getUint32_in by lia.
  - change (take 4 (drop 4 out)) with (bytesOf 4 (ToUint32 (36 + L)) true).
    now rewrite valueOf_bytesOf, ToUint32_idem.
  - change (take 4 (drop 40 out)) with (bytesOf 4 (ToUint32 L) true).
    now rewrite valueOf_bytesOf, ToUint32_idem.
  - change (take 4 (drop 24 out)) with (bytesOf 4 (ToUint32 R) true).
    now rewrite valueOf_bytesOf, ToUint32_idem.
  - change (take 4 (drop 28 out)) with (bytesOf 4 (ToUint32 (R * 2)) true).
    now rewrite valueOf_bytesOf, ToUint32_idem.
Qed.

Lemma header_constants (L R : Z) (pcm : list byte) :
  let out := Wav.headerBytes L R ++ pcm in
  (take 4 out = list_byte_of_string "RIFF" /\
   take 4 (drop 8 out) = list_byte_of_string "WAVE" /\
   take 4 (drop 12 out) = list_byte_of_string "fmt " /\
   take 4 (drop 36 out) = list_byte_of_string "data") /\
  (getUint32 out 0 false = Ok 0x52494646 /\
   getUint32 out 8 false = Ok 0x57415645 /\
   getUint32 out 12 false = Ok 0x666d7420 /\
   getUint32 out 36 false = Ok 0x64617461) /\
  (getUint16 out 16 true = Ok 16 /\
   getUint16 out 20 true = Ok 1 /\
   getUint16 out 22 true = Ok 1 /\
   getUint16 out 32 true = Ok 2 /\
   getUint16 out 34 true = Ok 16) /\
  drop 44 out = pcm.
Proof.
  intros out.
  assert (Hlen : length out = (44 + length pcm)%nat).
  { unfold out. now rewrite length_app, length_headerBytes. }
  repeat split; try reflexivity;
    (rewrite getUint32_in by lia) || (rewrite getUint16_in by lia); reflexivity.
Qed.

Lemma encodeWav_layout_mod (pcm : list byte) (R : Z) :
  exists out, Wav.encodeWav pcm R = Ok out /\
    length out = (44 + length pcm)%nat /\
    getUint32 out 4 true = Ok (ToUint32 (36 + Z.of_nat (length pcm))) /\
    getUint32 out 40 true = Ok (ToUint32 (Z.of_nat (length pcm))).
Proof.
  eexists. split; [apply encodeWav_eq|].
  pose proof (header_fields (Z.of_nat (length pcm)) R pcm) as H. cbv zeta in H.
  tauto.
Qed.

(** C1, as amended: for every PCM byte array whose length L satisfies
    36 + L < 2^32 and every sample rate R, the encoder returns 44 + L bytes
    whose chunk-size field is 36 + L and whose data-length field is L, the
    markers in ASCII (big-endian) order, every numeric field little-endian,
    and the L samples right after byte 44. *)
Theorem encodeWav_layout (pcm : list byte) (R : Z) :
  36 + Z.of_nat (length pcm) < 2 ^ 32 ->
  exists out, Wav.encodeWav pcm R = Ok out /\ WavLayout pcm R out.
Proof.
  intros Hfit. eexists. split; [apply encodeWav_eq|].
  pose proof (header_fields (Z.of_nat (length pcm)) R pcm) as (H1 & H2 & H3 & H4 & H5).
  pose proof (header_constants (Z.of_nat (length pcm)) R pcm)
    as ((M1 & M2 & M3 & M4) & (B1 & B2 & B3 & B4) & (N1 & N2 & N3 & N4 & N5) & Hs).
  cbv zeta in *.
  assert (E1 : ToUint32 (36 + Z.of_nat (length pcm)) = 36 + Z.of_nat (length pcm))
    by (unfold ToUint32; apply Z.mod_small; lia).
  assert (E2 : ToUint32 (Z.of_nat (length pcm)) = Z.of_nat (length pcm))
    by (unfold ToUint32; apply Z.mod_small; lia).
  rewrite E1 in H2. rewrite E2 in H3.
  constructor; assumption.
Qed.

Lemma encodeWav_layout_witness :
  exists out, Wav.encodeWav [x01; x02] 24000 = Ok out /\ WavLayout [x01; x02] 24000 out.
Proof. apply (encodeWav_layout [x01; x02] 24000). reflexivity. Defined.

(** C1 as stated fails once 36 + L no longer fits the 32-bit size field:
    for 4294967260 bytes of samples [createWavHeader] leaves 0 in the
    chunk-size field, not 4294967296, and so does the whole container. *)
Lemma encodeWav_chunk_size_wraps :
  let pcm := replicate (Z.to_nat 4294967260) x00 in
  (exists header,
     Wav.createWavHeader (Z.of_nat (length pcm)) 24000 = Ok header /\
     getUint32 header 4 true = Ok 0) /\
  (exists out, Wav.encodeWav pcm 24000 = Ok out /\ getUint32 out 4 true = Ok 0) /\
  ~ (exists out, Wav.encodeWav pcm 24000 = Ok out /\ WavLayout pcm 24000 out).
Proof.
  intros pcm.
  assert (HL : Z.of_nat (length pcm) = 4294967260).
  { unfold pcm. rewrite length_replicate. apply Z2Nat.id. discriminate. }
  destruct (encodeWav_layout_mod pcm 24000) as (out & Hout & _ & Hchunk & _).
  rewrite HL in Hchunk.
  change (ToUint32 (36 + 4294967260)) with 0 in Hchunk.
  repeat apply conj.
  - rewrite HL. eexists. split; [apply createWavHeader_eq|]. vm_compute. reflexivity.
  - exists out. split; assumption.
  - intros (out' & Hout' & Hlay).
    rewrite Hout in Hout'. injection Hout' as <-.
    pose proof (wl_chunk_size _ _ _ Hlay) as Hc.
    rewrite Hchunk, HL in Hc. discriminate Hc.
Qed.

(** ** The retry wrapper *)

(** In [geminiService.ts] a failure that carries a credential signal ends
    the loop at once: one invocation, no wait, the distinguished error. *)
Lemma GeminiService_retry_credential (T : Type) (fn : nat -> Exc T)
    (retries initialDelay : Z) :
  0 <= retries ->
  (forall k, exists e, fn k = Throw e /\ GeminiService.isAuthError e = true) ->
  GeminiService.retry fn retries initialDelay = (Throw GeminiService.apiKeyIssue, [Invoke]).
Proof.
  intros Hr Hfn. unfold GeminiService.retry.
  destruct (Z.to_nat (retries + 1)) as [|n] eqn:En; [lia|].
  destruct (Hfn 0%nat) as (e & He & Hauth).
  cbn [GeminiService.retryFrom]. now rewrite He, Hauth.
Qed.

Example GeminiService_retry_credential_403 :
  GeminiService.retry (T := unit) (fun _ => Throw (newError "403 Forbidden")) 3 3000
  = (Throw GeminiService.apiKeyIssue, [Invoke]).
Proof. reflexivity. Qed.

Lemma invocations_retry_step (a w ms : Z) (tr : list Event) :
  invocations (Invoke :: Warn a w :: Sleep ms :: tr) = S (invocations tr).
Proof. reflexivity. Qed.

(** The two other copies of [retry] treat every failure alike: an operation
    that never succeeds is invoked once per iteration of the loop, and the
    error of the last invocation is rethrown. *)
Lemma Part000_retryFrom_exhausts (T : Type) (fn : nat -> Exc T)
    (retries : Z) (n i : nat) (d : Z) :
  (forall k, exists e, fn k = Throw e) ->
  Z.of_nat i + Z.of_nat n = retries ->
  invocations (snd (Part000.retryFrom fn retries (S n) i d)) = S n /\
  fst (Part000.retryFrom fn retries (S n) i d) = fn (Z.to_nat retries).
Proof.
  intros Hfn. revert i d. induction n as [|n IH]; intros i d Hi.
  - cbn [Part000.retryFrom]. destruct (Hfn i) as (e & He). rewrite He.
    replace (Z.of_nat i =? retries) with true by (symmetry; apply Z.eqb_eq; lia).
    split; [reflexivity|]. cbn [fst]. rewrite <- He. f_equal. lia.
  - remember (S n) as m eqn:Hm. cbn [Part000.retryFrom].
    destruct (Hfn i) as (e & He). rewrite He.
    replace (Z.of_nat i =? retries) with false by (symmetry; apply Z.eqb_neq; lia).
    destruct (IH (S i) (d * 2) ltac:(lia)) as (Hinv & Hres).
    destruct (Part000.retryFrom fn retries m (S i) (d * 2)) as [r tr].
    cbn [fst snd] in *. split; [|exact Hres].
    rewrite invocations_retry_step. now rewrite Hinv.
Qed.

Lemma Part000_retry_exhausts (T : Type) (fn : nat -> Exc T) (retries d : Z) :
  0 <= retries -> (forall k, exists e, fn k = Throw e) ->
  invocations (snd (Part000.retry fn retries d)) = Z.to_nat (retries + 1) /\
  fst (Part000.retry fn retries d) = fn (Z.to_nat retries).
Proof.
  intros Hr Hfn. unfold Part000.retry.
  replace (Z.to_nat (retries + 1)) with (S (Z.to_nat retries)) by lia.
  apply Part000_retryFrom_exhausts; [exact Hfn|lia].
Qed.

(** C4, on the copies of [retry] that have no credential check
    ([src/unnamed/part_000] and the document in [dbService.ts]): an operation
    that always fails with a 403 message is invoked four times, with waits of
    2000, 4000 and 8000 ms, and the raw error comes back. *)
Theorem retry_credential_is_retried :
  let fn : nat -> Exc unit := fun _ => Throw (newError "403 Forbidden") in
  let tr := [Invoke; Warn 1 2000; Sleep 2000; Invoke; Warn 2 4000; Sleep 4000;
             Invoke; Warn 3 8000; Sleep 8000; Invoke] in
  GeminiService.isAuthError (newError "403 Forbidden") = true /\
  Part000.retry fn 3 2000 = (Throw (newError "403 Forbidden"), tr) /\
  DbDoc.retry fn 3 2000 = (Throw (newError "403 Forbidden"), tr) /\
  invocations tr = 4%nat /\ sleeps tr = [2000; 4000; 8000].
Proof. repeat split; reflexivity. Qed.




(** ** Results and traces of composed runs *)

Lemma bind_result {A B} (m : Run A) (k : A -> Run B) :
  fst (m ≫= k) = match fst m with Ok a => fst (k a) | Throw e => Throw e end.
Proof.
  destruct m as [[a|e] tr]; cbn; [|reflexivity]. now destruct (k a).
Qed.

Lemma bind_trace {A B} (m : Run A) (k : A -> Run B) :
  snd (m ≫= k) = snd m ++ match fst m with Ok a => snd (k a) | Throw _ => [] end.
Proof.
  destruct m as [[a|e] tr]; cbn; [|now rewrite app_nil_r]. now destruct (k a).
Qed.

Lemma try_result {A} (m : Run A) (h : JsError -> Run A) :
  fst (tryR m h) = match fst m with Ok a => Ok a | Throw e => fst (h e) end.
Proof. destruct m as [[a|e] tr]; cbn; [reflexivity|]. now destruct (h e). Qed.

Lemma try_trace {A} (m : Run A) (h : JsError -> Run A) :
  snd (tryR m h) = snd m ++ match fst m with Ok _ => [] | Throw e => snd (h e) end.
Proof.
  destruct m as [[a|e] tr]; cbn; [now rewrite app_nil_r|]. now destruct (h e).
Qed.

Lemma progressValues_app (t1 t2 : list Event) :
  progressValues (t1 ++ t2) = progressValues t1 ++ progressValues t2.
Proof. apply omap_app. Qed.

Lemma silent_bind {A B} (m : Run A) (k : A -> Run B) :
  silent m -> (forall a, silent (k a)) -> silent (m ≫= k).
Proof.
  unfold silent. intros Hm Hk. rewrite bind_trace, progressValues_app, Hm.
  destruct (fst m); [apply Hk | reflexivity].
Qed.

Lemma silent_try {A} (m : Run A) (h : JsError -> Run A) :
  silent m -> (forall e, silent (h e)) -> silent (tryR m h).
Proof.
  unfold silent. intros Hm Hh. rewrite try_trace, progressValues_app, Hm.
  destruct (fst m); [reflexivity | apply Hh].
Qed.

Lemma silent_liftE {A} (m : Exc A) : silent (liftE m).
Proof. reflexivity. Qed.

Ltac silent_go :=
  repeat first
    [ reflexivity
    | apply silent_liftE
    | apply silent_bind; [|intros]
    | apply silent_try; [|intros] ].

Lemma GeminiService_retry_silent {T} (fn : nat -> Exc T) (retries d : Z) :
  silent (GeminiService.retry fn retries d).
Proof.
  unfold GeminiService.retry, silent.
  generalize 0%nat as i. revert d.
  induction (Z.to_nat (retries + 1)) as [|n IH]; intros d i; [reflexivity|].
  cbn [GeminiService.retryFrom].
  destruct (fn i); [reflexivity|].
  destruct (GeminiService.isAuthError e); [reflexivity|].
  destruct (Z.of_nat i =? retries); [reflexivity|].
  specialize (IH (d * 2) (S i)).
  destruct (GeminiService.retryFrom fn retries n (S i) (d * 2)). exact IH.
Qed.

Lemma Part000_retry_silent {T} (fn : nat -> Exc T) (retries d : Z) :
  silent (Part000.retry fn retries d).
Proof.
  unfold Part000.retry, silent.
  generalize 0%nat as i. revert d.
  induction (Z.to_nat (retries + 1)) as [|n IH]; intros d i; [reflexivity|].
  cbn [Part000.retryFrom].
  destruct (fn i); [reflexivity|].
  destruct (Z.of_nat i =? retries); [reflexivity|].
  specialize (IH (d * 2) (S i)).
  destruct (Part000.retryFrom fn retries n (S i) (d * 2)). exact IH.
Qed.

Lemma DbDoc_retry_silent {T} (fn : nat -> Exc T) (retries d : Z) :
  silent (DbDoc.retry fn retries d).
Proof.
  unfold DbDoc.retry, silent.
  generalize 0%nat as i. revert d.
  induction (Z.to_nat (retries + 1)) as [|n IH]; intros d i; [reflexivity|].
  cbn [DbDoc.retryFrom].
  destruct (fn i); [reflexivity|].
  destruct (Z.of_nat i =? retries); [reflexivity|].
  specialize (IH (d * 2) (S i)).
  destruct (DbDoc.retryFrom fn retries n (S i) (d * 2)). exact IH.
Qed.

(** ** The audio stage *)

Section AudioStage.

Variable remoteAudio : AudioParams -> nat -> Exc Response.
Variable atob : string -> Exc string.
Variable createObjectURL : Blob -> Exc string.
Variable script : string.
Variable config : StudioConfig.

Lemma GeminiService_audio_result :
  fst (GeminiService.generateStudioAudio remoteAudio atob createObjectURL script config)
  = Ok (fromAttempt (fst (GeminiService.audioAttempt remoteAudio atob createObjectURL script config))).
Proof.
  unfold GeminiService.generateStudioAudio. rewrite bind_result, try_result.
  destruct (fst (GeminiService.audioAttempt _ _ _ _ _)) as [[a|]|e]; reflexivity.
Qed.

Lemma Part000_audio_result :
  fst (Part000.generateStudioAudio remoteAudio atob createObjectURL script config)
  = Ok (fromAttempt (fst (Part000.audioAttempt remoteAudio atob createObjectURL script config))).
Proof.
  unfold Part000.generateStudioAudio. rewrite bind_result, try_result.
  destruct (fst (Part000.audioAttempt _ _ _ _ _)) as [[a|]|e]; reflexivity.
Qed.

Lemma DbDoc_audio_result :
  fst (DbDoc.generateStudioAudio remoteAudio atob createObjectURL script config)
  = Ok (fromAttempt (fst (DbDoc.audioAttempt remoteAudio atob createObjectURL script config))).
Proof.
  unfold DbDoc.generateStudioAudio. rewrite bind_result, try_result.
  destruct (fst (DbDoc.audioAttempt _ _ _ _ _)) as [[a|]|e]; reflexivity.
Qed.

Ltac attempt_fails :=
  repeat first
    [ progress cbn [fst snd liftE retR]
    | rewrite bind_result
    | match goal with
      | H : ?x = _ |- context [?x] => rewrite H
      | |- context [String.eqb ?b ""] => destruct (String.eqb b "")
      end ];
  try reflexivity.

(** C3: in each copy [generateStudioAudio] returns, and never throws; and
    when the retried remote call fails, when the response has no inline
    payload, when [atob] rejects the payload, or (in [part_000]) when the
    gain stage raises on a buffer of odd length, what it returns is the empty
    artifact [{ blob: new Blob(), url: '' }]. *)
Theorem generateStudioAudio_never_throws :
  (exists art,
     fst (GeminiService.generateStudioAudio remoteAudio atob createObjectURL script config)
       = Ok art /\
     let call := GeminiService.retry
                   (remoteAudio (GeminiService.audioParams script config)) 1 5000 in
     (forall e, fst call = Throw e -> art = emptyAudio) /\
     (forall response, fst call = Ok response ->
        firstInlineData response = None -> art = emptyAudio) /\
     (forall response b64 e, fst call = Ok response ->
        firstInlineData response = Some b64 -> atob b64 = Throw e -> art = emptyAudio)) /\
  (exists art,
     fst (Part000.generateStudioAudio remoteAudio atob createObjectURL script config)
       = Ok art /\
     let call := Part000.retry
                   (remoteAudio (Part000.audioParams script config)) 3 2000 in
     (forall e, fst call = Throw e -> art = emptyAudio) /\
     (forall response, fst call = Ok response ->
        firstInlineData response = None -> art = emptyAudio) /\
     (forall response b64 e, fst call = Ok response ->
        firstInlineData response = Some b64 -> atob b64 = Throw e -> art = emptyAudio) /\
     (forall response b64 bin e, fst call = Ok response ->
        firstInlineData response = Some b64 -> atob b64 = Ok bin ->
        Part000.gainStage (list_byte_of_string bin) (Part000.volumeFactor config) = Throw e ->
        art = emptyAudio)) /\
  (exists art,
     fst (DbDoc.generateStudioAudio remoteAudio atob createObjectURL script config)
       = Ok art /\
     let call := DbDoc.retry
                   (remoteAudio (DbDoc.audioParams script config)) 3 2000 in
     (forall e, fst call = Throw e -> art = emptyAudio) /\
     (forall response, fst call = Ok response ->
        firstInlineData response = None -> art = emptyAudio) /\
     (forall response b64 e, fst call = Ok response ->
        firstInlineData response = Some b64 -> atob b64 = Throw e -> art = emptyAudio)).
Proof.
  split; [|split].
  - eexists. split; [apply GeminiService_audio_result|].
    cbv zeta. unfold GeminiService.audioAttempt. repeat split; intros; attempt_fails.
  - eexists. split; [apply Part000_audio_result|].
    cbv zeta. unfold Part000.audioAttempt. repeat split; intros; attempt_fails.
  - eexists. split; [apply DbDoc_audio_result|].
    cbv zeta. unfold DbDoc.audioAttempt. repeat split; intros; attempt_fails.
Qed.

End AudioStage.

(** The three outcomes of the stage of [part_000] on one response: the
    container with the scaled samples; the empty artifact when the decoded
    payload has an odd number of bytes and the factor is not 1.0; the empty
    artifact when the remote call keeps failing. *)
Example Part000_audio_outcomes :
  let atobOf (bs : list byte) : string -> Exc string :=
    fun _ => Ok (string_of_list_byte bs) in
  let url : Blob -> Exc string := fun _ => Ok "blob:audio"%string in
  fst (Part000.generateStudioAudio (fun _ _ => Ok audioResponse)
         (atobOf [x10; x27; xe0; xb1]) url "Hello." loudConfig)
  = Ok {| blob := {| blobParts := Wav.headerBytes 4 24000 ++ [x20; x4e; x00; x80];
                     blobType := "audio/wav" |};
          url := "blob:audio" |} /\
  fst (Part000.generateStudioAudio (fun _ _ => Ok audioResponse)
         (atobOf [x10; x27; xe0]) url "Hello." loudConfig)
  = Ok emptyAudio /\
  Part000.generateStudioAudio (fun _ _ => Throw (newError "offline"))
    (atobOf [x10; x27]) url "Hello." loudConfig
  = (Ok emptyAudio,
     [Invoke; Warn 1 2000; Sleep 2000; Invoke; Warn 2 4000; Sleep 4000;
      Invoke; Warn 3 8000; Sleep 8000; Invoke; ConsoleError]).
Proof. repeat apply conj; vm_compute; reflexivity. Qed.

(** ** Progress reports *)

Ltac forall_table := repeat (apply Forall_cons_2; [lia|]); apply Forall_nil_2.
Ltac sorted_table :=
  repeat (apply SSorted_cons; [|forall_table]); apply SSorted_nil.

Lemma wellFormedProgress_prefix (pv table : list Z) :
  pv `prefix_of` table -> wellFormedProgress table -> wellFormedProgress pv.
Proof.
  intros [k ->] [Hs Hb]. split.
  - now apply StronglySorted_app_1_l in Hs.
  - now apply Forall_app in Hb.
Qed.

Lemma StronglySorted_map_seq (f : nat -> Z) (i n : nat) :
  (forall a b, (a <= b)%nat -> f a <= f b) ->
  StronglySorted Z.le (map f (seq i n)).
Proof.
  intros Hmono. revert i. induction n as [|n IH]; intros i; cbn; constructor.
  - apply IH.
  - apply Forall_forall. intros x Hx.
    apply list_elem_of_In, in_map_iff in Hx as (j & <- & Hj).
    apply in_seq in Hj. apply Hmono. lia.
Qed.

Lemma stage_table_wf (f : nat -> Z) (n : nat) (lo : Z) (tail : list Z) :
  (forall a b, (a <= b)%nat -> f a <= f b) ->
  (forall a, 20 <= f a <= lo) -> lo <= 100 ->
  StronglySorted Z.le tail -> Forall (fun p => lo <= p <= 100) tail ->
  wellFormedProgress ([5; 20] ++ map f (seq 0 n) ++ tail).
Proof.
  intros Hmono Hrange Hhi Htail Hbound.
  assert (Hin : forall x, x ∈ map f (seq 0 n) -> 20 <= x <= lo).
  { intros x Hx. apply list_elem_of_In, in_map_iff in Hx as (j & <- & _). apply Hrange. }
  assert (Hlo : 20 <= lo) by (specialize (Hrange 0%nat); lia).
  rewrite Forall_forall in Hbound.
  split.
  - apply StronglySorted_app_2.
    + intros x1 x2 H1 H2.
      assert (x1 <= 20).
      { apply elem_of_cons in H1 as [->|H1]; [lia|].
        apply elem_of_cons in H1 as [->|H1]; [lia|].
        now apply elem_of_nil in H1. }
      apply elem_of_app in H2 as [H2|H2].
      * specialize (Hin _ H2). lia.
      * specialize (Hbound _ H2). cbn in Hbound. lia.
    + sorted_table.
    + apply StronglySorted_app_2; [|now apply StronglySorted_map_seq|exact Htail].
      intros x1 x2 H1 H2. specialize (Hin _ H1). specialize (Hbound _ H2).
      cbn in Hbound. lia.
  - apply Forall_app. split; [forall_table|].
    apply Forall_app. split; apply Forall_forall; intros x Hx.
    + specialize (Hin _ Hx). specialize (Hrange 0%nat). lia.
    + specialize (Hbound _ Hx). cbn in Hbound. lia.
Qed.

Lemma GeminiService_stages_wf : wellFormedProgress GeminiService_stages.
Proof. split; [sorted_table|forall_table]. Qed.

Lemma Part000_stages_wf (n : nat) : wellFormedProgress (Part000_stages n).
Proof.
  apply (stage_table_wf _ n 85).
  - intros a b Hab. lia.
  - intros a. lia.
  - lia.
  - sorted_table.
  - forall_table.
Qed.

Lemma DbDoc_stages_wf (n : nat) : wellFormedProgress (DbDoc_stages n).
Proof.
  apply (stage_table_wf _ n 80).
  - intros a b Hab. lia.
  - intros a. lia.
  - lia.
  - sorted_table.
  - forall_table.
Qed.

Section GeminiProgress.

Variable apiKey : option string.
Variable remoteText : string -> nat -> Exc Response.
Variable JSON_parse : string -> Exc Data.
Variable generateStudioImage : nat -> string -> AspectRatio -> Exc string.
Variable remoteAudio : AudioParams -> nat -> Exc Response.
Variable atob : string -> Exc string.
Variable createObjectURL : Blob -> Exc string.
Variable onProgress : bool.

Lemma GeminiService_progress_ok (p : Z) :
  fst (GeminiService.progress onProgress p) = Ok tt.
Proof. unfold GeminiService.progress. now destruct onProgress. Qed.

Lemma GeminiService_progress_trace (p : Z) :
  progressValues (snd (GeminiService.progress onProgress p))
  = if onProgress then [p] else [].
Proof. unfold GeminiService.progress. now destruct onProgress. Qed.

Lemma GeminiService_imageStep_ok data config i st :
  exists st', fst (GeminiService.imageStep generateStudioImage data config i st) = Ok st'.
Proof.
  unfold GeminiService.imageStep. destruct (GeminiService.isQuotaExhausted st).
  - eexists. reflexivity.
  - rewrite try_result, !bind_result. cbn [emit fst liftE].
    destruct (generateStudioImage _ _ _); eexists; reflexivity.
Qed.

Lemma GeminiService_imageStep_silent data config i st :
  silent (GeminiService.imageStep generateStudioImage data config i st).
Proof.
  unfold GeminiService.imageStep. destruct (GeminiService.isQuotaExhausted st); silent_go.
Qed.

Lemma GeminiService_imageLoop_ok data config n i st :
  exists st', fst (GeminiService.imageLoop generateStudioImage onProgress data config n i st)
              = Ok st'.
Proof.
  revert i st. induction n as [|n IH]; intros i st; cbn [GeminiService.imageLoop].
  - eexists. reflexivity.
  - destruct (GeminiService_imageStep_ok data config i st) as (st' & Hst).
    rewrite bind_result, Hst, bind_result, GeminiService_progress_ok. apply IH.
Qed.

Lemma GeminiService_imageLoop_progress data config n i st :
  progressValues
    (snd (GeminiService.imageLoop generateStudioImage onProgress data config n i st))
  = if onProgress
    then map (fun j => 25 + (Z.of_nat j + 1) * 15) (seq i n)
    else [].
Proof.
  revert i st. induction n as [|n IH]; intros i st; cbn [GeminiService.imageLoop].
  - now destruct onProgress.
  - destruct (GeminiService_imageStep_ok data config i st) as (st' & Hst).
    rewrite bind_trace, Hst, progressValues_app, GeminiService_imageStep_silent.
    rewrite bind_trace, GeminiService_progress_ok, progressValues_app.
    rewrite GeminiService_progress_trace, IH.
    now destruct onProgress.
Qed.

Lemma GeminiService_thumbnail_ok prompt data config st :
  exists t, fst (GeminiService.thumbnailStage generateStudioImage prompt data config st) = Ok t.
Proof.
  unfold GeminiService.thumbnailStage.
  rewrite try_result, !bind_result. cbn [emit fst liftE].
  destruct (generateStudioImage _ _ _); eexists; reflexivity.
Qed.

Lemma GeminiService_thumbnail_silent prompt data config st :
  silent (GeminiService.thumbnailStage generateStudioImage prompt data config st).
Proof.
  unfold GeminiService.thumbnailStage. silent_go.
Qed.

Lemma GeminiService_audio_silent script config :
  silent (GeminiService.generateStudioAudio remoteAudio atob createObjectURL script config).
Proof.
  unfold GeminiService.generateStudioAudio.
  apply silent_bind; [|intros; reflexivity].
  apply silent_try; [|intros; silent_go].
  unfold GeminiService.audioAttempt.
  apply silent_bind; [apply GeminiService_retry_silent|intros response].
  destruct (firstInlineData response) as [b64|]; [|reflexivity].
  destruct (String.eqb b64 ""); silent_go.
Qed.

Lemma GeminiService_progress_prefix prompt config :
  progressValues
    (snd (GeminiService.generateContent apiKey remoteText JSON_parse generateStudioImage
            remoteAudio atob createObjectURL onProgress prompt config))
  `prefix_of` (if onProgress then GeminiService_stages else []).
Proof.
  unfold GeminiService.generateContent.
  destruct (GeminiService.keyMissing apiKey); [apply prefix_nil|].
  rewrite bind_trace, GeminiService_progress_ok, progressValues_app, GeminiService_progress_trace.
  rewrite bind_trace, progressValues_app, GeminiService_retry_silent.
  destruct (fst (GeminiService.retry _ _ _)) as [response|e].
  2:{ destruct onProgress; [now exists [25; 40; 55; 70; 85; 90; 100]|apply prefix_nil]. }
  rewrite bind_trace, GeminiService_progress_ok, progressValues_app, GeminiService_progress_trace.
  rewrite bind_trace, progressValues_app, silent_liftE.
  cbn [liftE fst].
  destruct (JSON_parse _) as [data|e].
  2:{ destruct onProgress; [now exists [40; 55; 70; 85; 90; 100]|apply prefix_nil]. }
  destruct (GeminiService_imageLoop_ok data config 4 0
              {| GeminiService.loopImages := []; GeminiService.isQuotaExhausted := false;
                 GeminiService.adapterCalls := 0 |}) as (st & Hst).
  rewrite bind_trace, Hst, progressValues_app, GeminiService_imageLoop_progress.
  destruct (GeminiService_thumbnail_ok prompt data config st) as (t & Ht).
  rewrite bind_trace, Ht, progressValues_app, GeminiService_thumbnail_silent.
  rewrite bind_trace, GeminiService_progress_ok, progressValues_app, GeminiService_progress_trace.
  rewrite bind_trace, progressValues_app, GeminiService_audio_silent.
  rewrite GeminiService_audio_result.
  rewrite bind_trace, GeminiService_progress_ok, progressValues_app, GeminiService_progress_trace.
  destruct onProgress; reflexivity.
Qed.

End GeminiProgress.

Section Part000Progress.

Variable remoteText : string -> nat -> Exc Response.
Variable JSON_parse : string -> Exc Data.
Variable generateStudioImage : nat -> string -> AspectRatio -> Exc string.
Variable remoteAudio : AudioParams -> nat -> Exc Response.
Variable atob : string -> Exc string.
Variable createObjectURL : Blob -> Exc string.
Variable random : nat -> string.
Variable onProgress : bool.

Lemma Part000_progress_ok (p : Z) : fst (Part000.progress onProgress p) = Ok tt.
Proof. unfold Part000.progress. now destruct onProgress. Qed.

Lemma Part000_progress_trace (p : Z) :
  progressValues (snd (Part000.progress onProgress p)) = if onProgress then [p] else [].
Proof. unfold Part000.progress. now destruct onProgress. Qed.

Lemma Part000_imageStep_ok prompts config i st :
  exists st',
    fst (Part000.imageStep generateStudioImage random prompts config i st) = Ok st' /\
    Part000.currentProgress st' = Part000.currentProgress st.
Proof.
  unfold Part000.imageStep. destruct (Part000.isQuotaExhausted st).
  - eexists. split; reflexivity.
  - rewrite try_result, !bind_result.
    destruct (0 <? i)%nat; cbn [emit retR fst liftE];
      destruct (generateStudioImage _ _ _); eexists; split; reflexivity.
Qed.

Lemma Part000_imageStep_silent prompts config i st :
  silent (Part000.imageStep generateStudioImage random prompts config i st).
Proof.
  unfold Part000.imageStep. destruct (Part000.isQuotaExhausted st); [reflexivity|].
  destruct (0 <? i)%nat; silent_go.
Qed.

Lemma Part000_imageLoop_ok prompts config n i st :
  exists st',
    fst (Part000.imageLoop generateStudioImage random onProgress prompts config n i st)
    = Ok st'.
Proof.
  revert i st. induction n as [|n IH]; intros i st; cbn [Part000.imageLoop].
  - eexists. reflexivity.
  - destruct (Part000_imageStep_ok prompts config i st) as (st' & Hst & _).
    rewrite bind_result, Hst, bind_result, Part000_progress_ok. apply IH.
Qed.

Lemma Part000_imageLoop_progress prompts config n i st :
  Part000.currentProgress st = 20 + 12 * Z.of_nat i ->
  progressValues
    (snd (Part000.imageLoop generateStudioImage random onProgress prompts config n i st))
  = if onProgress
    then map (fun j => Z.min (20 + 12 * (Z.of_nat j + 1)) 85) (seq i n)
    else [].
Proof.
  revert i st. induction n as [|n IH]; intros i st Hcp; cbn [Part000.imageLoop].
  - now destruct onProgress.
  - destruct (Part000_imageStep_ok prompts config i st) as (st' & Hst & Hcp').
    rewrite bind_trace, Hst, progressValues_app, Part000_imageStep_silent.
    rewrite bind_trace, Part000_progress_ok, progressValues_app.
    rewrite Part000_progress_trace, IH by (cbn; lia).
    cbn [Part000.currentProgress]. rewrite Hcp', Hcp.
    destruct onProgress; [|reflexivity].
    cbn [seq map app]. do 2 f_equal. lia.
Qed.

Lemma Part000_thumbnail_ok data config st :
  exists t, fst (Part000.thumbnailStage generateStudioImage random data config st) = Ok t.
Proof.
  unfold Part000.thumbnailStage. destruct (Part000.isQuotaExhausted st).
  - eexists. reflexivity.
  - rewrite try_result, !bind_result. cbn [emit fst liftE].
    destruct (generateStudioImage _ _ _); eexists; reflexivity.
Qed.

Lemma Part000_thumbnail_silent data config st :
  silent (Part000.thumbnailStage generateStudioImage random data config st).
Proof.
  unfold Part000.thumbnailStage. destruct (Part000.isQuotaExhausted st); silent_go.
Qed.

Lemma Part000_audio_silent script config :
  silent (Part000.generateStudioAudio remoteAudio atob createObjectURL script config).
Proof.
  unfold Part000.generateStudioAudio.
  apply silent_bind; [|intros; reflexivity].
  apply silent_try; [|intros; silent_go].
  unfold Part000.audioAttempt.
  apply silent_bind; [apply Part000_retry_silent|intros response].
  destruct (firstInlineData response) as [b64|]; [|reflexivity].
  destruct (String.eqb b64 ""); silent_go.
Qed.

Lemma Part000_progress_prefix prompt config :
  exists n,
    progressValues
      (snd (Part000.generateContent remoteText JSON_parse generateStudioImage
              remoteAudio atob createObjectURL random onProgress prompt config))
    `prefix_of` (if onProgress then Part000_stages n else []).
Proof.
  unfold Part000.generateContent.
  rewrite bind_trace, Part000_progress_ok, progressValues_app, Part000_progress_trace.
  rewrite bind_trace, progressValues_app, Part000_retry_silent.
  destruct (fst (Part000.retry _ _ _)) as [response|e].
  2:{ exists 0%nat. destruct onProgress; [now exists [20; 90; 100]|apply prefix_nil]. }
  rewrite bind_trace, Part000_progress_ok, progressValues_app, Part000_progress_trace.
  rewrite bind_trace, progressValues_app, silent_liftE.
  cbn [liftE fst].
  destruct (JSON_parse _) as [data|e].
  2:{ exists 0%nat. destruct onProgress; [now exists [90; 100]|apply prefix_nil]. }
  exists (length (default [] (imagePrompts data))).
  cbv zeta.
  set (prompts := default [] (imagePrompts data)).
  destruct (Part000_imageLoop_ok prompts config (length prompts) 0
              {| Part000.loopImages := []; Part000.isQuotaExhausted := false;
                 Part000.currentProgress := 20; Part000.adapterCalls := 0;
                 Part000.randomCalls := 0 |}) as (st & Hst).
  rewrite bind_trace, Hst, progressValues_app, Part000_imageLoop_progress by reflexivity.
  destruct (Part000_thumbnail_ok data config st) as (t & Ht).
  rewrite bind_trace, Ht, progressValues_app, Part000_thumbnail_silent.
  rewrite bind_trace, Part000_progress_ok, progressValues_app, Part000_progress_trace.
  rewrite bind_trace, progressValues_app, Part000_audio_silent.
  rewrite Part000_audio_result.
  rewrite bind_trace, Part000_progress_ok, progressValues_app, Part000_progress_trace.
  destruct onProgress; reflexivity.
Qed.

End Part000Progress.

Section DbDocProgress.

Variable remoteText : string -> string -> nat -> Exc Response.
Variable JSON_parse : string -> Exc Data.
Variable generateStudioImage : nat -> string -> AspectRatio -> Exc string.
Variable remoteAudio : AudioParams -> nat -> Exc Response.
Variable atob : string -> Exc string.
Variable createObjectURL : Blob -> Exc string.
Variable onProgress : bool.

Lemma DbDoc_progress_ok (p : Z) : fst (DbDoc.progress onProgress p) = Ok tt.
Proof. unfold DbDoc.progress. now destruct onProgress. Qed.

Lemma DbDoc_progress_trace (p : Z) :
  progressValues (snd (DbDoc.progress onProgress p)) = if onProgress then [p] else [].
Proof. unfold DbDoc.progress. now destruct onProgress. Qed.

Lemma DbDoc_imageStep_ok prompts config i st :
  exists st', fst (DbDoc.imageStep generateStudioImage prompts config i st) = Ok st'.
Proof.
  unfold DbDoc.imageStep. destruct (DbDoc.isQuotaExhausted st).
  - eexists. reflexivity.
  - rewrite try_result, !bind_result.
    destruct (0 <? i)%nat; cbn [emit retR fst liftE];
      destruct (generateStudioImage _ _ _); eexists; reflexivity.
Qed.

Lemma DbDoc_imageStep_silent prompts config i st :
  silent (DbDoc.imageStep generateStudioImage prompts config i st).
Proof.
  unfold DbDoc.imageStep. destruct (DbDoc.isQuotaExhausted st); [reflexivity|].
  destruct (0 <? i)%nat; silent_go.
Qed.

Lemma DbDoc_imageLoop_ok prompts config n i st :
  exists st',
    fst (DbDoc.imageLoop generateStudioImage onProgress prompts config n i st) = Ok st'.
Proof.
  revert i st. induction n as [|n IH]; intros i st; cbn [DbDoc.imageLoop].
  - eexists. reflexivity.
  - destruct (DbDoc_imageStep_ok prompts config i st) as (st' & Hst).
    rewrite bind_result, Hst, bind_result, DbDoc_progress_ok. apply IH.
Qed.

Lemma DbDoc_imageLoop_progress prompts config n i st :
  progressValues
    (snd (DbDoc.imageLoop generateStudioImage onProgress prompts config n i st))
  = if onProgress
    then map (fun j => Z.min (20 + (Z.of_nat j + 1) * 15) 80) (seq i n)
    else [].
Proof.
  revert i st. induction n as [|n IH]; intros i st; cbn [DbDoc.imageLoop].
  - now destruct onProgress.
  - destruct (DbDoc_imageStep_ok prompts config i st) as (st' & Hst).
    rewrite bind_trace, Hst, progressValues_app, DbDoc_imageStep_silent.
    rewrite bind_trace, DbDoc_progress_ok, progressValues_app.
    rewrite DbDoc_progress_trace, IH.
    now destruct onProgress.
Qed.

Lemma DbDoc_thumbnail_ok prompt data config st :
  exists t, fst (DbDoc.thumbnailStage generateStudioImage prompt data config st) = Ok t.
Proof.
  unfold DbDoc.thumbnailStage.
  rewrite try_result, !bind_result. cbn [emit fst liftE].
  destruct (generateStudioImage _ _ _); eexists; reflexivity.
Qed.

Lemma DbDoc_thumbnail_silent prompt data config st :
  silent (DbDoc.thumbnailStage generateStudioImage prompt data config st).
Proof.
  unfold DbDoc.thumbnailStage. silent_go.
Qed.

Lemma DbDoc_audio_silent script config :
  silent (DbDoc.generateStudioAudio remoteAudio atob createObjectURL script config).
Proof.
  unfold DbDoc.generateStudioAudio.
  apply silent_bind; [|intros; reflexivity].
  apply silent_try; [|intros; silent_go].
  unfold DbDoc.audioAttempt.
  apply silent_bind; [apply DbDoc_retry_silent|intros response].
  destruct (firstInlineData response) as [b64|]; [|reflexivity].
  destruct (String.eqb b64 ""); silent_go.
Qed.

Lemma DbDoc_progress_prefix prompt config :
  exists n,
    progressValues
      (snd (DbDoc.generateContent remoteText JSON_parse generateStudioImage
              remoteAudio atob createObjectURL onProgress prompt config))
    `prefix_of` (if onProgress then DbDoc_stages n else []).
Proof.
  unfold DbDoc.generateContent.
  rewrite bind_trace, DbDoc_progress_ok, progressValues_app, DbDoc_progress_trace.
  rewrite bind_trace, progressValues_app, DbDoc_retry_silent.
  destruct (fst (DbDoc.retry _ _ _)) as [response|e].
  2:{ exists 0%nat. destruct onProgress; [now exists [20; 100]|apply prefix_nil]. }
  rewrite bind_trace, DbDoc_progress_ok, progressValues_app, DbDoc_progress_trace.
  rewrite bind_trace, progressValues_app, silent_liftE.
  cbn [liftE fst].
  destruct (JSON_parse _) as [data|e].
  2:{ exists 0%nat. destruct onProgress; [now exists [100]|apply prefix_nil]. }
  exists (length (default [] (imagePrompts data))).
  cbv zeta.
  set (prompts := default [] (imagePrompts data)).
  destruct (DbDoc_imageLoop_ok prompts config (length prompts) 0
              {| DbDoc.loopImages := []; DbDoc.isQuotaExhausted := false;
                 DbDoc.adapterCalls := 0 |}) as (st & Hst).
  rewrite bind_trace, Hst, progressValues_app, DbDoc_imageLoop_progress.
  destruct (DbDoc_thumbnail_ok prompt data config st) as (t & Ht).
  rewrite bind_trace, Ht, progressValues_app, DbDoc_thumbnail_silent.
  rewrite bind_trace, progressValues_app, DbDoc_audio_silent.
  rewrite DbDoc_audio_result.
  rewrite bind_trace, DbDoc_progress_ok, progressValues_app, DbDoc_progress_trace.
  destruct onProgress; reflexivity.
Qed.

End DbDocProgress.

(** C9: in each copy of [generateContent], whatever the collaborators do,
    the percentages handed to the progress callback never decrease and lie
    within 0..100; they are an initial part of the copy's table of stage
    reports (all of it when the run completes), and there is none when no
    callback was passed. *)
Theorem progress_monotone_bounded
    (apiKey : option string)
    (remoteText : string -> nat -> Exc Response)
    (remoteTextSys : string -> string -> nat -> Exc Response)
    (JSON_parse : string -> Exc Data)
    (generateStudioImage : nat -> string -> AspectRatio -> Exc string)
    (remoteAudio : AudioParams -> nat -> Exc Response)
    (atob : string -> Exc string)
    (createObjectURL : Blob -> Exc string)
    (random : nat -> string)
    (onProgress : bool) (prompt : string) (config : StudioConfig) :
  let pvG := progressValues (snd (GeminiService.generateContent apiKey remoteText
               JSON_parse generateStudioImage remoteAudio atob createObjectURL
               onProgress prompt config)) in
  let pvP := progressValues (snd (Part000.generateContent remoteText
               JSON_parse generateStudioImage remoteAudio atob createObjectURL
               random onProgress prompt config)) in
  let pvD := progressValues (snd (DbDoc.generateContent remoteTextSys
               JSON_parse generateStudioImage remoteAudio atob createObjectURL
               onProgress prompt config)) in
  (wellFormedProgress pvG /\ pvG `prefix_of` GeminiService_stages /\
   (onProgress = false -> pvG = [])) /\
  (wellFormedProgress pvP /\ (exists n, pvP `prefix_of` Part000_stages n) /\
   (onProgress = false -> pvP = [])) /\
  (wellFormedProgress pvD /\ (exists n, pvD `prefix_of` DbDoc_stages n) /\
   (onProgress = false -> pvD = [])).
Proof.
  intros pvG pvP pvD.
  pose proof (GeminiService_progress_prefix apiKey remoteText JSON_parse
                generateStudioImage remoteAudio atob createObjectURL onProgress
                prompt config) as HG.
  destruct (Part000_progress_prefix remoteText JSON_parse generateStudioImage
              remoteAudio atob createObjectURL random onProgress prompt config)
    as (nP & HP).
  destruct (DbDoc_progress_prefix remoteTextSys JSON_parse generateStudioImage
              remoteAudio atob createObjectURL onProgress prompt config)
    as (nD & HD).
  fold pvG in HG. fold pvP in HP. fold pvD in HD.
  assert (HG' : pvG `prefix_of` GeminiService_stages).
  { destruct onProgress; [exact HG|]. apply prefix_nil_inv in HG. rewrite HG. apply prefix_nil. }
  assert (HP' : pvP `prefix_of` Part000_stages nP).
  { destruct onProgress; [exact HP|]. apply prefix_nil_inv in HP. rewrite HP. apply prefix_nil. }
  assert (HD' : pvD `prefix_of` DbDoc_stages nD).
  { destruct onProgress; [exact HD|]. apply prefix_nil_inv in HD. rewrite HD. apply prefix_nil. }
  repeat split.
  - exact (proj1 (wellFormedProgress_prefix _ _ HG' GeminiService_stages_wf)).
  - exact (proj2 (wellFormedProgress_prefix _ _ HG' GeminiService_stages_wf)).
  - exact HG'.
  - intros ->. now apply prefix_nil_inv in HG.
  - exact (proj1 (wellFormedProgress_prefix _ _ HP' (Part000_stages_wf nP))).
  - exact (proj2 (wellFormedProgress_prefix _ _ HP' (Part000_stages_wf nP))).
  - now exists nP.
  - intros ->. now apply prefix_nil_inv in HP.
  - exact (proj1 (wellFormedProgress_prefix _ _ HD' (DbDoc_stages_wf nD))).
  - exact (proj2 (wellFormedProgress_prefix _ _ HD' (DbDoc_stages_wf nD))).
  - now exists nD.
  - intros ->. now apply prefix_nil_inv in HD.
Qed.

(** ** Only the text stage can abort a run

    Once the text call and the parse have succeeded, each copy of
    [generateContent] returns a result, whatever the image adapter and the
    audio collaborators do. *)




(** ** The quota flag *)

Lemma only_bind {A B} (P : Event -> Prop) (m : Run A) (k : A -> Run B) :
  only P m -> (forall a, only P (k a)) -> only P (m ≫= k).
Proof.
  unfold only. intros Hm Hk. rewrite bind_trace. apply Forall_app. split; [exact Hm|].
  destruct (fst m); [apply Hk | constructor].
Qed.

Lemma only_try {A} (P : Event -> Prop) (m : Run A) (h : JsError -> Run A) :
  only P m -> (forall e, only P (h e)) -> only P (tryR m h).
Proof.
  unfold only. intros Hm Hh. rewrite try_trace. apply Forall_app. split; [exact Hm|].
  destruct (fst m); [constructor | apply Hh].
Qed.

Lemma only_nil {A} (P : Event -> Prop) (r : Exc A) : only P (r, []).
Proof. constructor. Qed.

Lemma filter_imageCall_background (tr : list Event) :
  Forall backgroundEvent tr -> filter isImageCall tr = [].
Proof.
  induction 1 as [|e tr He _ IH]; [reflexivity|].
  rewrite filter_cons. destruct e; cbn in *; try exact IH; contradiction.
Qed.

Lemma filter_imageCall_progress (onProgress : bool) (p : Z) :
  filter isImageCall (snd (if onProgress then emit (Progress p) else retR tt)) = [].
Proof. now destruct onProgress. Qed.

Lemma Part000_retry_background {T} (fn : nat -> Exc T) (retries d : Z) :
  only backgroundEvent (Part000.retry fn retries d).
Proof.
  unfold Part000.retry, only.
  generalize 0%nat as i. revert d.
  induction (Z.to_nat (retries + 1)) as [|n IH]; intros d i; [constructor|].
  cbn [Part000.retryFrom].
  destruct (fn i); [repeat constructor|].
  destruct (Z.of_nat i =? retries); [repeat constructor|].
  specialize (IH (d * 2) (S i)).
  destruct (Part000.retryFrom fn retries n (S i) (d * 2)). cbn in *.
  repeat (constructor; [exact I|]). exact IH.
Qed.

Lemma Part000_audio_background remoteAudio atob createObjectURL script config :
  only backgroundEvent
    (Part000.generateStudioAudio remoteAudio atob createObjectURL script config).
Proof.
  unfold Part000.generateStudioAudio.
  apply only_bind; [|intros; apply only_nil].
  apply only_try.
  - unfold Part000.audioAttempt.
    apply only_bind; [apply Part000_retry_background|intros response].
    destruct (firstInlineData response) as [b64|]; [|apply only_nil].
    destruct (String.eqb b64 ""); [apply only_nil|].
    repeat (apply only_bind; [apply only_nil|intros]). apply only_nil.
  - intros e. apply only_bind; [repeat constructor|intros; apply only_nil].
Qed.

Section Part000Quota.

Variable remoteText : string -> nat -> Exc Response.
Variable JSON_parse : string -> Exc Data.
Variable generateStudioImage : nat -> string -> AspectRatio -> Exc string.
Variable remoteAudio : AudioParams -> nat -> Exc Response.
Variable atob : string -> Exc string.
Variable createObjectURL : Blob -> Exc string.
Variable random : nat -> string.
Variable onProgress : bool.
Variable config : StudioConfig.

(** The image loop of [part_000] on four prompts, when the second call of
    the adapter fails with a 429 message and the first does not: two calls
    of the adapter, the flag set, and placeholders from the second image on. *)
Lemma Part000_imageLoop_quota (p0 p1 p2 p3 : string) (e1 : JsError) :
  match generateStudioImage 0%nat p0 (aspectRatio config) with
  | Ok _ => True
  | Throw e0 => messageHas429 e0 = false
  end ->
  generateStudioImage 1%nat p1 (aspectRatio config) = Throw e1 ->
  messageHas429 e1 = true ->
  exists st tr first k,
    Part000.imageLoop generateStudioImage random onProgress [p0; p1; p2; p3] config 4 0
      {| Part000.loopImages := []; Part000.isQuotaExhausted := false;
         Part000.currentProgress := 20; Part000.adapterCalls := 0;
         Part000.randomCalls := 0 |}
    = (Ok st, tr) /\
    Part000.isQuotaExhausted st = true /\
    Part000.loopImages st
    = [first; Part000.errImage 1 (random k) config;
       Part000.fallbackImage 2 (random (S k)) config;
       Part000.fallbackImage 3 (random (S (S k))) config] /\
    Part000.randomCalls st = S (S (S k)) /\
    filter isImageCall tr
    = [ImageCall p0 (aspectRatio config); ImageCall p1 (aspectRatio config)].
Proof.
  intros H0 H1 H429.
  destruct onProgress; cbn;
    destruct (generateStudioImage 0%nat p0 (aspectRatio config)) as [i0|e0];
    repeat first [rewrite H0 | rewrite H1 | rewrite H429 | progress cbn];
    do 4 eexists; repeat split; reflexivity.
Qed.

(** On [part_000] the scenario of C2 goes as the specification says: images
    2, 3 and 4 and the thumbnail are placeholders, and the adapter is called
    twice in the whole run, the second call being the one that failed. *)
Lemma Part000_quota_gate (prompt : string) (response : Response) (data : Data)
    (p0 p1 p2 p3 : string) (e1 : JsError) :
  fst (Part000.retry (remoteText (Part000.textContents prompt config)) 3 2000)
    = Ok response ->
  JSON_parse (orElse (text response) "{}") = Ok data ->
  imagePrompts data = Some [p0; p1; p2; p3] ->
  match generateStudioImage 0%nat p0 (aspectRatio config) with
  | Ok _ => True
  | Throw e0 => messageHas429 e0 = false
  end ->
  generateStudioImage 1%nat p1 (aspectRatio config) = Throw e1 ->
  messageHas429 e1 = true ->
  exists r first k,
    fst (Part000.generateContent remoteText JSON_parse generateStudioImage remoteAudio
           atob createObjectURL random onProgress prompt config) = Ok r /\
    images r = [first; Part000.errImage 1 (random k) config;
                Part000.fallbackImage 2 (random (S k)) config;
                Part000.fallbackImage 3 (random (S (S k))) config] /\
    thumbnail r = Part000.thumbFallback (random (S (S (S k)))) config /\
    filter isImageCall
      (snd (Part000.generateContent remoteText JSON_parse generateStudioImage remoteAudio
              atob createObjectURL random onProgress prompt config))
    = [ImageCall p0 (aspectRatio config); ImageCall p1 (aspectRatio config)].
Proof.
  intros Htext Hparse Hprompts H0 H1 H429.
  destruct (Part000_imageLoop_quota p0 p1 p2 p3 e1 H0 H1 H429)
    as (st & tr & first & k & Hloop & Hflag & Himgs & Hrnd & Hcalls).
  assert (Hthumb : Part000.thumbnailStage generateStudioImage random data config st
                   = (Ok (Part000.thumbFallback (random (S (S (S k)))) config), [])).
  { unfold Part000.thumbnailStage. now rewrite Hflag, Hrnd. }
  exists {| rData := data; rContentType := contentType config;
            rAspectRatio := aspectRatio config; images := Part000.loopImages st;
            thumbnail := Part000.thumbFallback (random (S (S (S k)))) config;
            audioBlob := blob (fromAttempt (fst (Part000.audioAttempt remoteAudio atob
                                createObjectURL (orElse (script data) "") config)));
            audioUrl := url (fromAttempt (fst (Part000.audioAttempt remoteAudio atob
                                createObjectURL (orElse (script data) "") config))) |},
         first, k.
  unfold Part000.generateContent.
  split; [|split; [exact Himgs|split; [reflexivity|]]].
  - rewrite bind_result, Part000_progress_ok, bind_result, Htext.
    rewrite bind_result, Part000_progress_ok, bind_result. cbn [liftE fst].
    rewrite Hparse, Hprompts. cbn [default from_option id length].
    rewrite bind_result, Hloop. cbn [fst]. rewrite bind_result, Hthumb. cbn [fst].
    rewrite bind_result, Part000_progress_ok, bind_result, Part000_audio_result.
    rewrite bind_result, Part000_progress_ok. reflexivity.
  - rewrite bind_trace, Part000_progress_ok, filter_app, bind_trace, Htext, filter_app.
    rewrite (filter_imageCall_background _ (Part000_retry_background _ _ _)).
    rewrite bind_trace, Part000_progress_ok, filter_app, bind_trace, filter_app.
    cbn [liftE fst snd]. rewrite Hparse, Hprompts. cbn [default from_option id length].
    rewrite bind_trace, Hloop, filter_app. cbn [fst snd].
    rewrite bind_trace, Hthumb, filter_app. cbn [fst snd].
    rewrite bind_trace, Part000_progress_ok, filter_app.
    rewrite bind_trace, Part000_audio_result, filter_app.
    rewrite (filter_imageCall_background _ (Part000_audio_background _ _ _ _ _)).
    rewrite bind_trace, Part000_progress_ok, filter_app.
    unfold Part000.progress. rewrite !filter_imageCall_progress, Hcalls.
    reflexivity.
Qed.

End Part000Quota.

(** In [geminiService.ts] and in the document of [dbService.ts] the
    thumbnail stage does not look at the flag: it waits and calls the adapter
    in every run. *)
Lemma GeminiService_thumbnail_ignores_flag generateStudioImage prompt data config st :
  filter isImageCall
    (snd (GeminiService.thumbnailStage generateStudioImage prompt data config st))
  = [ImageCall (orElse (thumbnailPrompt data) ("Hero shot for " ++ prompt))
       (aspectRatio config)].
Proof.
  unfold GeminiService.thumbnailStage. rewrite try_trace, !bind_trace.
  cbn [emit liftE fst snd]. destruct (generateStudioImage _ _ _); reflexivity.
Qed.

Lemma DbDoc_thumbnail_ignores_flag generateStudioImage prompt data config st :
  filter isImageCall
    (snd (DbDoc.thumbnailStage generateStudioImage prompt data config st))
  = [ImageCall (orElse (thumbnailPrompt data) ("Hero image for " ++ prompt))
       (aspectRatio config)].
Proof.
  unfold DbDoc.thumbnailStage. rewrite try_trace, !bind_trace.
  cbn [emit liftE fst snd]. destruct (generateStudioImage _ _ _); reflexivity.
Qed.

(** C2, on [geminiService.ts] and on the document of [dbService.ts]: when
    the adapter fails with a 429 message on image 2 of 4, images 2, 3 and 4
    are placeholders and images 3 and 4 cost no call, but the thumbnail is
    requested all the same (a third call of the adapter, after a wait), and
    here it comes back as a generated image.  On [part_000] the same
    scenario makes two calls and ends with a placeholder thumbnail. *)
Theorem quota_thumbnail_still_requested :
  (images <$> returned quotaRunGemini
     = Some ["data:image/png;base64,IMG0";
             "https://picsum.photos/seed/err1/720/1280";
             "https://picsum.photos/seed/2/720/1280";
             "https://picsum.photos/seed/3/720/1280"]%string /\
   thumbnail <$> returned quotaRunGemini = Some "data:image/png;base64,IMG2"%string /\
   filter isImageCall (snd quotaRunGemini)
     = [ImageCall "p1" VERTICAL; ImageCall "p2" VERTICAL; ImageCall "hero" VERTICAL] /\
   sleeps (snd quotaRunGemini) = [2500; 2500; 3000; 5000]) /\
  (images <$> returned quotaRunDbDoc
     = Some ["data:image/png;base64,IMG0";
             "https://picsum.photos/seed/err_1/720/1280";
             "https://picsum.photos/seed/fallback_2/720/1280";
             "https://picsum.photos/seed/fallback_3/720/1280"]%string /\
   thumbnail <$> returned quotaRunDbDoc = Some "data:image/png;base64,IMG2"%string /\
   filter isImageCall (snd quotaRunDbDoc)
     = [ImageCall "p1" VERTICAL; ImageCall "p2" VERTICAL; ImageCall "hero" VERTICAL]) /\
  (images <$> returned quotaRunPart000
     = Some ["data:image/png;base64,IMG0";
             "https://picsum.photos/seed/err_1_0.0/720/1280";
             "https://picsum.photos/seed/fallback_2_0.1/720/1280";
             "https://picsum.photos/seed/fallback_3_0.2/720/1280"]%string /\
   thumbnail <$> returned quotaRunPart000
     = Some "https://picsum.photos/seed/thumb_0.3/720/1280"%string /\
   filter isImageCall (snd quotaRunPart000)
     = [ImageCall "p1" VERTICAL; ImageCall "p2" VERTICAL]).
Proof. repeat apply conj; vm_compute; reflexivity. Qed.

(** ** The target word count *)

Lemma specWordCount_closed (config : StudioConfig) :
  specWordCount config
  = match speed config with
    | SLOW => 2 * (60 * durationMinutes config + durationSeconds config)
    | NORMAL => (5 * (60 * durationMinutes config + durationSeconds config) + 1) / 2
    | FAST => 3 * (60 * durationMinutes config + durationSeconds config)
    end.
Proof.
  unfold specWordCount, speedMultiplier, Math_round.
  set (T := 60 * durationMinutes config + durationSeconds config).
  destruct (speed config); unfold Qfloor, Qplus, Qmult, inject_Z; cbn [Qnum Qden Pos.mul].
  - change (Z.pos (1 * 1 * 2)) with 2.
    replace (T * 2 * 2 + 1 * Z.pos (1 * 1)) with (1 + (2 * T) * 2) by lia.
    rewrite Z.div_add by lia. reflexivity.
  - change (Z.pos (1 * 2 * 2)) with (2 * 2).
    replace (T * 5 * 2 + 1 * Z.pos (1 * 2)) with (2 * (5 * T + 1)) by lia.
    apply Z.div_mul_cancel_l; lia.
  - change (Z.pos (1 * 1 * 2)) with 2.
    replace (T * 3 * 2 + 1 * Z.pos (1 * 1)) with (1 + (3 * T) * 2) by lia.
    rewrite Z.div_add by lia. reflexivity.
Qed.

Lemma Math_round_Qeq (x y : Q) : Qeq x y -> Math_round x = Math_round y.
Proof. intros H. unfold Math_round. now rewrite H. Qed.

Lemma source_word_count (T : Z) (s : Speed) :
  let m := (if decide (s = FAST) then 3.0
            else if decide (s = SLOW) then 2.0 else 2.5)%Q in
  Math_round (Qmult (inject_Z T) m) = Math_round (Qmult (inject_Z T) (speedMultiplier s)).
Proof.
  intros m. apply Math_round_Qeq. apply Qmult_comp; [reflexivity|].
  destruct s; reflexivity.
Qed.

Lemma totalSeconds_comm (config : StudioConfig) :
  durationMinutes config * 60 + durationSeconds config
  = 60 * durationMinutes config + durationSeconds config.
Proof. lia. Qed.

(** C7: in the three copies the word count is
    [round(total_seconds × m)] with [total_seconds = 60 × minutes + seconds]
    and [m] = 2.0, 2.5, 3.0 for slow, normal, fast; that is [2 × total],
    [(5 × total + 1) / 2] rounded down, and [3 × total].  It is the number the
    text request states, and 0m30s at normal speed gives 75. *)
Theorem targetWordCount_formula (prompt : string) (config : StudioConfig) :
  let total := 60 * durationMinutes config + durationSeconds config in
  (GeminiService.targetWordCount config = specWordCount config /\
   Part000.targetWordCount config = specWordCount config /\
   DbDoc.targetWordCount config = specWordCount config) /\
  specWordCount config
  = match speed config with
    | SLOW => 2 * total
    | NORMAL => (5 * total + 1) / 2
    | FAST => 3 * total
    end /\
  GeminiService.textContents prompt config
  = ("Production Topic: " ++ prompt ++ ". Word count target: "
       ++ show_Z (specWordCount config) ++ ".")%string /\
  (durationMinutes config = 0 -> durationSeconds config = 30 ->
   speed config = NORMAL -> specWordCount config = 75).
Proof.
  intros total.
  assert (HG : GeminiService.targetWordCount config = specWordCount config).
  { unfold GeminiService.targetWordCount, GeminiService.totalSeconds,
      GeminiService.multiplier, specWordCount.
    rewrite totalSeconds_comm. cbv zeta.
    rewrite <- source_word_count. cbv zeta.
    destruct (speed config); reflexivity. }
  assert (HP : Part000.targetWordCount config = specWordCount config) by exact HG.
  assert (HD : DbDoc.targetWordCount config = specWordCount config) by exact HG.
  repeat apply conj; try assumption.
  - apply specWordCount_closed.
  - unfold GeminiService.textContents. now rewrite HG.
  - intros Hm Hs Hn. rewrite specWordCount_closed, Hn, Hm, Hs. reflexivity.
Qed.

Lemma targetWordCount_formula_witness :
  GeminiService.targetWordCount demoConfig = 75 /\
  GeminiService.textContents "tides" demoConfig
  = "Production Topic: tides. Word count target: 75."%string.
Proof.
  pose proof (targetWordCount_formula "tides" demoConfig) as ((HG & _) & _ & Hc & H75).
  cbv zeta in H75. split.
  - rewrite HG. apply H75; reflexivity.
  - rewrite Hc, H75; reflexivity.
Defined.

Example word_count_in_requests :
  Part000.textContents "tides" demoConfig
  = ("Topic: tides" ++ nl ++ "Format: Shorts/Reels" ++ nl ++ "Category: Technology"
       ++ nl ++ "Words: 75" ++ nl ++ "Ratio: 9:16")%string /\
  includes "(~75 words)." (DbDoc.systemInstruction "tides" demoConfig) = true.
Proof. split; vm_compute; reflexivity. Qed.

(** Ties go up: an odd number of seconds at normal speed. *)
Example word_count_tie :
  GeminiService.targetWordCount
    {| language := ENGLISH; primaryGender := MALE; voiceId := "v1"; tone := CALM;
       speed := NORMAL; volume := 1.0%float; contentType := LONG;
       scriptCategory := TECH; durationMinutes := 0; durationSeconds := 7;
       aspectRatio := HORIZONTAL |} = 18.
Proof. reflexivity. Qed.

(** ** The duration the application lets through *)

Lemma durationEffect_contentType (config config' : StudioConfig) :
  App.durationEffect config = Some config' -> contentType config' = contentType config.
Proof.
  unfold App.durationEffect.
  repeat match goal with |- context [if ?b then _ else _] => destruct b end;
    intros H; inversion H; reflexivity.
Qed.

Lemma durationEffect_bound (config config' : StudioConfig) :
  App.durationEffect config = Some config' ->
  GeminiService.totalSeconds config' = maxSeconds (contentType config) \/
  (contentType config = REEL /\ durationMinutes config <= 0 /\
   durationMinutes config' = durationMinutes config /\ durationSeconds config' = 60).
Proof.
  unfold App.durationEffect, GeminiService.totalSeconds.
  case_bool_decide as Hreel.
  - rewrite Hreel. destruct (0 <? durationMinutes config) eqn:Hm.
    + intros H; inversion H. now left.
    + destruct (60 <? durationSeconds config) eqn:Hs; [|discriminate].
      intros H; inversion H. right. cbn. repeat split. lia.
  - destruct (300 <? _) eqn:Ht; [|discriminate].
    intros H; inversion H. left. cbn. now destruct (contentType config).
Qed.

Lemma durationEffect_none (config : StudioConfig) :
  App.durationEffect config = None ->
  GeminiService.totalSeconds config <= maxSeconds (contentType config).
Proof.
  unfold App.durationEffect, GeminiService.totalSeconds.
  case_bool_decide as Hreel.
  - rewrite Hreel. destruct (0 <? durationMinutes config) eqn:Hm; [discriminate|].
    destruct (60 <? durationSeconds config) eqn:Hs; [discriminate|].
    intros _. cbn. lia.
  - destruct (300 <? _) eqn:Ht; [discriminate|].
    intros _. assert (maxSeconds (contentType config) = 300) as ->
      by now destruct (contentType config).
    lia.
Qed.

Lemma durationEffect_settles (config config' : StudioConfig) :
  App.durationEffect config = Some config' -> App.durationEffect config' = None.
Proof.
  intros H. pose proof (durationEffect_contentType _ _ H) as Hc.
  pose proof (durationEffect_bound _ _ H) as Hb.
  unfold App.durationEffect, GeminiService.totalSeconds in *.
  rewrite Hc.
  case_bool_decide as Hreel.
  - rewrite Hreel in *. cbn in Hb.
    destruct (0 <? durationMinutes config) eqn:Hm.
    + inversion H. reflexivity.
    + destruct (60 <? durationSeconds config) eqn:Hs; [|discriminate].
      inversion H. cbn. rewrite Hm. reflexivity.
  - destruct (300 <? durationMinutes config * 60 + durationSeconds config) eqn:Ht;
      [|discriminate].
    inversion H. reflexivity.
Qed.

(** C8: once the duration effect has run, the configuration keeps its
    format and its total duration is at most 60 seconds for Shorts/Reels and
    at most 300 seconds for the other formats; no further render changes it,
    and this is the configuration [handleGenerate] computes the word count
    from.  For Shorts/Reels with 0 minutes and 90 seconds it is 0 minutes and
    60 seconds. *)
Theorem duration_clamped_before_word_count (config : StudioConfig) (n : nat) :
  (1 <= n)%nat ->
  let settled := App.settle n config in
  App.durationEffect settled = None /\
  contentType settled = contentType config /\
  GeminiService.totalSeconds settled <= maxSeconds (contentType config) /\
  (contentType config = REEL -> durationMinutes config = 0 ->
   durationSeconds config = 90 ->
   durationMinutes settled = 0 /\ durationSeconds settled = 60 /\
   GeminiService.totalSeconds settled = 60 /\
   App.handleGenerateWordCount false settled
   = Some (GeminiService.targetWordCount settled)).
Proof.
  intros Hn settled.
  destruct n as [|n]; [lia|].
  assert (Hcases :
    (App.durationEffect config = None /\ settled = config) \/
    (exists c', App.durationEffect config = Some c' /\ settled = c')).
  { unfold settled. cbn [App.settle].
    destruct (App.durationEffect config) as [c'|] eqn:He; [right|left; now split].
    exists c'. split; [reflexivity|].
    pose proof (durationEffect_settles _ _ He) as Hs.
    destruct n; cbn [App.settle]; [reflexivity|now rewrite Hs]. }
  assert (Hnone : App.durationEffect settled = None).
  { destruct Hcases as [[He ->]|(c' & He & ->)]; [exact He|].
    exact (durationEffect_settles _ _ He). }
  assert (Hct : contentType settled = contentType config).
  { destruct Hcases as [[He ->]|(c' & He & ->)]; [reflexivity|].
    exact (durationEffect_contentType _ _ He). }
  repeat apply conj; try assumption.
  - rewrite <- Hct. now apply durationEffect_none.
  - intros Hreel Hm Hs.
    assert (Hst : durationMinutes settled = 0 /\ durationSeconds settled = 60).
    { destruct Hcases as [[He _]|(c' & He & ->)].
      - unfold App.durationEffect in He. rewrite Hreel, Hm, Hs in He. discriminate He.
      - unfold App.durationEffect in He. rewrite Hreel, Hm, Hs in He.
        cbn in He. inversion He. split; reflexivity. }
    destruct Hst as [Hm' Hs'].
    assert (Ht : GeminiService.totalSeconds settled = 60)
      by (unfold GeminiService.totalSeconds; rewrite Hm', Hs'; reflexivity).
    repeat apply conj; try assumption.
    unfold App.handleGenerateWordCount.
    unfold GeminiService.totalSeconds in Ht. now rewrite Ht.
Qed.

Lemma duration_clamped_before_word_count_witness :
  durationMinutes (App.settle 2 reel90) = 0 /\
  durationSeconds (App.settle 2 reel90) = 60 /\
  App.handleGenerateWordCount false (App.settle 2 reel90) = Some 150.
Proof.
  pose proof (duration_clamped_before_word_count reel90 2 ltac:(lia))
    as (_ & _ & _ & H).
  destruct (H eq_refl eq_refl eq_refl) as (Hm & Hs & _ & Hw).
  repeat apply conj; [exact Hm|exact Hs|].
  rewrite Hw. reflexivity.
Defined.

(** Without the effect the word count follows the raw fields: the clamp
    lives in the application, not in [generateContent]. *)
Example word_count_of_unclamped_config :
  GeminiService.targetWordCount reel90 = 225.
Proof. reflexivity. Qed.

(** ** The gain stage of [part_000] *)


Lemma wrapInt16_small (z : Z) : -32768 <= z <= 32767 -> wrapInt16 z = z.
Proof.
  intros H. unfold wrapInt16.
  destruct (Z_lt_le_dec z 0) as [Hneg|Hpos].
  - assert (Hm : z mod 65536 = z + 65536).
    { symmetry. apply (Z.mod_unique z 65536 (-1)); lia. }
    rewrite Hm. destruct (z + 65536 <? 32768) eqn:E;
      [apply Z.ltb_lt in E|apply Z.ltb_ge in E]; lia.
  - rewrite Z.mod_small by lia.
    destruct (z <? 32768) eqn:E; [apply Z.ltb_lt in E|apply Z.ltb_ge in E]; lia.
Qed.

Lemma pos_lt_digits (m : positive) : Z.pos m < 2 ^ Z.pos (digits2_pos m).
Proof.
  induction m as [m IH|m IH|]; cbn [digits2_pos]; [| |reflexivity].
  - rewrite Pos2Z.inj_succ, Z.pow_succ_r by lia. lia.
  - rewrite Pos2Z.inj_succ, Z.pow_succ_r by lia. lia.
Qed.

Lemma valid_mantissa_bound (s : bool) (m : positive) (e : Z) :
  valid_binary (S754_finite s m e) = true -> Z.pos m < 2 ^ 53.
Proof.
  unfold valid_binary, SpecFloat.valid_binary, bounded, canonical_mantissa, fexp.
  intros H. apply andb_true_iff in H as [H _]. apply Z.eqb_eq in H.
  pose proof (pos_lt_digits m) as Hd.
  assert (Hle : Z.pos (digits2_pos m) <= 53) by (unfold prec in H; lia).
  eapply Z.lt_le_trans; [exact Hd|]. apply Z.pow_le_mono_r; lia.
Qed.

Lemma shiftl_neg_bound (m : positive) (e k b : Z) :
  0 <= k -> e <= - k -> Z.pos m < b * 2 ^ k -> 0 < b ->
  0 <= Z.shiftl (Z.pos m) e < b.
Proof.
  intros Hk He Hm Hb.
  rewrite <- (Z.opp_involutive e), Z.shiftl_opp_r, Z.shiftr_div_pow2 by lia.
  assert (Hp : 0 < 2 ^ (- e)) by (apply Z.pow_pos_nonneg; lia).
  split; [apply Z.div_pos; lia|].
  apply Z.div_lt_upper_bound; [exact Hp|].
  assert (Hmono : 2 ^ k <= 2 ^ (- e)) by (apply Z.pow_le_mono_r; lia).
  nia.
Qed.

(** A double strictly between -32768 and 32767 has its integer part there. *)
Lemma truncZ_between (x : float) :
  PrimFloat.ltb x 32767%float = true ->
  PrimFloat.ltb (-32768)%float x = true ->
  -32768 <= truncZ x <= 32767.
Proof.
  rewrite !ltb_spec. unfold truncZ.
  pose proof (Prim2SF_valid x) as Hv.
  remember (Prim2SF 32767%float) as hi eqn:Hhi. vm_compute in Hhi. subst hi.
  remember (Prim2SF (-32768)%float) as lo eqn:Hlo. vm_compute in Hlo. subst lo.
  destruct (Prim2SF x) as [s|s| |s m e]; try lia.
  apply valid_mantissa_bound in Hv.
  unfold SFltb, SFcompare. destruct s.
  - intros _ Hlow.
    assert (He : e < -37 \/ (e = -37 /\ Z.pos m < 4503599627370496)).
    { destruct (Z.compare_spec (-37) e) as [Heq|Hlt|Hgt]; try discriminate Hlow.
      - right. split; [lia|]. subst e.
        destruct (Pos.compare_cont Eq 4503599627370496 m) eqn:Hc;
          try discriminate Hlow.
        rewrite Pos.compare_cont_spec in Hc.
        destruct (4503599627370496 ?= m)%positive eqn:Hc'; try discriminate Hc.
        apply Pos.compare_gt_iff in Hc'. exact Hc'.
      - left. lia. }
    clear Hlow.
    assert (0 <= Z.shiftl (Z.pos m) e < 32769); [|lia].
    destruct He as [He|[He Hm]].
    + apply (shiftl_neg_bound m e 38); lia.
    + apply (shiftl_neg_bound m e 37); lia.
  - intros Hhigh _.
    assert (He : e < -38 \/ (e = -38 /\ Z.pos m < 9006924376834048)).
    { destruct (Z.compare_spec e (-38)) as [Heq|Hlt|Hgt]; try discriminate Hhigh.
      - right. split; [lia|]. subst e.
        destruct (Pos.compare_cont Eq m 9006924376834048) eqn:Hc;
          try discriminate Hhigh.
        rewrite Pos.compare_cont_spec in Hc.
        destruct (m ?= 9006924376834048)%positive eqn:Hc'; try discriminate Hc.
        apply Pos.compare_lt_iff in Hc'. exact Hc'.
      - left. lia. }
    clear Hhigh.
    assert (0 <= Z.shiftl (Z.pos m) e < 32768); [|lia].
    destruct He as [He|[He Hm]].
    + apply (shiftl_neg_bound m e 39); lia.
    + apply (shiftl_neg_bound m e 38); lia.
Qed.

Lemma Math_min_hi (x : float) :
  Math_min 32767%float x
  = if PrimFloat.is_nan x then PrimFloat.nan
    else if PrimFloat.ltb x 32767%float then x else 32767%float.
Proof.
  unfold Math_min.
  change (PrimFloat.is_nan 32767%float) with false.
  change (isPosZero 32767%float) with false.
  cbn [orb]. now rewrite andb_false_r.
Qed.

Lemma Math_max_lo (m : float) :
  Math_max (-32768)%float m
  = if PrimFloat.is_nan m then PrimFloat.nan
    else if PrimFloat.ltb (-32768)%float m then m else (-32768)%float.
Proof.
  unfold Math_max.
  change (PrimFloat.is_nan (-32768)%float) with false.
  change (isNegZero (-32768)%float) with false.
  cbn [orb]. now rewrite andb_false_r.
Qed.

(** The clamped product is [NaN] or lies between the two bounds, so its
    integer part is a signed 16-bit value and [ToInt16] does not wrap it. *)
Lemma clampScaled_range (s : Z) (vf : float) :
  inInt16 (truncZ (Part000.clampScaled s vf)).
Proof.
  unfold Part000.clampScaled, inInt16.
  set (x := PrimFloat.mul (float_of_int16 s) vf).
  rewrite Math_min_hi.
  destruct (PrimFloat.is_nan x) eqn:Hnan; [vm_compute; split; discriminate|].
  destruct (PrimFloat.ltb x 32767%float) eqn:Hhi.
  - rewrite Math_max_lo, Hnan.
    destruct (PrimFloat.ltb (-32768)%float x) eqn:Hlo.
    + now apply truncZ_between.
    + vm_compute; split; discriminate.
  - vm_compute; split; discriminate.
Qed.


Lemma gainSample_no_wrap (vf : float) (s : Z) :
  Part000.gainSample vf s = truncZ (Part000.clampScaled s vf).
Proof.
  unfold Part000.gainSample, ToInt16. apply wrapInt16_small, clampScaled_range.
Qed.






Example gain_examples :
  Part000.gainSample 2%float 20000 = 32767 /\
  Part000.gainSample 2%float (-20000) = -32768 /\
  Part000.gainSample 0.5%float 3 = 1 /\
  Part000.gainSample 0.5%float (-3) = -1 /\
  Part000.gainSample PrimFloat.infinity 0 = 0 /\
  Part000.gainStage [x10; x27; xe0; xb1] 2%float = Ok [x20; x4e; x00; x80] /\
  isOk (Part000.gainStage [x10; x27; xf0] 2%float) = false.
Proof. repeat apply conj; vm_compute; reflexivity. Qed.

(** C10: a volume of [0] (or [-0], or [NaN]) is falsy, so
    [config.volume || 1.0] is 1.0 and the gain stage returns the samples as
    they were. *)
Theorem falsy_volume_is_unity (config : StudioConfig) (pcm : list byte) :
  volume config = 0%float \/ volume config = (-0)%float \/
  PrimFloat.is_nan (volume config) = true ->
  Part000.volumeFactor config = 1.0%float /\
  Part000.gainStage pcm (Part000.volumeFactor config) = Ok pcm.
Proof.
  intros Hv.
  assert (Hf : Part000.volumeFactor config = 1.0%float).
  { unfold Part000.volumeFactor, orNumber, truthyNumber.
    destruct Hv as [->|[->|Hn]]; [reflexivity|reflexivity|].
    now rewrite Hn, orb_true_r. }
  split; [exact Hf|]. now rewrite Hf.
Qed.

Lemma falsy_volume_is_unity_witness :
  Part000.volumeFactor mutedConfig = 1.0%float /\
  Part000.gainStage [x10; x27; xf0; xd8] (Part000.volumeFactor mutedConfig)
  = Ok [x10; x27; xf0; xd8].
Proof.
  apply (falsy_volume_is_unity mutedConfig [x10; x27; xf0; xd8]).
  left. reflexivity.
Defined.

(** * Further properties of the code *)

(** ** [retry]: bounds, schedule, outcome *)

Lemma GeminiService_retry_shape {T} (fn : nat -> Exc T) (retries d : Z) :
  GeminiService.retry fn retries d = retryOf geminiPolicy fn retries d.
Proof.
  unfold GeminiService.retry, retryOf. generalize 0%nat as i. revert d.
  induction (Z.to_nat (retries + 1)) as [|n IH]; intros d i; [reflexivity|].
  cbn [GeminiService.retryFrom retryWith geminiPolicy polAuth polRate polAuthError
       polTimeout polFactor] in *.
  now rewrite IH.
Qed.

Lemma Part000_retry_shape {T} (fn : nat -> Exc T) (retries d : Z) :
  Part000.retry fn retries d = retryOf part000Policy fn retries d.
Proof.
  unfold Part000.retry, retryOf. generalize 0%nat as i. revert d.
  induction (Z.to_nat (retries + 1)) as [|n IH]; intros d i; [reflexivity|].
  cbn [Part000.retryFrom retryWith part000Policy polAuth polRate polAuthError
       polTimeout polFactor] in *.
  now rewrite IH.
Qed.

Lemma DbDoc_retry_shape {T} (fn : nat -> Exc T) (retries d : Z) :
  DbDoc.retry fn retries d = retryOf part000Policy fn retries d.
Proof.
  unfold DbDoc.retry, retryOf. generalize 0%nat as i. revert d.
  induction (Z.to_nat (retries + 1)) as [|n IH]; intros d i; [reflexivity|].
  cbn [DbDoc.retryFrom retryWith part000Policy polAuth polRate polAuthError
       polTimeout polFactor] in *.
  now rewrite IH.
Qed.

Section RetryWith.

Context {T : Type}.
Variable p : RetryPolicy.
Variable fn : nat -> Exc T.
Variable retries : Z.

Let loop := retryWith (T := T) (polAuth p) (polRate p) (polAuthError p) (polTimeout p)
              (polFactor p) fn retries.

Lemma sleeps_retry_step (a w : Z) (tr : list Event) :
  sleeps (Invoke :: Warn a w :: Sleep w :: tr) = w :: sleeps tr.
Proof. reflexivity. Qed.

Lemma invocations_single : invocations [Invoke] = 1%nat.
Proof. reflexivity. Qed.

(** With the loop aligned on [retries] (it is at index [i] with [n]
    iterations left, the last one at index [retries]), the operation is
    invoked at most [n] times, and once more than the loop waits. *)
Lemma retryWith_counts (n i : nat) (d : Z) :
  Z.of_nat i + Z.of_nat n = retries + 1 -> n <> 0%nat ->
  (invocations (snd (loop n i d)) <= n)%nat /\
  invocations (snd (loop n i d)) = S (length (sleeps (snd (loop n i d)))).
Proof.
  revert i d. induction n as [|n IH]; intros i d Hal Hn; [congruence|].
  unfold loop. cbn [retryWith].
  destruct (fn i) as [v|e]; [cbn [snd]; rewrite invocations_single; split; [lia|reflexivity]|].
  destruct (polAuth p e); [cbn [snd]; rewrite invocations_single; split; [lia|reflexivity]|].
  destruct (Z.of_nat i =? retries) eqn:Hi;
    [cbn [snd]; rewrite invocations_single; split; [lia|reflexivity]|].
  apply Z.eqb_neq in Hi.
  destruct (IH (S i) (d * 2)) as [Hle Heq]; [lia|lia|]. fold loop.
  destruct (loop n (S i) (d * 2)) as [r tr]. cbn [snd] in *.
  rewrite invocations_retry_step, sleeps_retry_step. cbn [length].
  split; [lia|]. now rewrite Heq.
Qed.

(** The wait after the failure of attempt [i + k] is the delay the loop
    entered with, doubled [k] times, and multiplied by the factor of the
    policy when that failure was a rate limit. *)
Lemma retryWith_schedule (n i : nat) (d : Z) (k : nat) (ms : Z) :
  sleeps (snd (loop n i d)) !! k = Some ms ->
  exists e, fn (i + k)%nat = Throw e /\ polAuth p e = false /\
            ms = d * 2 ^ Z.of_nat k * (if polRate p e then polFactor p else 1).
Proof.
  revert i d k. induction n as [|n IH]; intros i d k; [discriminate|].
  unfold loop. cbn [retryWith].
  destruct (fn i) as [v|e] eqn:Hfn; [discriminate|].
  destruct (polAuth p e) eqn:Hauth; [discriminate|].
  destruct (Z.of_nat i =? retries); [discriminate|].
  fold loop. specialize (IH (S i) (d * 2)).
  destruct (loop n (S i) (d * 2)) as [r tr]. cbn [snd] in *.
  rewrite sleeps_retry_step. destruct k as [|k]; cbn [lookup list_lookup].
  - intros [= <-]. exists e. rewrite Nat.add_0_r. repeat split; [exact Hfn|exact Hauth|].
    cbn. destruct (polRate p e); lia.
  - intros Hk. destruct (IH k Hk) as (e' & Hfn' & Hauth' & ->).
    exists e'. replace (i + S k)%nat with (S i + k)%nat by lia.
    repeat split; [exact Hfn'|exact Hauth'|].
    rewrite Nat2Z.inj_succ, Z.pow_succ_r by lia. lia.
Qed.

(** The first attempt that succeeds ends the loop, provided the earlier
    failures carry no credential signal and the attempt is within the
    retries. *)
Lemma retryWith_first_success (n i : nat) (d : Z) (k : nat) (v : T) :
  (forall j, (j < k)%nat ->
     exists e, fn (i + j)%nat = Throw e /\ polAuth p e = false) ->
  fn (i + k)%nat = Ok v ->
  (k < n)%nat -> Z.of_nat (i + k) <= retries ->
  fst (loop n i d) = Ok v /\ invocations (snd (loop n i d)) = S k.
Proof.
  revert i d k. induction n as [|n IH]; intros i d k Hfail Hok Hk Hr; [lia|].
  unfold loop. cbn [retryWith]. destruct k as [|k].
  - rewrite Nat.add_0_r in Hok. rewrite Hok. split; reflexivity.
  - destruct (Hfail 0%nat ltac:(lia)) as (e & He & Hauth).
    rewrite Nat.add_0_r in He. rewrite He, Hauth.
    replace (Z.of_nat i =? retries) with false by (symmetry; apply Z.eqb_neq; lia).
    fold loop.
    destruct (IH (S i) (d * 2) k) as [Hres Hinv].
    + intros j Hj. destruct (Hfail (S j) ltac:(lia)) as (e' & He' & Ha').
      exists e'. replace (S i + j)%nat with (i + S j)%nat by lia. now split.
    + replace (S i + k)%nat with (i + S k)%nat by lia. exact Hok.
    + lia.
    + lia.
    + destruct (loop n (S i) (d * 2)) as [r tr]. cbn [fst snd] in *.
      split; [exact Hres|]. now rewrite invocations_retry_step, Hinv.
Qed.


(** A value the loop returns is the value of an attempt, the first that
    did not fail. *)
Lemma retryWith_returns (n i : nat) (d : Z) (v : T) :
  fst (loop n i d) = Ok v ->
  exists k, (k < n)%nat /\ fn (i + k)%nat = Ok v /\
            invocations (snd (loop n i d)) = S k /\
            (forall j, (j < k)%nat -> exists e, fn (i + j)%nat = Throw e) /\
            (n <> 0%nat -> Z.of_nat i + Z.of_nat n = retries + 1 ->
             Z.of_nat (i + k) <= retries).
Proof.
  revert i d. induction n as [|n IH]; intros i d; [discriminate|].
  unfold loop. cbn [retryWith].
  destruct (fn i) as [v'|e] eqn:Hfn.
  - intros [= ->]. exists 0%nat. rewrite Nat.add_0_r.
    repeat split; [lia|exact Hfn|intros j Hj; lia|lia].
  - destruct (polAuth p e); [discriminate|].
    destruct (Z.of_nat i =? retries) eqn:Hi; [discriminate|].
    apply Z.eqb_neq in Hi. fold loop. specialize (IH (S i) (d * 2)).
    destruct (loop n (S i) (d * 2)) as [r tr]. cbn [fst snd] in *.
    intros Hr. destruct (IH Hr) as (k & Hk & Hok & Hinv & Hbefore & Hal).
    exists (S k). replace (i + S k)%nat with (S i + k)%nat by lia.
    repeat split; [lia|exact Hok|now rewrite invocations_retry_step, Hinv| |].
    + intros [|j] Hj; [exists e; now rewrite Nat.add_0_r|].
      replace (i + S j)%nat with (S i + j)%nat by lia. apply Hbefore. lia.
    + intros _ Hali. apply Hal; lia.
Qed.

(** With a delay that is not negative and a factor of at least one, an
    aligned loop with [n] iterations left waits for at most
    [factor * d * (2 ^ (n - 1) - 1)] milliseconds in all. *)
Lemma retryWith_total_wait (n i : nat) (d : Z) :
  0 <= d -> 1 <= polFactor p ->
  Z.of_nat i + Z.of_nat n = retries + 1 -> n <> 0%nat ->
  0 <= totalWait (snd (loop n i d))
    <= polFactor p * d * (2 ^ (Z.of_nat n - 1) - 1).
Proof.
  intros Hd Hf. revert i d Hd. induction n as [|n IH]; intros i d Hd Hal Hn; [congruence|].
  assert (Hpow : 1 <= 2 ^ (Z.of_nat (S n) - 1)) by (apply Z.pow_le_mono_r with (b := 0); lia).
  assert (Hbase : 0 <= 0 <= polFactor p * d * (2 ^ (Z.of_nat (S n) - 1) - 1)) by nia.
  unfold loop. cbn [retryWith].
  destruct (fn i) as [v|e]; [exact Hbase|].
  destruct (polAuth p e); [exact Hbase|].
  destruct (Z.of_nat i =? retries) eqn:Hi; [exact Hbase|].
  apply Z.eqb_neq in Hi. fold loop.
  specialize (IH (S i) (d * 2) ltac:(lia) ltac:(lia) ltac:(lia)).
  destruct (loop n (S i) (d * 2)) as [r tr]. cbn [snd] in *.
  unfold totalWait in *. rewrite sleeps_retry_step. cbn [foldr].
  replace (Z.of_nat (S n) - 1) with (Z.succ (Z.of_nat n - 1)) by lia.
  rewrite Z.pow_succ_r by lia.
  assert (Hpow' : 1 <= 2 ^ (Z.of_nat n - 1)) by (apply Z.pow_le_mono_r with (b := 0); lia).
  destruct (polRate p e); nia.
Qed.

End RetryWith.

Lemma retryOf_counts {T} (p : RetryPolicy) (fn : nat -> Exc T) (retries d : Z) :
  (invocations (snd (retryOf p fn retries d)) <= Z.to_nat (retries + 1))%nat /\
  length (sleeps (snd (retryOf p fn retries d)))
  = pred (invocations (snd (retryOf p fn retries d))).
Proof.
  unfold retryOf. destruct (Z.to_nat (retries + 1)) as [|n] eqn:En.
  - split; reflexivity.
  - destruct (retryWith_counts p fn retries (S n) 0 d) as [Hle Heq]; [lia|lia|].
    split; [exact Hle|]. now rewrite Heq.
Qed.

(** X1: [retry], in its three copies, for any operation, any number of retries
    and any delay: the operation is invoked at most [retries + 1] times (not
    at all when [retries] is negative), and the loop waits once between two
    consecutive invocations and never after the last one. *)
Theorem retry_attempts_bounded (T : Type) (fn : nat -> Exc T) (retries initialDelay : Z) :
  let bounded (r : Run T) :=
    (invocations (snd r) <= Z.to_nat (retries + 1))%nat /\
    length (sleeps (snd r)) = pred (invocations (snd r)) in
  bounded (GeminiService.retry fn retries initialDelay) /\
  bounded (Part000.retry fn retries initialDelay) /\
  bounded (DbDoc.retry fn retries initialDelay).
Proof.
  cbv zeta.
  rewrite GeminiService_retry_shape, Part000_retry_shape, DbDoc_retry_shape.
  repeat split; apply retryOf_counts.
Qed.

(** X2: The waits of [retry] are an exponential back-off: the wait that follows
    the failure of attempt [k] is the initial delay doubled [k] times, and
    three times that in [geminiService.ts] (twice that in the two other
    copies) when the failure carries a rate-limit signal. *)
Theorem retry_backoff_schedule (T : Type) (fn : nat -> Exc T)
    (retries initialDelay : Z) (k : nat) (ms : Z) :
  (sleeps (snd (GeminiService.retry fn retries initialDelay)) !! k = Some ms ->
   exists e, fn k = Throw e /\ GeminiService.isAuthError e = false /\
     ms = initialDelay * 2 ^ Z.of_nat k * (if GeminiService.isRateLimit e then 3 else 1)) /\
  (sleeps (snd (Part000.retry fn retries initialDelay)) !! k = Some ms ->
   exists e, fn k = Throw e /\
     ms = initialDelay * 2 ^ Z.of_nat k * (if Part000.isRateLimit e then 2 else 1)) /\
  (sleeps (snd (DbDoc.retry fn retries initialDelay)) !! k = Some ms ->
   exists e, fn k = Throw e /\
     ms = initialDelay * 2 ^ Z.of_nat k * (if DbDoc.isRateLimit e then 2 else 1)).
Proof.
  rewrite GeminiService_retry_shape, Part000_retry_shape, DbDoc_retry_shape.
  unfold retryOf. repeat split; intros Hk.
  - destruct (retryWith_schedule geminiPolicy fn retries _ _ _ _ _ Hk)
      as (e & He & Ha & Hms).
    exists e. repeat split; assumption.
  - destruct (retryWith_schedule part000Policy fn retries _ _ _ _ _ Hk)
      as (e & He & _ & Hms).
    exists e. split; assumption.
  - destruct (retryWith_schedule part000Policy fn retries _ _ _ _ _ Hk)
      as (e & He & _ & Hms).
    exists e. split; assumption.
Qed.

Lemma retry_backoff_schedule_witness :
  let fn : nat -> Exc unit := fun _ => Throw (newError "429 Too Many Requests") in
  (exists e, fn 2%nat = Throw e /\ GeminiService.isAuthError e = false /\
     24000 = 2000 * 2 ^ Z.of_nat 2 * (if GeminiService.isRateLimit e then 3 else 1)) /\
  (exists e, fn 2%nat = Throw e /\
     16000 = 2000 * 2 ^ Z.of_nat 2 * (if Part000.isRateLimit e then 2 else 1)).
Proof.
  intros fn.
  pose proof (retry_backoff_schedule unit fn 3 2000 2 24000) as (HG & _ & _).
  pose proof (retry_backoff_schedule unit fn 3 2000 2 16000) as (_ & HP & _).
  split; [exact (HG eq_refl) | exact (HP eq_refl)].
Defined.

(** X3: [retry] stops at the first attempt that succeeds: when the attempts
    before attempt [k] fail, attempt [k] returns [v] and [k <= retries], the
    value is [v] and the operation has been invoked [k + 1] times.  In
    [geminiService.ts] the failures must carry no credential signal. *)
Theorem retry_first_success (T : Type) (fn : nat -> Exc T)
    (retries initialDelay : Z) (k : nat) (v : T) :
  (forall j, (j < k)%nat -> exists e, fn j = Throw e) ->
  fn k = Ok v -> Z.of_nat k <= retries ->
  let succeeds (r : Run T) := fst r = Ok v /\ invocations (snd r) = S k in
  ((forall j e, (j < k)%nat -> fn j = Throw e -> GeminiService.isAuthError e = false) ->
   succeeds (GeminiService.retry fn retries initialDelay)) /\
  succeeds (Part000.retry fn retries initialDelay) /\
  succeeds (DbDoc.retry fn retries initialDelay).
Proof.
  intros Hfail Hok Hk. cbv zeta.
  rewrite GeminiService_retry_shape, Part000_retry_shape, DbDoc_retry_shape.
  unfold retryOf.
  assert (Hp : forall j, (j < k)%nat ->
            exists e, fn (0 + j)%nat = Throw e /\ polAuth part000Policy e = false).
  { intros j Hj. destruct (Hfail j Hj) as (e & He). exists e. now split. }
  split; [|split].
  - intros Hna. apply retryWith_first_success; [|exact Hok|lia|cbn; lia].
    intros j Hj. destruct (Hfail j Hj) as (e & He). exists e.
    split; [exact He|]. exact (Hna j e Hj He).
  - apply (retryWith_first_success part000Policy); [exact Hp|exact Hok|lia|cbn; lia].
  - apply (retryWith_first_success part000Policy); [exact Hp|exact Hok|lia|cbn; lia].
Qed.

Lemma retry_first_success_witness :
  let fn : nat -> Exc string :=
    fun j => match j with
             | 0%nat => Throw (newError "503 Service Unavailable")
             | 1%nat => Throw (newError "429 Too Many Requests")
             | _ => Ok "ready"%string
             end in
  fst (GeminiService.retry fn 3 3000) = Ok "ready"%string /\
  invocations (snd (GeminiService.retry fn 3 3000)) = 3%nat.
Proof.
  intros fn.
  assert (Hfail : forall j, (j < 2)%nat -> exists e, fn j = Throw e).
  { intros [|[|j]] Hj; [eexists; reflexivity..|lia]. }
  pose proof (retry_first_success string fn 3 3000 2 "ready"%string
                Hfail eq_refl ltac:(lia)) as (HG & _ & _).
  apply HG. intros [|[|j]] e Hj He; [| |lia].
  - injection He as <-. reflexivity.
  - injection He as <-. reflexivity.
Defined.



Lemma retryOf_total_wait {T} (p : RetryPolicy) (fn : nat -> Exc T) (retries d : Z) :
  0 <= retries -> 0 <= d -> 1 <= polFactor p ->
  0 <= totalWait (snd (retryOf p fn retries d)) <= polFactor p * d * (2 ^ retries - 1).
Proof.
  intros Hr Hd Hf. unfold retryOf.
  pose proof (retryWith_total_wait p fn retries (Z.to_nat (retries + 1)) 0 d Hd Hf
                ltac:(lia) ltac:(lia)) as H.
  replace (Z.of_nat (Z.to_nat (retries + 1)) - 1) with retries in H by lia. exact H.
Qed.

(** X5: The time [retry] spends waiting is bounded, whatever the operation
    does: with [retries >= 0] and a delay that is not negative, the waits
    add up to at most [3 * initialDelay * (2 ^ retries - 1)] milliseconds in
    [geminiService.ts], and to at most [2 * initialDelay * (2 ^ retries - 1)]
    in the two other copies. *)
Theorem retry_total_wait_bounded (T : Type) (fn : nat -> Exc T) (retries initialDelay : Z) :
  0 <= retries -> 0 <= initialDelay ->
  0 <= totalWait (snd (GeminiService.retry fn retries initialDelay))
    <= 3 * initialDelay * (2 ^ retries - 1) /\
  0 <= totalWait (snd (Part000.retry fn retries initialDelay))
    <= 2 * initialDelay * (2 ^ retries - 1) /\
  0 <= totalWait (snd (DbDoc.retry fn retries initialDelay))
    <= 2 * initialDelay * (2 ^ retries - 1).
Proof.
  intros Hr Hd.
  rewrite GeminiService_retry_shape, Part000_retry_shape, DbDoc_retry_shape.
  split; [|split].
  - apply (retryOf_total_wait geminiPolicy); [assumption..|cbn; lia].
  - apply (retryOf_total_wait part000Policy); [assumption..|cbn; lia].
  - apply (retryOf_total_wait part000Policy); [assumption..|cbn; lia].
Qed.

Lemma retry_total_wait_bounded_witness :
  0 <= totalWait (snd (GeminiService.retry (T := unit)
                         (fun _ => Throw (newError "429 Too Many Requests")) 3 3000))
    <= 3 * 3000 * (2 ^ 3 - 1).
Proof.
  exact (proj1 (retry_total_wait_bounded unit
                  (fun _ => Throw (newError "429 Too Many Requests")) 3 3000
                  ltac:(lia) ltac:(lia))).
Defined.

(** ** [generateStudioImage] *)

Lemma firstInline_some (ps : list Image.Part) (s : string) :
  Image.firstInline ps = Some s ->
  exists before part inline after,
    ps = before ++ part :: after /\
    Forall (fun q => Image.inlineData q = None) before /\
    Image.inlineData part = Some inline /\
    s = ("data:image/png;base64," ++ show_opt (Image.data inline))%string.
Proof.
  induction ps as [|q ps IH]; [discriminate|]. cbn [Image.firstInline].
  destruct (Image.inlineData q) as [inline|] eqn:Hq.
  - intros [= <-]. exists [], q, inline, ps. repeat split; [constructor|exact Hq].
  - intros Hs. destruct (IH Hs) as (before & part & inline & after & -> & Hb & Hp & ->).
    exists (q :: before), part, inline, after.
    repeat split; [constructor; assumption|exact Hp].
Qed.

Lemma firstInline_none (ps : list Image.Part) :
  Forall (fun q => Image.inlineData q = None) ps -> Image.firstInline ps = None.
Proof.
  induction 1 as [|q ps Hq _ IH]; [reflexivity|].
  cbn [Image.firstInline]. now rewrite Hq.
Qed.

Section ImageAdapter.

Variable remoteImage : string -> AspectRatio -> nat -> Exc Image.Response.
Variable prompt : string.
Variable aspectRatio : AspectRatio.

Lemma GeminiService_image_trace :
  snd (GeminiService.generateStudioImage remoteImage prompt aspectRatio)
  = snd (GeminiService.retry
           (remoteImage (GeminiService.imageText prompt aspectRatio) aspectRatio) 2 4000).
Proof.
  unfold GeminiService.generateStudioImage. rewrite bind_trace.
  destruct (fst _) as [response|e]; [|apply app_nil_r].
  destruct (Image.firstInline _); apply app_nil_r.
Qed.

Lemma Part000_image_trace :
  snd (Part000.generateStudioImage remoteImage prompt aspectRatio)
  = snd (Part000.retry
           (remoteImage (Part000.imageText prompt aspectRatio) aspectRatio) 2 3000).
Proof.
  unfold Part000.generateStudioImage. rewrite bind_trace.
  destruct (fst _) as [response|e]; [|apply app_nil_r].
  destruct (Image.firstInline _); apply app_nil_r.
Qed.

Lemma DbDoc_image_trace :
  snd (DbDoc.generateStudioImage remoteImage prompt aspectRatio)
  = snd (DbDoc.retry
           (remoteImage (DbDoc.imageText prompt aspectRatio) aspectRatio) 2 3000).
Proof.
  unfold DbDoc.generateStudioImage. rewrite bind_trace.
  destruct (fst _) as [response|e]; [|apply app_nil_r].
  destruct (Image.firstInline _); apply app_nil_r.
Qed.

(** X6: One image costs at most three requests to the model, and at most 36
    seconds of waiting in [geminiService.ts] (18 seconds in the two other
    copies), whatever the model answers. *)
Theorem generateStudioImage_cost_bounded :
  let cost (tr : list Event) (ms : Z) :=
    (invocations tr <= 3)%nat /\ 0 <= totalWait tr <= ms in
  cost (snd (GeminiService.generateStudioImage remoteImage prompt aspectRatio)) 36000 /\
  cost (snd (Part000.generateStudioImage remoteImage prompt aspectRatio)) 18000 /\
  cost (snd (DbDoc.generateStudioImage remoteImage prompt aspectRatio)) 18000.
Proof.
  cbv zeta. rewrite GeminiService_image_trace, Part000_image_trace, DbDoc_image_trace.
  rewrite GeminiService_retry_shape, Part000_retry_shape, DbDoc_retry_shape.
  repeat apply conj;
    first [ apply (retryOf_counts _ _ 2)
          | apply (retryOf_total_wait geminiPolicy _ 2 4000); cbn; lia
          | apply (retryOf_total_wait part000Policy _ 2 3000); cbn; lia ].
Qed.

Lemma image_result_of (fn : nat -> Exc Image.Response) (p : RetryPolicy) (d : Z)
    (err : JsError) (s : string) :
  fst (retryOf p fn 2 d ≫= fun response =>
         match Image.firstInline (Image.responseParts response) with
         | Some dataUrl => retR dataUrl
         | None => throwR err
         end) = Ok s ->
  exists (k : nat) response before part inline after,
    (k <= 2)%nat /\ fn k = Ok response /\
    (forall j, (j < k)%nat -> exists e, fn j = Throw e) /\
    Image.responseParts response = before ++ part :: after /\
    Forall (fun q => Image.inlineData q = None) before /\
    Image.inlineData part = Some inline /\
    s = ("data:image/png;base64," ++ show_opt (Image.data inline))%string.
Proof.
  rewrite bind_result.
  destruct (fst (retryOf p fn 2 d)) as [response|e] eqn:Hcall; [|discriminate].
  destruct (Image.firstInline _) as [dataUrl|] eqn:Hfirst; [|discriminate].
  intros [= ->].
  destruct (retryWith_returns p fn 2 _ _ _ _ Hcall) as (k & Hk & Hok & _ & Hbefore & _).
  destruct (firstInline_some _ _ Hfirst) as (before & part & inline & after & Hps & Hb & Hp & Hs).
  exists k, response, before, part, inline, after.
  change (Z.to_nat (2 + 1)) with 3%nat in Hk.
  repeat split; [lia|exact Hok|exact Hbefore|exact Hps|exact Hb|exact Hp|exact Hs].
Qed.

(** X7: What [generateStudioImage] returns is a PNG data URL made from the
    first part with inline data of the response of the first attempt that
    did not fail, one of the three attempts; parts without inline data
    before it are skipped. *)
Theorem generateStudioImage_returns_first_inline (s : string) :
  let fromFirstInline (fn : nat -> Exc Image.Response) :=
    exists (k : nat) response before part inline after,
      (k <= 2)%nat /\ fn k = Ok response /\
      (forall j, (j < k)%nat -> exists e, fn j = Throw e) /\
      Image.responseParts response = before ++ part :: after /\
      Forall (fun q => Image.inlineData q = None) before /\
      Image.inlineData part = Some inline /\
      s = ("data:image/png;base64," ++ show_opt (Image.data inline))%string in
  (fst (GeminiService.generateStudioImage remoteImage prompt aspectRatio) = Ok s ->
   fromFirstInline (remoteImage (GeminiService.imageText prompt aspectRatio) aspectRatio)) /\
  (fst (Part000.generateStudioImage remoteImage prompt aspectRatio) = Ok s ->
   fromFirstInline (remoteImage (Part000.imageText prompt aspectRatio) aspectRatio)) /\
  (fst (DbDoc.generateStudioImage remoteImage prompt aspectRatio) = Ok s ->
   fromFirstInline (remoteImage (DbDoc.imageText prompt aspectRatio) aspectRatio)).
Proof.
  cbv zeta.
  unfold GeminiService.generateStudioImage, Part000.generateStudioImage,
    DbDoc.generateStudioImage.
  rewrite GeminiService_retry_shape, Part000_retry_shape, DbDoc_retry_shape.
  split; [|split]; intros Hs; exact (image_result_of _ _ _ _ _ Hs).
Qed.

Lemma image_no_inline (fn : nat -> Exc Image.Response) (p : RetryPolicy) (d : Z)
    (k : nat) (response : Image.Response) :
  (forall j, (j < k)%nat -> exists e, fn j = Throw e /\ polAuth p e = false) ->
  fn k = Ok response -> (k <= 2)%nat ->
  Forall (fun q => Image.inlineData q = None) (Image.responseParts response) ->
  fst (retryOf p fn 2 d) = Ok response /\
  Image.firstInline (Image.responseParts response) = None /\
  invocations (snd (retryOf p fn 2 d)) = S k.
Proof.
  intros Hfail Hok Hk Hnone.
  destruct (retryWith_first_success p fn 2 3 0 d k response) as [Hres Hinv];
    [exact Hfail|exact Hok|lia|cbn; lia|].
  split; [exact Hres|]. split; [now apply firstInline_none|exact Hinv].
Qed.

End ImageAdapter.

(** X8: A response without inline data is an error of its own, and it is not
    retried: when attempt [k] (of the three) is the first that does not fail
    and no part of its response has inline data, [generateStudioImage]
    throws its "no image" error after [k + 1] requests, although the loop of
    [retry] had attempts left. *)
Theorem generateStudioImage_empty_response_not_retried
    (remoteImage : string -> AspectRatio -> nat -> Exc Image.Response)
    (prompt : string) (aspectRatio : AspectRatio) (k : nat) (response : Image.Response) :
  (k <= 2)%nat ->
  Forall (fun q => Image.inlineData q = None) (Image.responseParts response) ->
  let firstAnswer (fn : nat -> Exc Image.Response) (isAuth : JsError -> bool) :=
    fn k = Ok response /\
    forall j, (j < k)%nat -> exists e, fn j = Throw e /\ isAuth e = false in
  let throwsAfter (r : Run string) (msg : string) :=
    fst r = Throw (newError msg) /\ invocations (snd r) = S k in
  (firstAnswer (remoteImage (GeminiService.imageText prompt aspectRatio) aspectRatio)
     GeminiService.isAuthError ->
   throwsAfter (GeminiService.generateStudioImage remoteImage prompt aspectRatio)
     "Asset generation failed."%string) /\
  (firstAnswer (remoteImage (Part000.imageText prompt aspectRatio) aspectRatio)
     (fun _ => false) ->
   throwsAfter (Part000.generateStudioImage remoteImage prompt aspectRatio)
     "No image data returned from API"%string) /\
  (firstAnswer (remoteImage (DbDoc.imageText prompt aspectRatio) aspectRatio)
     (fun _ => false) ->
   throwsAfter (DbDoc.generateStudioImage remoteImage prompt aspectRatio)
     "No image data"%string).
Proof.
  intros Hk Hnone. cbv beta zeta.
  rewrite GeminiService_image_trace, Part000_image_trace, DbDoc_image_trace.
  unfold GeminiService.generateStudioImage, Part000.generateStudioImage,
    DbDoc.generateStudioImage.
  rewrite !bind_result.
  rewrite GeminiService_retry_shape, Part000_retry_shape, DbDoc_retry_shape.
  split; [|split]; intros [Hok Hfail].
  - destruct (image_no_inline _ geminiPolicy 4000 k response Hfail Hok Hk Hnone)
      as (-> & -> & Hinv). split; [reflexivity|exact Hinv].
  - destruct (image_no_inline _ part000Policy 3000 k response Hfail Hok Hk Hnone)
      as (-> & -> & Hinv). split; [reflexivity|exact Hinv].
  - destruct (image_no_inline _ part000Policy 3000 k response Hfail Hok Hk Hnone)
      as (-> & -> & Hinv). split; [reflexivity|exact Hinv].
Qed.

Lemma generateStudioImage_returns_first_inline_witness :
  exists (k : nat) response before part inline after,
    (k <= 2)%nat /\
    secondAttempt imageAnswer (GeminiService.imageText "a lighthouse" VERTICAL) VERTICAL k
      = Ok response /\
    (forall j, (j < k)%nat ->
       exists e, secondAttempt imageAnswer
                   (GeminiService.imageText "a lighthouse" VERTICAL) VERTICAL j = Throw e) /\
    Image.responseParts response = before ++ part :: after /\
    Forall (fun q => Image.inlineData q = None) before /\
    Image.inlineData part = Some inline /\
    "data:image/png;base64,iVBORw0KGgo="%string
    = ("data:image/png;base64," ++ show_opt (Image.data inline))%string.
Proof.
  exact (proj1 (generateStudioImage_returns_first_inline (secondAttempt imageAnswer)
                  "a lighthouse" VERTICAL "data:image/png;base64,iVBORw0KGgo=")
           eq_refl).
Defined.

Lemma generateStudioImage_empty_response_not_retried_witness :
  fst (GeminiService.generateStudioImage (secondAttempt textOnlyAnswer)
         "a lighthouse" VERTICAL)
    = Throw (newError "Asset generation failed.") /\
  invocations (snd (GeminiService.generateStudioImage (secondAttempt textOnlyAnswer)
                      "a lighthouse" VERTICAL)) = 2%nat.
Proof.
  refine (proj1 (generateStudioImage_empty_response_not_retried
                   (secondAttempt textOnlyAnswer) "a lighthouse" VERTICAL 1 textOnlyAnswer
                   ltac:(lia) _) _).
  - repeat constructor.
  - split; [reflexivity|].
    intros [|j] Hj; [|lia]. eexists. split; reflexivity.
Defined.

(** ** [generateContent]: what a run that throws has done *)

Lemma retryOf_background {T} (p : RetryPolicy) (fn : nat -> Exc T) (retries d : Z) :
  only backgroundEvent (retryOf p fn retries d).
Proof.
  unfold retryOf, only. generalize 0%nat as i. revert d.
  induction (Z.to_nat (retries + 1)) as [|n IH]; intros d i; [constructor|].
  cbn [retryWith].
  destruct (fn i); [repeat constructor|].
  destruct (polAuth p e); [repeat constructor|].
  destruct (Z.of_nat i =? retries); [repeat constructor|].
  specialize (IH (d * 2) (S i)).
  destruct (retryWith _ _ _ _ _ fn retries n (S i) (d * 2)). cbn in *.
  repeat (constructor; [exact I|]). exact IH.
Qed.

Lemma GeminiService_retry_no_image {T} (fn : nat -> Exc T) (retries d : Z) :
  filter isImageCall (snd (GeminiService.retry fn retries d)) = [].
Proof.
  rewrite GeminiService_retry_shape.
  apply filter_imageCall_background, retryOf_background.
Qed.

Lemma Part000_retry_no_image {T} (fn : nat -> Exc T) (retries d : Z) :
  filter isImageCall (snd (Part000.retry fn retries d)) = [].
Proof.
  rewrite Part000_retry_shape.
  apply filter_imageCall_background, retryOf_background.
Qed.

Lemma DbDoc_retry_no_image {T} (fn : nat -> Exc T) (retries d : Z) :
  filter isImageCall (snd (DbDoc.retry fn retries d)) = [].
Proof.
  rewrite DbDoc_retry_shape.
  apply filter_imageCall_background, retryOf_background.
Qed.



Section Aborts.

Variable apiKey : option string.
Variable remoteText : string -> nat -> Exc Response.
Variable remoteTextDb : string -> string -> nat -> Exc Response.
Variable JSON_parse : string -> Exc Data.
Variable generateStudioImage : nat -> string -> AspectRatio -> Exc string.
Variable remoteAudio : AudioParams -> nat -> Exc Response.
Variable atob : string -> Exc string.
Variable createObjectURL : Blob -> Exc string.
Variable random : nat -> string.
Variable onProgress : bool.
Variable prompt : string.
Variable config : StudioConfig.





End Aborts.


(** ** The image loop and the quota flag *)

Lemma sleeps_app (t1 t2 : list Event) : sleeps (t1 ++ t2) = sleeps t1 ++ sleeps t2.
Proof. apply omap_app. Qed.

Lemma sleeps_progress (onProgress : bool) (p : Z) :
  sleeps (snd (if onProgress then emit (Progress p) else retR tt)) = [].
Proof. now destruct onProgress. Qed.

Section Loops.

Variable generateStudioImage : nat -> string -> AspectRatio -> Exc string.
Variable random : nat -> string.
Variable onProgress : bool.
Variable config : StudioConfig.

Lemma GeminiService_imageLoop_exhausted (data : Data) (n i : nat)
    (st : GeminiService.LoopState) :
  GeminiService.isQuotaExhausted st = true ->
  let run := GeminiService.imageLoop generateStudioImage onProgress data config n i st in
  fst run = Ok {| GeminiService.loopImages :=
                    GeminiService.loopImages st
                    ++ map (fun j => GeminiService.fallbackImage j config) (seq i n);
                  GeminiService.isQuotaExhausted := true;
                  GeminiService.adapterCalls := GeminiService.adapterCalls st |} /\
  filter isImageCall (snd run) = [] /\ sleeps (snd run) = [].
Proof.
  cbv zeta. revert i st. induction n as [|n IH]; intros i st Hq.
  - cbn [GeminiService.imageLoop seq map retR fst snd]. rewrite app_nil_r.
    destruct st; cbn in *; subst. repeat split.
  - cbn [GeminiService.imageLoop]. unfold GeminiService.imageStep. rewrite Hq.
    rewrite !bind_result, !bind_trace. cbn [retR fst snd]. cbv beta iota.
    rewrite ?bind_result, ?bind_trace, GeminiService_progress_ok. cbv beta iota.
    set (st' := {| GeminiService.loopImages := _ |}).
    destruct (IH (S i) st' eq_refl) as (Hres & Hcalls & Hsleeps).
    rewrite Hres, !filter_app, !sleeps_app, Hcalls, Hsleeps.
    unfold GeminiService.progress. rewrite filter_imageCall_progress, sleeps_progress.
    subst st'. cbn [GeminiService.loopImages GeminiService.adapterCalls seq map].
    rewrite <- app_assoc. repeat split.
Qed.

Lemma GeminiService_imageStep_rate_limited (data : Data) (i : nat)
    (st : GeminiService.LoopState) :
  GeminiService.isQuotaExhausted st = false ->
  (forall p, rateLimited (generateStudioImage (GeminiService.adapterCalls st) p
                            (aspectRatio config))) ->
  let run := GeminiService.imageStep generateStudioImage data config i st in
  fst run = Ok {| GeminiService.loopImages :=
                    GeminiService.loopImages st ++ [GeminiService.errImage i config];
                  GeminiService.isQuotaExhausted := true;
                  GeminiService.adapterCalls := S (GeminiService.adapterCalls st) |} /\
  length (filter isImageCall (snd run)) = 1%nat.
Proof.
  intros Hq Hrl. cbv zeta. unfold GeminiService.imageStep. rewrite Hq.
  set (imgPrompt := orElse _ _). destruct (Hrl imgPrompt) as (e & He & H429).
  rewrite try_result, try_trace, !bind_result, !bind_trace. cbn [emit liftE fst snd].
  rewrite He. cbn [fst snd]. rewrite !bind_result, !bind_trace. cbn [emit retR fst snd].
  rewrite H429. split; reflexivity.
Qed.

Lemma GeminiService_imageStep_served (data : Data) (i : nat)
    (st : GeminiService.LoopState) :
  GeminiService.isQuotaExhausted st = false ->
  (forall p, notRateLimited (generateStudioImage (GeminiService.adapterCalls st) p
                               (aspectRatio config))) ->
  let run := GeminiService.imageStep generateStudioImage data config i st in
  exists img,
    fst run = Ok {| GeminiService.loopImages := GeminiService.loopImages st ++ [img];
                    GeminiService.isQuotaExhausted := false;
                    GeminiService.adapterCalls := S (GeminiService.adapterCalls st) |} /\
    length (filter isImageCall (snd run)) = 1%nat.
Proof.
  intros Hq Hnrl. cbv zeta. unfold GeminiService.imageStep. rewrite Hq.
  set (imgPrompt := orElse _ _). specialize (Hnrl imgPrompt). unfold notRateLimited in Hnrl.
  rewrite try_result, try_trace, !bind_result, !bind_trace. cbn [emit liftE fst snd].
  destruct (generateStudioImage _ _ _) as [img|e].
  - exists img. split; reflexivity.
  - exists (GeminiService.errImage i config). cbn [fst snd].
    rewrite !bind_result, !bind_trace. cbn [emit retR fst snd]. rewrite Hnrl.
    split; reflexivity.
Qed.

Lemma GeminiService_imageLoop_until (data : Data) (j : nat) :
  forall (n i : nat) (st : GeminiService.LoopState),
  GeminiService.isQuotaExhausted st = false -> (j < n)%nat ->
  (forall k p, (k < j)%nat ->
     notRateLimited (generateStudioImage (GeminiService.adapterCalls st + k) p
                       (aspectRatio config))) ->
  (forall p, rateLimited (generateStudioImage (GeminiService.adapterCalls st + j) p
                            (aspectRatio config))) ->
  let run := GeminiService.imageLoop generateStudioImage onProgress data config n i st in
  exists generated,
    length generated = j /\
    fst run = Ok {| GeminiService.loopImages :=
                      GeminiService.loopImages st ++ generated
                      ++ GeminiService.errImage (i + j) config
                      :: map (fun m => GeminiService.fallbackImage m config)
                           (seq (i + S j) (n - S j));
                    GeminiService.isQuotaExhausted := true;
                    GeminiService.adapterCalls := GeminiService.adapterCalls st + S j |} /\
    length (filter isImageCall (snd run)) = S j.
Proof.
  cbv zeta. induction j as [|j IH]; intros [|n] i st Hq Hn Hbefore Hat; try lia.
  - rewrite Nat.add_0_r in Hat.
    destruct (GeminiService_imageStep_rate_limited data i st Hq Hat) as [Hstep Hcall].
    cbn [GeminiService.imageLoop].
    rewrite !bind_result, !bind_trace, Hstep. cbv beta iota.
    rewrite ?bind_result, ?bind_trace, GeminiService_progress_ok. cbv beta iota.
    set (st' := {| GeminiService.loopImages := _ |}).
    destruct (GeminiService_imageLoop_exhausted data n (S i) st' eq_refl)
      as (Hres & Hcalls & _).
    exists []. split; [reflexivity|]. rewrite Hres, !filter_app, !length_app, Hcall, Hcalls.
    unfold GeminiService.progress. rewrite filter_imageCall_progress.
    subst st'. cbn [GeminiService.loopImages GeminiService.adapterCalls app length].
    rewrite <- app_assoc, Nat.add_0_r, !Nat.add_1_r. cbn [app].
    replace (S n - 1)%nat with n by lia.
    split; reflexivity.
  - assert (H0 : forall p, notRateLimited
                   (generateStudioImage (GeminiService.adapterCalls st) p
                      (aspectRatio config))).
    { intros p. rewrite <- (Nat.add_0_r (GeminiService.adapterCalls st)).
      apply Hbefore. lia. }
    destruct (GeminiService_imageStep_served data i st Hq H0) as (img & Hstep & Hcall).
    cbn [GeminiService.imageLoop].
    rewrite !bind_result, !bind_trace, Hstep. cbv beta iota.
    rewrite ?bind_result, ?bind_trace, GeminiService_progress_ok. cbv beta iota.
    set (st' := {| GeminiService.loopImages := _ |}).
    destruct (IH n (S i) st' eq_refl ltac:(lia)) as (generated & Hlen & Hres & Hcalls).
    + intros k p Hk. subst st'. cbn [GeminiService.adapterCalls].
      replace (S (GeminiService.adapterCalls st) + k)%nat
        with (GeminiService.adapterCalls st + S k)%nat by lia.
      apply Hbefore. lia.
    + intros p. subst st'. cbn [GeminiService.adapterCalls].
      replace (S (GeminiService.adapterCalls st) + j)%nat
        with (GeminiService.adapterCalls st + S j)%nat by lia.
      apply Hat.
    + exists (img :: generated). split; [cbn; lia|].
      rewrite Hres, !filter_app, !length_app, Hcall, Hcalls.
      unfold GeminiService.progress. rewrite filter_imageCall_progress.
      subst st'. cbn [GeminiService.loopImages GeminiService.adapterCalls app length].
      rewrite <- app_assoc. cbn [app].
      replace (S i + j)%nat with (i + S j)%nat by lia.
      replace (S i + S j)%nat with (i + S (S j))%nat by lia.
      replace (S (GeminiService.adapterCalls st) + S j)%nat
        with (GeminiService.adapterCalls st + S (S j))%nat by lia.
      replace (S n - S (S j))%nat with (n - S j)%nat by lia.
      split; reflexivity.
Qed.

Lemma Part000_fallbacks_shift (i rc n : nat) :
  map (fun m => Part000.fallbackImage (i + m) (random (rc + m)) config) (seq 0 (S n))
  = Part000.fallbackImage i (random rc) config
    :: map (fun m => Part000.fallbackImage (S i + m) (random (S rc + m)) config) (seq 0 n).
Proof.
  cbn [seq map]. rewrite !Nat.add_0_r. f_equal.
  rewrite <- seq_shift, map_map. apply map_ext. intros m.
  now rewrite !Nat.add_succ_r.
Qed.

Lemma Part000_imageLoop_exhausted (prompts : list string) (n i : nat)
    (st : Part000.LoopState) :
  Part000.isQuotaExhausted st = true ->
  let run := Part000.imageLoop generateStudioImage random onProgress prompts config
               n i st in
  fst run = Ok {| Part000.loopImages :=
                    Part000.loopImages st
                    ++ map (fun m => Part000.fallbackImage (i + m)
                                       (random (Part000.randomCalls st + m)) config)
                         (seq 0 n);
                  Part000.isQuotaExhausted := true;
                  Part000.currentProgress := Part000.currentProgress st + 12 * Z.of_nat n;
                  Part000.adapterCalls := Part000.adapterCalls st;
                  Part000.randomCalls := (Part000.randomCalls st + n)%nat |} /\
  filter isImageCall (snd run) = [] /\ sleeps (snd run) = [].
Proof.
  cbv zeta. revert i st. induction n as [|n IH]; intros i st Hq.
  - cbn [Part000.imageLoop seq map retR fst snd]. rewrite app_nil_r, Z.add_0_r, Nat.add_0_r.
    destruct st; cbn in *; subst. repeat split.
  - cbn [Part000.imageLoop]. unfold Part000.imageStep. rewrite Hq.
    rewrite !bind_result, !bind_trace. cbn [retR fst snd]. cbv beta iota zeta.
    rewrite ?bind_result, ?bind_trace, Part000_progress_ok. cbv beta iota.
    set (st' := {| Part000.loopImages := _ |}).
    destruct (IH (S i) st' eq_refl) as (Hres & Hcalls & Hsleeps).
    rewrite Hres, !filter_app, !sleeps_app, Hcalls, Hsleeps.
    unfold Part000.progress. rewrite filter_imageCall_progress, sleeps_progress.
    subst st'.
    cbn [Part000.loopImages Part000.adapterCalls Part000.randomCalls
         Part000.currentProgress Part000.isQuotaExhausted].
    rewrite Part000_fallbacks_shift, <- app_assoc. cbn [app].
    replace (Part000.currentProgress st + 12 + 12 * Z.of_nat n)
      with (Part000.currentProgress st + 12 * Z.of_nat (S n)) by lia.
    replace (S (Part000.randomCalls st) + n)%nat
      with (Part000.randomCalls st + S n)%nat by lia.
    repeat split.
Qed.

Lemma DbDoc_imageLoop_exhausted (prompts : list string) (n i : nat)
    (st : DbDoc.LoopState) :
  DbDoc.isQuotaExhausted st = true ->
  let run := DbDoc.imageLoop generateStudioImage onProgress prompts config n i st in
  fst run = Ok {| DbDoc.loopImages :=
                    DbDoc.loopImages st
                    ++ map (fun j => DbDoc.fallbackImage j config) (seq i n);
                  DbDoc.isQuotaExhausted := true;
                  DbDoc.adapterCalls := DbDoc.adapterCalls st |} /\
  filter isImageCall (snd run) = [] /\ sleeps (snd run) = [].
Proof.
  cbv zeta. revert i st. induction n as [|n IH]; intros i st Hq.
  - cbn [DbDoc.imageLoop seq map retR fst snd]. rewrite app_nil_r.
    destruct st; cbn in *; subst. repeat split.
  - cbn [DbDoc.imageLoop]. unfold DbDoc.imageStep. rewrite Hq.
    rewrite !bind_result, !bind_trace. cbn [retR fst snd]. cbv beta iota.
    rewrite ?bind_result, ?bind_trace, DbDoc_progress_ok. cbv beta iota.
    set (st' := {| DbDoc.loopImages := _ |}).
    destruct (IH (S i) st' eq_refl) as (Hres & Hcalls & Hsleeps).
    rewrite Hres, !filter_app, !sleeps_app, Hcalls, Hsleeps.
    unfold DbDoc.progress. rewrite filter_imageCall_progress, sleeps_progress.
    subst st'. cbn [DbDoc.loopImages DbDoc.adapterCalls seq map].
    rewrite <- app_assoc. repeat split.
Qed.

Lemma Part000_imageStep_rate_limited (prompts : list string) (i : nat)
    (st : Part000.LoopState) :
  Part000.isQuotaExhausted st = false ->
  (forall p, rateLimited (generateStudioImage (Part000.adapterCalls st) p
                            (aspectRatio config))) ->
  let run := Part000.imageStep generateStudioImage random prompts config i st in
  fst run = Ok {| Part000.loopImages :=
                    Part000.loopImages st
                    ++ [Part000.errImage i (random (Part000.randomCalls st)) config];
                  Part000.isQuotaExhausted := true;
                  Part000.currentProgress := Part000.currentProgress st;
                  Part000.adapterCalls := S (Part000.adapterCalls st);
                  Part000.randomCalls := S (Part000.randomCalls st) |} /\
  length (filter isImageCall (snd run)) = 1%nat.
Proof.
  intros Hq Hrl. cbv zeta. unfold Part000.imageStep. rewrite Hq.
  set (imgPrompt := show_opt _). destruct (Hrl imgPrompt) as (e & He & H429).
  rewrite try_result, try_trace, !bind_result, !bind_trace.
  destruct (0 <? i)%nat; cbn [emit retR liftE fst snd]; rewrite He; cbn [fst snd];
    rewrite !bind_result, !bind_trace; cbn [emit retR fst snd]; rewrite H429;
    split; reflexivity.
Qed.

Lemma Part000_imageStep_served (prompts : list string) (i : nat)
    (st : Part000.LoopState) :
  Part000.isQuotaExhausted st = false ->
  (forall p, notRateLimited (generateStudioImage (Part000.adapterCalls st) p
                               (aspectRatio config))) ->
  let run := Part000.imageStep generateStudioImage random prompts config i st in
  exists img rc,
    fst run = Ok {| Part000.loopImages := Part000.loopImages st ++ [img];
                    Part000.isQuotaExhausted := false;
                    Part000.currentProgress := Part000.currentProgress st;
                    Part000.adapterCalls := S (Part000.adapterCalls st);
                    Part000.randomCalls := rc |} /\
    length (filter isImageCall (snd run)) = 1%nat.
Proof.
  intros Hq Hnrl. cbv zeta. unfold Part000.imageStep. rewrite Hq.
  set (imgPrompt := show_opt _). specialize (Hnrl imgPrompt). unfold notRateLimited in Hnrl.
  rewrite try_result, try_trace, !bind_result, !bind_trace.
  destruct (generateStudioImage _ _ _) as [img|e].
  - exists img, (Part000.randomCalls st).
    destruct (0 <? i)%nat; cbn [emit retR liftE fst snd]; split; reflexivity.
  - exists (Part000.errImage i (random (Part000.randomCalls st)) config),
      (S (Part000.randomCalls st)).
    destruct (0 <? i)%nat; cbn [emit retR liftE fst snd];
      rewrite !bind_result, !bind_trace; cbn [emit retR fst snd]; rewrite Hnrl;
      split; reflexivity.
Qed.

Lemma Part000_imageLoop_until (prompts : list string) (j : nat) :
  forall (n i : nat) (st : Part000.LoopState),
  Part000.isQuotaExhausted st = false -> (j < n)%nat ->
  (forall k p, (k < j)%nat ->
     notRateLimited (generateStudioImage (Part000.adapterCalls st + k) p
                       (aspectRatio config))) ->
  (forall p, rateLimited (generateStudioImage (Part000.adapterCalls st + j) p
                            (aspectRatio config))) ->
  let run := Part000.imageLoop generateStudioImage random onProgress prompts config
               n i st in
  exists generated rc st',
    length generated = j /\
    fst run = Ok st' /\
    Part000.loopImages st'
    = Part000.loopImages st ++ generated
      ++ Part000.errImage (i + j) (random rc) config
      :: map (fun m => Part000.fallbackImage (i + S j + m) (random (S rc + m)) config)
           (seq 0 (n - S j)) /\
    Part000.isQuotaExhausted st' = true /\
    Part000.adapterCalls st' = (Part000.adapterCalls st + S j)%nat /\
    Part000.randomCalls st' = (S rc + (n - S j))%nat /\
    length (filter isImageCall (snd run)) = S j.
Proof.
  cbv zeta. induction j as [|j IH]; intros [|n] i st Hq Hn Hbefore Hat; try lia.
  - rewrite Nat.add_0_r in Hat.
    destruct (Part000_imageStep_rate_limited prompts i st Hq Hat) as [Hstep Hcall].
    cbn [Part000.imageLoop].
    rewrite !bind_result, !bind_trace, Hstep. cbv beta iota zeta.
    cbn [Part000.loopImages Part000.isQuotaExhausted Part000.currentProgress
         Part000.adapterCalls Part000.randomCalls].
    rewrite ?bind_result, ?bind_trace, Part000_progress_ok. cbv beta iota.
    set (st' := {| Part000.loopImages := _ |}).
    destruct (Part000_imageLoop_exhausted prompts n (S i) st' eq_refl)
      as (Hres & Hcalls & _).
    exists [], (Part000.randomCalls st). eexists. split; [reflexivity|].
    split; [exact Hres|].
    rewrite !filter_app, !length_app, Hcall, Hcalls.
    unfold Part000.progress. rewrite filter_imageCall_progress.
    subst st'.
    cbn [Part000.loopImages Part000.adapterCalls Part000.randomCalls
         Part000.isQuotaExhausted app length].
    rewrite <- app_assoc, Nat.add_0_r, !Nat.add_1_r. cbn [app].
    replace (S n - 1)%nat with n by lia.
    repeat split.
  - assert (H0 : forall p, notRateLimited
                   (generateStudioImage (Part000.adapterCalls st) p (aspectRatio config))).
    { intros p. rewrite <- (Nat.add_0_r (Part000.adapterCalls st)). apply Hbefore. lia. }
    destruct (Part000_imageStep_served prompts i st Hq H0) as (img & rc0 & Hstep & Hcall).
    cbn [Part000.imageLoop].
    rewrite !bind_result, !bind_trace, Hstep. cbv beta iota zeta.
    cbn [Part000.loopImages Part000.isQuotaExhausted Part000.currentProgress
         Part000.adapterCalls Part000.randomCalls].
    rewrite ?bind_result, ?bind_trace, Part000_progress_ok. cbv beta iota.
    set (st1 := {| Part000.loopImages := _ |}).
    destruct (IH n (S i) st1 eq_refl ltac:(lia))
      as (generated & rc & st' & Hlen & Hres & Himgs & Hflag & Hcalls' & Hrnd & Hcalls).
    + intros k p Hk. subst st1. cbn [Part000.adapterCalls].
      replace (S (Part000.adapterCalls st) + k)%nat
        with (Part000.adapterCalls st + S k)%nat by lia.
      apply Hbefore. lia.
    + intros p. subst st1. cbn [Part000.adapterCalls].
      replace (S (Part000.adapterCalls st) + j)%nat
        with (Part000.adapterCalls st + S j)%nat by lia.
      apply Hat.
    + exists (img :: generated), rc, st'. split; [cbn; lia|].
      split; [exact Hres|].
      rewrite !filter_app, !length_app, Hcall, Hcalls, Himgs, Hflag, Hcalls', Hrnd.
      unfold Part000.progress. rewrite filter_imageCall_progress.
      subst st1. cbn [Part000.loopImages Part000.adapterCalls app length].
      rewrite <- app_assoc. cbn [app].
      replace (S i + j)%nat with (i + S j)%nat by lia.
      replace (S i + S j)%nat with (i + S (S j))%nat by lia.
      replace (S n - S (S j))%nat with (n - S j)%nat by lia.
      repeat split. lia.
Qed.

Lemma DbDoc_imageStep_rate_limited (prompts : list string) (i : nat)
    (st : DbDoc.LoopState) :
  DbDoc.isQuotaExhausted st = false ->
  (forall p, rateLimited (generateStudioImage (DbDoc.adapterCalls st) p
                            (aspectRatio config))) ->
  let run := DbDoc.imageStep generateStudioImage prompts config i st in
  fst run = Ok {| DbDoc.loopImages := DbDoc.loopImages st ++ [DbDoc.errImage i config];
                  DbDoc.isQuotaExhausted := true;
                  DbDoc.adapterCalls := S (DbDoc.adapterCalls st) |} /\
  length (filter isImageCall (snd run)) = 1%nat.
Proof.
  intros Hq Hrl. cbv zeta. unfold DbDoc.imageStep. rewrite Hq.
  set (imgPrompt := show_opt _). destruct (Hrl imgPrompt) as (e & He & H429).
  rewrite try_result, try_trace, !bind_result, !bind_trace.
  destruct (0 <? i)%nat; cbn [emit retR liftE fst snd]; rewrite He; cbn [retR fst snd];
    rewrite H429; split; reflexivity.
Qed.

Lemma DbDoc_imageStep_served (prompts : list string) (i : nat) (st : DbDoc.LoopState) :
  DbDoc.isQuotaExhausted st = false ->
  (forall p, notRateLimited (generateStudioImage (DbDoc.adapterCalls st) p
                               (aspectRatio config))) ->
  let run := DbDoc.imageStep generateStudioImage prompts config i st in
  exists img,
    fst run = Ok {| DbDoc.loopImages := DbDoc.loopImages st ++ [img];
                    DbDoc.isQuotaExhausted := false;
                    DbDoc.adapterCalls := S (DbDoc.adapterCalls st) |} /\
    length (filter isImageCall (snd run)) = 1%nat.
Proof.
  intros Hq Hnrl. cbv zeta. unfold DbDoc.imageStep. rewrite Hq.
  set (imgPrompt := show_opt _). specialize (Hnrl imgPrompt). unfold notRateLimited in Hnrl.
  rewrite try_result, try_trace, !bind_result, !bind_trace.
  destruct (generateStudioImage _ _ _) as [img|e].
  - exists img. destruct (0 <? i)%nat; cbn [emit retR liftE fst snd]; split; reflexivity.
  - exists (DbDoc.errImage i config).
    destruct (0 <? i)%nat; cbn [emit retR liftE fst snd]; rewrite Hnrl; split; reflexivity.
Qed.

Lemma DbDoc_imageLoop_until (prompts : list string) (j : nat) :
  forall (n i : nat) (st : DbDoc.LoopState),
  DbDoc.isQuotaExhausted st = false -> (j < n)%nat ->
  (forall k p, (k < j)%nat ->
     notRateLimited (generateStudioImage (DbDoc.adapterCalls st + k) p
                       (aspectRatio config))) ->
  (forall p, rateLimited (generateStudioImage (DbDoc.adapterCalls st + j) p
                            (aspectRatio config))) ->
  let run := DbDoc.imageLoop generateStudioImage onProgress prompts config n i st in
  exists generated,
    length generated = j /\
    fst run = Ok {| DbDoc.loopImages :=
                      DbDoc.loopImages st ++ generated
                      ++ DbDoc.errImage (i + j) config
                      :: map (fun m => DbDoc.fallbackImage m config)
                           (seq (i + S j) (n - S j));
                    DbDoc.isQuotaExhausted := true;
                    DbDoc.adapterCalls := DbDoc.adapterCalls st + S j |} /\
    length (filter isImageCall (snd run)) = S j.
Proof.
  cbv zeta. induction j as [|j IH]; intros [|n] i st Hq Hn Hbefore Hat; try lia.
  - rewrite Nat.add_0_r in Hat.
    destruct (DbDoc_imageStep_rate_limited prompts i st Hq Hat) as [Hstep Hcall].
    cbn [DbDoc.imageLoop].
    rewrite !bind_result, !bind_trace, Hstep. cbv beta iota.
    rewrite ?bind_result, ?bind_trace, DbDoc_progress_ok. cbv beta iota.
    set (st' := {| DbDoc.loopImages := _ |}).
    destruct (DbDoc_imageLoop_exhausted prompts n (S i) st' eq_refl)
      as (Hres & Hcalls & _).
    exists []. split; [reflexivity|]. rewrite Hres, !filter_app, !length_app, Hcall, Hcalls.
    unfold DbDoc.progress. rewrite filter_imageCall_progress.
    subst st'. cbn [DbDoc.loopImages DbDoc.adapterCalls app length].
    rewrite <- app_assoc, Nat.add_0_r, !Nat.add_1_r. cbn [app].
    replace (S n - 1)%nat with n by lia.
    split; reflexivity.
  - assert (H0 : forall p, notRateLimited
                   (generateStudioImage (DbDoc.adapterCalls st) p (aspectRatio config))).
    { intros p. rewrite <- (Nat.add_0_r (DbDoc.adapterCalls st)). apply Hbefore. lia. }
    destruct (DbDoc_imageStep_served prompts i st Hq H0) as (img & Hstep & Hcall).
    cbn [DbDoc.imageLoop].
    rewrite !bind_result, !bind_trace, Hstep. cbv beta iota.
    rewrite ?bind_result, ?bind_trace, DbDoc_progress_ok. cbv beta iota.
    set (st' := {| DbDoc.loopImages := _ |}).
    destruct (IH n (S i) st' eq_refl ltac:(lia)) as (generated & Hlen & Hres & Hcalls).
    + intros k p Hk. subst st'. cbn [DbDoc.adapterCalls].
      replace (S (DbDoc.adapterCalls st) + k)%nat
        with (DbDoc.adapterCalls st + S k)%nat by lia.
      apply Hbefore. lia.
    + intros p. subst st'. cbn [DbDoc.adapterCalls].
      replace (S (DbDoc.adapterCalls st) + j)%nat
        with (DbDoc.adapterCalls st + S j)%nat by lia.
      apply Hat.
    + exists (img :: generated). split; [cbn; lia|].
      rewrite Hres, !filter_app, !length_app, Hcall, Hcalls.
      unfold DbDoc.progress. rewrite filter_imageCall_progress.
      subst st'. cbn [DbDoc.loopImages DbDoc.adapterCalls app length].
      rewrite <- app_assoc. cbn [app].
      replace (S i + j)%nat with (i + S j)%nat by lia.
      replace (S i + S j)%nat with (i + S (S j))%nat by lia.
      replace (S (DbDoc.adapterCalls st) + S j)%nat
        with (DbDoc.adapterCalls st + S (S j))%nat by lia.
      replace (S n - S (S j))%nat with (n - S j)%nat by lia.
      split; reflexivity.
Qed.

Lemma GeminiService_imageLoop_length (data : Data) (n i : nat)
    (st : GeminiService.LoopState) :
  exists st',
    fst (GeminiService.imageLoop generateStudioImage onProgress data config n i st)
      = Ok st' /\
    length (GeminiService.loopImages st') = (length (GeminiService.loopImages st) + n)%nat.
Proof.
  revert i st. induction n as [|n IH]; intros i st; cbn [GeminiService.imageLoop].
  - exists st. split; [reflexivity|lia].
  - assert (Hstep : exists st1,
              fst (GeminiService.imageStep generateStudioImage data config i st) = Ok st1 /\
              length (GeminiService.loopImages st1)
              = S (length (GeminiService.loopImages st))).
    { unfold GeminiService.imageStep. destruct (GeminiService.isQuotaExhausted st).
      - eexists. split; [reflexivity|]. cbn. rewrite length_app. cbn. lia.
      - rewrite try_result, !bind_result. cbn [emit fst liftE].
        destruct (generateStudioImage _ _ _); eexists; (split; [reflexivity|]);
          cbn; rewrite length_app; cbn; lia. }
    destruct Hstep as (st1 & Hst1 & Hlen1).
    rewrite bind_result, Hst1, bind_result, GeminiService_progress_ok.
    destruct (IH (S i) st1) as (st' & Hst' & Hlen'). exists st'. split; [exact Hst'|lia].
Qed.

Lemma Part000_imageLoop_length (prompts : list string) (n i : nat)
    (st : Part000.LoopState) :
  exists st',
    fst (Part000.imageLoop generateStudioImage random onProgress prompts config n i st)
      = Ok st' /\
    length (Part000.loopImages st') = (length (Part000.loopImages st) + n)%nat.
Proof.
  revert i st. induction n as [|n IH]; intros i st; cbn [Part000.imageLoop].
  - exists st. split; [reflexivity|lia].
  - assert (Hstep : exists st1,
              fst (Part000.imageStep generateStudioImage random prompts config i st)
                = Ok st1 /\
              length (Part000.loopImages st1) = S (length (Part000.loopImages st))).
    { unfold Part000.imageStep. destruct (Part000.isQuotaExhausted st).
      - eexists. split; [reflexivity|]. cbn. rewrite length_app. cbn. lia.
      - rewrite try_result, !bind_result.
        destruct (0 <? i)%nat; cbn [emit retR fst liftE];
          destruct (generateStudioImage _ _ _); eexists; (split; [reflexivity|]);
          cbn; rewrite length_app; cbn; lia. }
    destruct Hstep as (st1 & Hst1 & Hlen1).
    rewrite bind_result, Hst1. cbv beta iota zeta.
    rewrite bind_result, Part000_progress_ok.
    set (st2 := {| Part000.loopImages := _ |}).
    destruct (IH (S i) st2) as (st' & Hst' & Hlen'). exists st'. split; [exact Hst'|].
    subst st2. cbn [Part000.loopImages] in Hlen'. lia.
Qed.

Lemma DbDoc_imageLoop_length (prompts : list string) (n i : nat) (st : DbDoc.LoopState) :
  exists st',
    fst (DbDoc.imageLoop generateStudioImage onProgress prompts config n i st) = Ok st' /\
    length (DbDoc.loopImages st') = (length (DbDoc.loopImages st) + n)%nat.
Proof.
  revert i st. induction n as [|n IH]; intros i st; cbn [DbDoc.imageLoop].
  - exists st. split; [reflexivity|lia].
  - assert (Hstep : exists st1,
              fst (DbDoc.imageStep generateStudioImage prompts config i st) = Ok st1 /\
              length (DbDoc.loopImages st1) = S (length (DbDoc.loopImages st))).
    { unfold DbDoc.imageStep. destruct (DbDoc.isQuotaExhausted st).
      - eexists. split; [reflexivity|]. cbn. rewrite length_app. cbn. lia.
      - rewrite try_result, !bind_result.
        destruct (0 <? i)%nat; cbn [emit retR fst liftE];
          destruct (generateStudioImage _ _ _); eexists; (split; [reflexivity|]);
          cbn; rewrite length_app; cbn; lia. }
    destruct Hstep as (st1 & Hst1 & Hlen1).
    rewrite bind_result, Hst1, bind_result, DbDoc_progress_ok.
    destruct (IH (S i) st1) as (st' & Hst' & Hlen'). exists st'. split; [exact Hst'|lia].
Qed.






(** X11: Once the quota flag is set it stays set, and the rest of the image
    loop costs nothing: from a state with the flag set, the remaining
    iterations call the adapter no more, wait for nothing, and append one
    fallback placeholder each (in [part_000] with one value of
    [Math.random] each). *)
Theorem imageLoop_quota_flag_sticky (data : Data) (prompts : list string) (n i : nat) :
  (forall st, GeminiService.isQuotaExhausted st = true ->
     let run := GeminiService.imageLoop generateStudioImage onProgress data config
                  n i st in
     fst run = Ok {| GeminiService.loopImages :=
                       GeminiService.loopImages st
                       ++ map (fun j => GeminiService.fallbackImage j config) (seq i n);
                     GeminiService.isQuotaExhausted := true;
                     GeminiService.adapterCalls := GeminiService.adapterCalls st |} /\
     filter isImageCall (snd run) = [] /\ sleeps (snd run) = []) /\
  (forall st, Part000.isQuotaExhausted st = true ->
     let run := Part000.imageLoop generateStudioImage random onProgress prompts config
                  n i st in
     fst run = Ok {| Part000.loopImages :=
                       Part000.loopImages st
                       ++ map (fun m => Part000.fallbackImage (i + m)
                                          (random (Part000.randomCalls st + m)) config)
                            (seq 0 n);
                     Part000.isQuotaExhausted := true;
                     Part000.currentProgress :=
                       Part000.currentProgress st + 12 * Z.of_nat n;
                     Part000.adapterCalls := Part000.adapterCalls st;
                     Part000.randomCalls := (Part000.randomCalls st + n)%nat |} /\
     filter isImageCall (snd run) = [] /\ sleeps (snd run) = []) /\
  (forall st, DbDoc.isQuotaExhausted st = true ->
     let run := DbDoc.imageLoop generateStudioImage onProgress prompts config n i st in
     fst run = Ok {| DbDoc.loopImages :=
                       DbDoc.loopImages st
                       ++ map (fun j => DbDoc.fallbackImage j config) (seq i n);
                     DbDoc.isQuotaExhausted := true;
                     DbDoc.adapterCalls := DbDoc.adapterCalls st |} /\
     filter isImageCall (snd run) = [] /\ sleeps (snd run) = []).
Proof.
  split; [|split]; intros st Hq.
  - exact (GeminiService_imageLoop_exhausted data n i st Hq).
  - exact (Part000_imageLoop_exhausted prompts n i st Hq).
  - exact (DbDoc_imageLoop_exhausted prompts n i st Hq).
Qed.

(** X12: The image loop stops asking at the first rate limit.  Started as
    [generateContent] starts it, with [n] images to make: when call [j] of
    the adapter ([j < n]) fails with a message containing 429 and the calls
    before it do not, the adapter is called [j + 1] times in all; images
    [0 .. j-1] are what those calls gave, image [j] is the error
    placeholder, and images [j+1 .. n-1] are fallback placeholders. *)
Theorem imageLoop_stops_at_rate_limit (data : Data) (prompts : list string) (n j : nat) :
  (j < n)%nat ->
  (forall k p, (k < j)%nat ->
     notRateLimited (generateStudioImage k p (aspectRatio config))) ->
  (forall p, rateLimited (generateStudioImage j p (aspectRatio config))) ->
  (let run := GeminiService.imageLoop generateStudioImage onProgress data config n 0
                {| GeminiService.loopImages := [];
                   GeminiService.isQuotaExhausted := false;
                   GeminiService.adapterCalls := 0 |} in
   exists generated,
     length generated = j /\
     fst run = Ok {| GeminiService.loopImages :=
                       generated ++ GeminiService.errImage j config
                       :: map (fun m => GeminiService.fallbackImage m config)
                            (seq (S j) (n - S j));
                     GeminiService.isQuotaExhausted := true;
                     GeminiService.adapterCalls := S j |} /\
     length (filter isImageCall (snd run)) = S j) /\
  (let run := Part000.imageLoop generateStudioImage random onProgress prompts config n 0
                {| Part000.loopImages := []; Part000.isQuotaExhausted := false;
                   Part000.currentProgress := 20; Part000.adapterCalls := 0;
                   Part000.randomCalls := 0 |} in
   exists generated rc st',
     length generated = j /\
     fst run = Ok st' /\
     Part000.loopImages st'
     = generated ++ Part000.errImage j (random rc) config
       :: map (fun m => Part000.fallbackImage (S j + m) (random (S rc + m)) config)
            (seq 0 (n - S j)) /\
     Part000.isQuotaExhausted st' = true /\
     Part000.adapterCalls st' = S j /\
     Part000.randomCalls st' = (S rc + (n - S j))%nat /\
     length (filter isImageCall (snd run)) = S j) /\
  (let run := DbDoc.imageLoop generateStudioImage onProgress prompts config n 0
                {| DbDoc.loopImages := []; DbDoc.isQuotaExhausted := false;
                   DbDoc.adapterCalls := 0 |} in
   exists generated,
     length generated = j /\
     fst run = Ok {| DbDoc.loopImages :=
                       generated ++ DbDoc.errImage j config
                       :: map (fun m => DbDoc.fallbackImage m config)
                            (seq (S j) (n - S j));
                     DbDoc.isQuotaExhausted := true;
                     DbDoc.adapterCalls := S j |} /\
     length (filter isImageCall (snd run)) = S j).
Proof.
  intros Hj Hbefore Hat. split; [|split].
  - apply (GeminiService_imageLoop_until data j n 0
             {| GeminiService.loopImages := []; GeminiService.isQuotaExhausted := false;
                GeminiService.adapterCalls := 0 |} eq_refl Hj Hbefore Hat).
  - apply (Part000_imageLoop_until prompts j n 0
             {| Part000.loopImages := []; Part000.isQuotaExhausted := false;
                Part000.currentProgress := 20; Part000.adapterCalls := 0;
                Part000.randomCalls := 0 |} eq_refl Hj Hbefore Hat).
  - apply (DbDoc_imageLoop_until prompts j n 0
             {| DbDoc.loopImages := []; DbDoc.isQuotaExhausted := false;
                DbDoc.adapterCalls := 0 |} eq_refl Hj Hbefore Hat).
Qed.


End Loops.

Lemma imageLoop_quota_flag_sticky_witness :
  let run := GeminiService.imageLoop rateLimitedOnSecond true demoData demoConfig 2 2
               {| GeminiService.loopImages := ["a"; "b"]%string;
                  GeminiService.isQuotaExhausted := true;
                  GeminiService.adapterCalls := 2 |} in
  fst run = Ok {| GeminiService.loopImages :=
                    ["a"; "b"]%string
                    ++ map (fun j => GeminiService.fallbackImage j demoConfig) (seq 2 2);
                  GeminiService.isQuotaExhausted := true;
                  GeminiService.adapterCalls := 2 |} /\
  filter isImageCall (snd run) = [] /\ sleeps (snd run) = [].
Proof.
  exact (proj1 (imageLoop_quota_flag_sticky rateLimitedOnSecond (fun _ => ""%string)
                  true demoConfig demoData [] 2 2)
           {| GeminiService.loopImages := ["a"; "b"]%string;
              GeminiService.isQuotaExhausted := true;
              GeminiService.adapterCalls := 2 |} eq_refl).
Defined.

Lemma imageLoop_stops_at_rate_limit_witness :
  let run := GeminiService.imageLoop rateLimitedOnSecond true demoData demoConfig 4 0
               {| GeminiService.loopImages := [];
                  GeminiService.isQuotaExhausted := false;
                  GeminiService.adapterCalls := 0 |} in
  exists generated,
    length generated = 1%nat /\
    fst run = Ok {| GeminiService.loopImages :=
                      generated ++ GeminiService.errImage 1 demoConfig
                      :: map (fun m => GeminiService.fallbackImage m demoConfig)
                           (seq 2 (4 - 2));
                    GeminiService.isQuotaExhausted := true;
                    GeminiService.adapterCalls := 2 |} /\
    length (filter isImageCall (snd run)) = 2%nat.
Proof.
  refine (proj1 (imageLoop_stops_at_rate_limit rateLimitedOnSecond (fun _ => ""%string)
                   true demoConfig demoData [] 4 1 ltac:(lia) _ _)).
  - intros [|k] p Hk; [exact I|lia].
  - intros p. eexists. split; reflexivity.
Defined.


(** ** The result of a run *)

Section ResultShape.

Variable apiKey : option string.
Variable remoteText : string -> nat -> Exc Response.
Variable remoteTextDb : string -> string -> nat -> Exc Response.
Variable JSON_parse : string -> Exc Data.
Variable generateStudioImage : nat -> string -> AspectRatio -> Exc string.
Variable remoteAudio : AudioParams -> nat -> Exc Response.
Variable atob : string -> Exc string.
Variable createObjectURL : Blob -> Exc string.
Variable random : nat -> string.
Variable onProgress : bool.
Variable prompt : string.
Variable config : StudioConfig.

Lemma GeminiService_result_shape (r : StudioResult) :
  fst (GeminiService.generateContent apiKey remoteText JSON_parse generateStudioImage
         remoteAudio atob createObjectURL onProgress prompt config) = Ok r ->
  (exists response,
     fst (GeminiService.retry (remoteText (GeminiService.textContents prompt config))
            3 3000) = Ok response /\
     JSON_parse (orElse (text response) "{}") = Ok (rData r)) /\
  rContentType r = contentType config /\ rAspectRatio r = aspectRatio config /\
  length (images r) = 4%nat.
Proof.
  unfold GeminiService.generateContent.
  destruct (GeminiService.keyMissing apiKey); [discriminate|].
  rewrite !bind_result, GeminiService_progress_ok. cbv beta iota.
  destruct (fst (GeminiService.retry _ _ _)) as [response|e] eqn:Hcall; [|discriminate].
  rewrite !bind_result, GeminiService_progress_ok. cbn [liftE fst].
  destruct (JSON_parse _) as [data|e] eqn:Hparse; [|discriminate].
  destruct (GeminiService_imageLoop_length generateStudioImage onProgress config data 4 0
              {| GeminiService.loopImages := []; GeminiService.isQuotaExhausted := false;
                 GeminiService.adapterCalls := 0 |}) as (st & Hst & Hlen).
  rewrite bind_result, Hst.
  destruct (GeminiService_thumbnail_ok generateStudioImage prompt data config st)
    as (t & Ht).
  rewrite bind_result, Ht, bind_result, GeminiService_progress_ok.
  rewrite bind_result, GeminiService_audio_result.
  rewrite bind_result, GeminiService_progress_ok. cbn [retR fst].
  intros [= <-]. cbn [rData rContentType rAspectRatio images].
  repeat split; [|exact Hlen]. now exists response.
Qed.

Lemma Part000_result_shape (r : StudioResult) :
  fst (Part000.generateContent remoteText JSON_parse generateStudioImage
         remoteAudio atob createObjectURL random onProgress prompt config) = Ok r ->
  (exists response,
     fst (Part000.retry (remoteText (Part000.textContents prompt config)) 3 2000)
       = Ok response /\
     JSON_parse (orElse (text response) "{}") = Ok (rData r)) /\
  rContentType r = contentType config /\ rAspectRatio r = aspectRatio config /\
  length (images r) = length (default [] (imagePrompts (rData r))).
Proof.
  unfold Part000.generateContent.
  rewrite !bind_result, Part000_progress_ok. cbv beta iota.
  destruct (fst (Part000.retry _ _ _)) as [response|e] eqn:Hcall; [|discriminate].
  rewrite !bind_result, Part000_progress_ok. cbn [liftE fst].
  destruct (JSON_parse _) as [data|e] eqn:Hparse; [|discriminate]. cbv zeta.
  set (prompts := default [] (imagePrompts data)).
  destruct (Part000_imageLoop_length generateStudioImage random onProgress config prompts
              (length prompts) 0
              {| Part000.loopImages := []; Part000.isQuotaExhausted := false;
                 Part000.currentProgress := 20; Part000.adapterCalls := 0;
                 Part000.randomCalls := 0 |}) as (st & Hst & Hlen).
  rewrite bind_result, Hst.
  destruct (Part000_thumbnail_ok generateStudioImage random data config st) as (t & Ht).
  rewrite bind_result, Ht, bind_result, Part000_progress_ok.
  rewrite bind_result, Part000_audio_result.
  rewrite bind_result, Part000_progress_ok. cbn [retR fst].
  intros [= <-]. cbn [rData rContentType rAspectRatio images].
  repeat split; [|exact Hlen]. now exists response.
Qed.

Lemma DbDoc_result_shape (r : StudioResult) :
  fst (DbDoc.generateContent remoteTextDb JSON_parse generateStudioImage
         remoteAudio atob createObjectURL onProgress prompt config) = Ok r ->
  (exists response,
     fst (DbDoc.retry (remoteTextDb (DbDoc.systemInstruction prompt config)
                                    (DbDoc.textContents prompt config)) 3 2000)
       = Ok response /\
     JSON_parse (orElse (text response) "{}") = Ok (rData r)) /\
  rContentType r = contentType config /\ rAspectRatio r = aspectRatio config /\
  length (images r) = length (default [] (imagePrompts (rData r))).
Proof.
  unfold DbDoc.generateContent.
  rewrite !bind_result, DbDoc_progress_ok. cbv beta iota.
  destruct (fst (DbDoc.retry _ _ _)) as [response|e] eqn:Hcall; [|discriminate].
  rewrite !bind_result, DbDoc_progress_ok. cbn [liftE fst].
  destruct (JSON_parse _) as [data|e] eqn:Hparse; [|discriminate]. cbv zeta.
  set (prompts := default [] (imagePrompts data)).
  destruct (DbDoc_imageLoop_length generateStudioImage onProgress config prompts
              (length prompts) 0
              {| DbDoc.loopImages := []; DbDoc.isQuotaExhausted := false;
                 DbDoc.adapterCalls := 0 |}) as (st & Hst & Hlen).
  rewrite bind_result, Hst.
  destruct (DbDoc_thumbnail_ok generateStudioImage prompt data config st) as (t & Ht).
  rewrite bind_result, Ht, bind_result, DbDoc_audio_result.
  rewrite bind_result, DbDoc_progress_ok. cbn [retR fst].
  intros [= <-]. cbn [rData rContentType rAspectRatio images].
  repeat split; [|exact Hlen]. now exists response.
Qed.

(** X10: What [generateContent] returns: the object parsed from the answer of
    the text call, with the format and the aspect ratio of the
    configuration, and one image (generated or placeholder) per iteration
    of the loop: always four in [geminiService.ts], one per image prompt of
    the parsed answer in the two other copies (none when the answer has no
    prompts). *)
Theorem generateContent_result_shape (r : StudioResult) :
  let parsedFrom (call : Run Response) :=
    exists response, fst call = Ok response /\
                     JSON_parse (orElse (text response) "{}") = Ok (rData r) in
  let echoes := rContentType r = contentType config /\
                rAspectRatio r = aspectRatio config in
  (fst (GeminiService.generateContent apiKey remoteText JSON_parse generateStudioImage
          remoteAudio atob createObjectURL onProgress prompt config) = Ok r ->
   parsedFrom (GeminiService.retry
                 (remoteText (GeminiService.textContents prompt config)) 3 3000) /\
   echoes /\ length (images r) = 4%nat) /\
  (fst (Part000.generateContent remoteText JSON_parse generateStudioImage
          remoteAudio atob createObjectURL random onProgress prompt config) = Ok r ->
   parsedFrom (Part000.retry (remoteText (Part000.textContents prompt config)) 3 2000) /\
   echoes /\ length (images r) = length (default [] (imagePrompts (rData r)))) /\
  (fst (DbDoc.generateContent remoteTextDb JSON_parse generateStudioImage
          remoteAudio atob createObjectURL onProgress prompt config) = Ok r ->
   parsedFrom (DbDoc.retry (remoteTextDb (DbDoc.systemInstruction prompt config)
                                         (DbDoc.textContents prompt config)) 3 2000) /\
   echoes /\ length (images r) = length (default [] (imagePrompts (rData r)))).
Proof.
  cbv beta zeta. split; [|split]; intros Hr.
  - destruct (GeminiService_result_shape r Hr) as (H1 & H2 & H3 & H4). auto.
  - destruct (Part000_result_shape r Hr) as (H1 & H2 & H3 & H4). auto.
  - destruct (DbDoc_result_shape r Hr) as (H1 & H2 & H3 & H4). auto.
Qed.

End ResultShape.

Lemma generateContent_result_shape_witness :
  match fst quotaRunGemini with
  | Ok r => rContentType r = REEL /\ rAspectRatio r = VERTICAL /\
            length (images r) = 4%nat
  | Throw _ => False
  end.
Proof.
  destruct (fst quotaRunGemini) as [r|e] eqn:Hrun; [|vm_compute in Hrun; discriminate Hrun].
  pose proof (generateContent_result_shape (Some "key"%string)
                (fun _ _ => Ok demoText) (fun _ _ _ => Ok demoText)
                (fun _ => Ok demoData)
                rateLimitedOnSecond (fun _ _ => Throw (newError "offline"))
                (fun s => Ok s) (fun _ => Ok "blob:1"%string) (fun _ => ""%string)
                true "mountain sunrise" demoConfig r)
    as (HG & _ & _).
  destruct (HG Hrun) as (_ & [Hc Ha] & Hlen).
  repeat split; assumption.
Defined.

(** ** The audio stage when the model answers *)

Section AudioSuccess.

Variable remoteAudio : AudioParams -> nat -> Exc Response.
Variable atob : string -> Exc string.
Variable createObjectURL : Blob -> Exc string.
Variable script : string.
Variable config : StudioConfig.

(** X17: When the retried request returns a response whose first part carries a
    non-empty inline payload that [atob] decodes, the audio of the run is a
    blob of type audio/wav holding the 44-byte header for 24000 Hz followed
    by the decoded bytes (in [part_000]: by the bytes the gain stage
    returned), together with the URL [URL.createObjectURL] gives for that
    blob; and it is the empty artifact when [URL.createObjectURL] throws. *)
Theorem generateStudioAudio_success (response : Response) (b64 bin : string) :
  firstInlineData response = Some b64 -> b64 <> ""%string -> atob b64 = Ok bin ->
  let wav (pcm : list byte) : Blob :=
    {| blobParts := Wav.headerBytes (Z.of_nat (length pcm)) 24000 ++ pcm;
       blobType := "audio/wav" |} in
  let artifact (pcm : list byte) : AudioArtifact :=
    match createObjectURL (wav pcm) with
    | Ok u => {| blob := wav pcm; url := u |}
    | Throw _ => emptyAudio
    end in
  (fst (GeminiService.retry (remoteAudio (GeminiService.audioParams script config))
          1 5000) = Ok response ->
   fst (GeminiService.generateStudioAudio remoteAudio atob createObjectURL script config)
   = Ok (artifact (list_byte_of_string bin))) /\
  (fst (Part000.retry (remoteAudio (Part000.audioParams script config)) 3 2000)
     = Ok response ->
   forall pcm,
     Part000.gainStage (list_byte_of_string bin) (Part000.volumeFactor config) = Ok pcm ->
     fst (Part000.generateStudioAudio remoteAudio atob createObjectURL script config)
     = Ok (artifact pcm)) /\
  (fst (DbDoc.retry (remoteAudio (DbDoc.audioParams script config)) 3 2000)
     = Ok response ->
   fst (DbDoc.generateStudioAudio remoteAudio atob createObjectURL script config)
   = Ok (artifact (list_byte_of_string bin))).
Proof.
  intros Hinline Hne Hatob. cbv zeta.
  assert (Heqb : String.eqb b64 "" = false) by now apply String.eqb_neq.
  split; [|split].
  - intros Hcall. rewrite GeminiService_audio_result. f_equal.
    unfold GeminiService.audioAttempt.
    rewrite bind_result, Hcall, Hinline, Heqb, bind_result. cbn [liftE fst].
    rewrite Hatob, bind_result. cbn [liftE fst]. rewrite encodeWav_eq.
    rewrite bind_result. cbn [liftE fst].
    destruct (createObjectURL _); reflexivity.
  - intros Hcall pcm Hgain. rewrite Part000_audio_result. f_equal.
    unfold Part000.audioAttempt.
    rewrite bind_result, Hcall, Hinline, Heqb, bind_result. cbn [liftE fst].
    rewrite Hatob, bind_result. cbn [liftE fst]. rewrite Hgain, bind_result.
    cbn [liftE fst]. rewrite encodeWav_eq.
    rewrite bind_result. cbn [liftE fst].
    destruct (createObjectURL _); reflexivity.
  - intros Hcall. rewrite DbDoc_audio_result. f_equal.
    unfold DbDoc.audioAttempt.
    rewrite bind_result, Hcall, Hinline, Heqb, bind_result. cbn [liftE fst].
    rewrite Hatob, bind_result. cbn [liftE fst]. rewrite encodeWav_eq.
    rewrite bind_result. cbn [liftE fst].
    destruct (createObjectURL _); reflexivity.
Qed.

End AudioSuccess.

Lemma generateStudioAudio_success_witness :
  fst (Part000.generateStudioAudio (fun _ _ => Ok audioResponse)
         (fun _ => Ok (string_of_list_byte [x10; x27; xe0; xb1]))
         (fun _ => Ok "blob:audio"%string) "Hello." loudConfig)
  = Ok {| blob := {| blobParts := Wav.headerBytes 4 24000 ++ [x20; x4e; x00; x80];
                     blobType := "audio/wav" |};
          url := "blob:audio" |}.
Proof.
  pose proof (generateStudioAudio_success (fun _ _ => Ok audioResponse)
                (fun _ => Ok (string_of_list_byte [x10; x27; xe0; xb1]))
                (fun _ => Ok "blob:audio"%string) "Hello." loudConfig
                audioResponse "ECfgsQ==" (string_of_list_byte [x10; x27; xe0; xb1])
                eq_refl ltac:(discriminate) eq_refl) as (_ & HP & _).
  exact (HP eq_refl [x20; x4e; x00; x80] eq_refl).
Defined.

(** ** The gain stage and odd payloads *)

Lemma int16View_isOk (bs : list byte) : isOk (int16View bs) = Nat.even (length bs).
Proof.
  assert (H : forall n bs, (length bs <= n)%nat ->
                isOk (int16View bs) = Nat.even (length bs)).
  { clear bs. induction n as [|n IH]; intros bs Hlen.
    - destruct bs; [reflexivity|cbn in Hlen; lia].
    - destruct bs as [|lo [|hi rest]]; [reflexivity|reflexivity|].
      cbn [int16View length Nat.even]. cbn [length] in Hlen.
      rewrite <- (IH rest) by lia. now destruct (int16View rest). }
  now apply (H (length bs)).
Qed.

(** X18: The gain stage of [part_000] raises exactly when the factor is not 1.0
    and the payload has an odd number of bytes: with the factor 1.0 a payload
    of odd length goes through unchanged, with any other factor it is lost
    (the [Int16Array] view cannot be made). *)
Theorem gainStage_fails_on_odd_payload (pcm : list byte) (volumeFactor : float) :
  isOk (Part000.gainStage pcm volumeFactor)
  = negb (strictNe volumeFactor 1.0%float) || Nat.even (length pcm).
Proof.
  unfold Part000.gainStage. destruct (strictNe volumeFactor 1.0%float); [|reflexivity].
  cbn [negb orb]. rewrite <- int16View_isOk.
  now destruct (int16View pcm).
Qed.

(** ** The voice of the request *)


(** ** The duration controls of [App.tsx] *)

Lemma validDuration_settle (config : StudioConfig) :
  0 <= durationMinutes config -> 0 <= durationSeconds config ->
  validDuration (App.settle 1 config).
Proof.
  intros Hm Hs. unfold validDuration. cbn [App.settle].
  destruct (App.durationEffect config) as [c'|] eqn:He; [|now repeat split].
  split; [|split; [|exact (durationEffect_settles _ _ He)]].
  - unfold App.durationEffect in He.
    repeat match type of He with context [if ?b then _ else _] => destruct b end;
      inversion He; cbn; lia.
  - unfold App.durationEffect in He.
    repeat match type of He with context [if ?b then _ else _] => destruct b end;
      inversion He; cbn; lia.
Qed.

Lemma validDuration_bounds (config : StudioConfig) :
  validDuration config ->
  0 <= durationMinutes config <= 5 /\ 0 <= durationSeconds config <= 300 /\
  (contentType config = REEL ->
   durationMinutes config = 0 /\ durationSeconds config <= 60).
Proof.
  intros (Hm & Hs & He). unfold App.durationEffect in He.
  case_bool_decide as Hreel.
  - destruct (0 <? durationMinutes config) eqn:H1; [discriminate|].
    destruct (60 <? durationSeconds config) eqn:H2; [discriminate|].
    apply Z.ltb_ge in H1, H2. repeat split; lia.
  - destruct (300 <? _) eqn:H1; [discriminate|]. apply Z.ltb_ge in H1.
    repeat split; try lia; contradiction.
Qed.

Section Handlers.

Variable parseInt : string -> option Z.

(** X21: The three duration controls keep the duration valid.  From a
    configuration at rest (no negative field, nothing for the duration
    effect to correct), a change of format, of the minutes or of the seconds
    followed by one run of the effect gives a configuration at rest again,
    whatever was typed; and a change of the seconds needs no correction by
    the effect at all. *)
Theorem duration_controls_keep_valid (config : StudioConfig) (type : ContentType)
    (val : string) :
  validDuration config ->
  validDuration (App.settle 1 (App.handleContentTypeChange type config)) /\
  validDuration (App.settle 1 (App.handleMinutesChange parseInt val config)) /\
  validDuration (App.handleSecondsChange parseInt val config config).
Proof.
  intros Hvalid. pose proof (validDuration_bounds config Hvalid) as (Hm & Hs & Hreel).
  split; [|split].
  - apply validDuration_settle; cbn; lia.
  - apply validDuration_settle; cbn; [lia|].
    destruct (_ =? 5); lia.
  - unfold validDuration, App.handleSecondsChange, App.durationEffect.
    cbn [durationMinutes durationSeconds contentType].
    case_bool_decide as Hr.
    + destruct (Hreel Hr) as [Hm0 _]. rewrite Hm0.
      split; [lia|]. split; [lia|].
      cbn. destruct (60 <? _) eqn:H2; [apply Z.ltb_lt in H2; lia|reflexivity].
    + split; [lia|]. split; [destruct (_ =? 5); lia|].
      destruct (durationMinutes config =? 5) eqn:H5.
      * apply Z.eqb_eq in H5. rewrite H5.
        destruct (300 <? _) eqn:H3; [apply Z.ltb_lt in H3; lia|reflexivity].
      * apply Z.eqb_neq in H5.
        destruct (300 <? _) eqn:H3; [apply Z.ltb_lt in H3; lia|reflexivity].
Qed.

End Handlers.

Lemma duration_controls_keep_valid_witness :
  validDuration (App.settle 1 (App.handleContentTypeChange REEL longConfig)) /\
  validDuration (App.settle 1 (App.handleMinutesChange parseDigits "5" longConfig)) /\
  validDuration (App.handleSecondsChange parseDigits "5" longConfig longConfig).
Proof.
  apply (duration_controls_keep_valid parseDigits longConfig REEL "5").
  repeat split; cbn; lia.
Defined.

Lemma targetWordCount_closed (config : StudioConfig) :
  GeminiService.targetWordCount config
  = match speed config with
    | SLOW => 2 * GeminiService.totalSeconds config
    | NORMAL => (5 * GeminiService.totalSeconds config + 1) / 2
    | FAST => 3 * GeminiService.totalSeconds config
    end.
Proof.
  transitivity (specWordCount config).
  - unfold GeminiService.targetWordCount, GeminiService.totalSeconds,
      GeminiService.multiplier, specWordCount.
    rewrite totalSeconds_comm. cbv zeta.
    rewrite <- source_word_count. cbv zeta.
    destruct (speed config); reflexivity.
  - rewrite specWordCount_closed. unfold GeminiService.totalSeconds.
    rewrite totalSeconds_comm. reflexivity.
Qed.

(** X22: What [handleGenerate] lets through.  With the duration at rest, a run
    is started only for a duration between 5 seconds and the limit of the
    format (60 seconds for Shorts/Reels, 300 otherwise), and the word count
    the text request then states lies between 10 and three times that limit:
    at most 180 words for Shorts/Reels, at most 900 otherwise. *)
Theorem generate_word_count_range (config : StudioConfig) (promptBlank : bool) (w : Z) :
  validDuration config ->
  App.handleGenerateWordCount promptBlank config = Some w ->
  promptBlank = false /\
  5 <= GeminiService.totalSeconds config <= maxSeconds (contentType config) /\
  w = GeminiService.targetWordCount config /\
  10 <= w <= 3 * maxSeconds (contentType config) /\
  w <= 900 /\ (contentType config = REEL -> w <= 180).
Proof.
  intros (_ & _ & He) Hw. pose proof (durationEffect_none config He) as Hmax.
  unfold App.handleGenerateWordCount in Hw.
  destruct promptBlank; [discriminate|].
  fold (GeminiService.totalSeconds config) in Hw.
  destruct (GeminiService.totalSeconds config <? 5) eqn:H5; [discriminate|].
  apply Z.ltb_ge in H5. injection Hw as <-.
  assert (Hrange : 10 <= GeminiService.targetWordCount config
                   <= 3 * maxSeconds (contentType config)).
  { rewrite targetWordCount_closed. destruct (speed config); try lia.
    split.
    - apply Z.div_le_lower_bound; lia.
    - apply Z.div_le_upper_bound; lia. }
  repeat split; try lia.
  - destruct (contentType config); unfold maxSeconds in Hrange; lia.
  - intros Hr. rewrite Hr in Hrange. unfold maxSeconds in Hrange. lia.
Qed.

Lemma generate_word_count_range_witness :
  5 <= GeminiService.totalSeconds longConfig <= maxSeconds LONG /\
  540 = GeminiService.targetWordCount longConfig /\
  10 <= 540 <= 3 * maxSeconds LONG.
Proof.
  pose proof (generate_word_count_range longConfig false 540) as H.
  destruct H as (_ & Ht & Hw & Hr & _).
  - repeat split; cbn; lia.
  - reflexivity.
  - exact (conj Ht (conj Hw Hr)).
Defined.

(** ** The history: [dbService.ts] and the updates of [App.tsx] *)

Lemma hasKey_false (key : string) (store : DbService.Store) :
  DbService.hasKey key store = false <-> key ∉ map DbService.id store.
Proof.
  unfold DbService.hasKey. induction store as [|r store IH]; cbn [existsb map].
  - split; [intros _; apply not_elem_of_nil|reflexivity].
  - rewrite orb_false_iff, IH, not_elem_of_cons, String.eqb_neq.
    split; intros [H1 H2]; split; auto.
Qed.

Lemma insertByKey_perm (item : DbService.HistoryItem) (store : DbService.Store) :
  DbService.insertByKey item store ≡ₚ item :: store.
Proof.
  induction store as [|r store IH]; cbn [DbService.insertByKey]; [reflexivity|].
  destruct (String.ltb _ _); [reflexivity|]. rewrite IH. apply Permutation_swap.
Qed.

Lemma addAll_inv (items : list DbService.HistoryItem) :
  forall store store',
  DbService.addAll items store = Ok store' ->
  NoDup (map DbService.id items) /\
  (forall x, x ∈ items -> DbService.id x ∉ map DbService.id store) /\
  store' ≡ₚ items ++ store.
Proof.
  induction items as [|item items IH]; intros store store'; cbn [DbService.addAll].
  - intros [= <-].
    split; [apply NoDup_nil_2|split; [intros x Hx; now apply elem_of_nil in Hx|reflexivity]].
  - unfold DbService.add. destruct (DbService.hasKey _ store) eqn:Hkey; [discriminate|].
    apply hasKey_false in Hkey. intros Hrest.
    destruct (IH _ _ Hrest) as (Hnd & Hfresh & Hperm).
    assert (Hids : forall x, x ∈ items ->
              DbService.id x <> DbService.id item /\
              DbService.id x ∉ map DbService.id store).
    { intros x Hx. specialize (Hfresh x Hx).
      rewrite (fmap_Permutation DbService.id _ _ (insertByKey_perm item store)) in Hfresh.
      cbn [fmap list_fmap] in Hfresh. now apply not_elem_of_cons in Hfresh. }
    repeat split.
    + cbn [map]. apply NoDup_cons_2; [|exact Hnd].
      intros Hin. apply list_elem_of_fmap in Hin as (x & Hx & Hin).
      destruct (Hids x Hin) as [Hne _]. congruence.
    + intros x Hx. apply elem_of_cons in Hx as [->|Hx]; [exact Hkey|].
      now destruct (Hids x Hx).
    + rewrite Hperm, insertByKey_perm. cbn [app]. symmetry. apply Permutation_middle.
Qed.

Lemma addAll_ok (items : list DbService.HistoryItem) :
  forall store,
  NoDup (map DbService.id items) ->
  (forall x, x ∈ items -> DbService.id x ∉ map DbService.id store) ->
  exists store', DbService.addAll items store = Ok store'.
Proof.
  induction items as [|item items IH]; intros store Hnd Hfresh; cbn [DbService.addAll].
  - now exists store.
  - unfold DbService.add.
    assert (Hkey : DbService.hasKey (DbService.id item) store = false).
    { apply hasKey_false, Hfresh. now left. }
    rewrite Hkey. cbn [map] in Hnd. apply NoDup_cons in Hnd as [Hnotin Hnd].
    apply IH; [exact Hnd|]. intros x Hx.
    rewrite (fmap_Permutation DbService.id _ _ (insertByKey_perm item store)).
    cbn [fmap list_fmap]. apply not_elem_of_cons. split.
    + intros Heq. apply Hnotin. rewrite <- Heq.
      apply list_elem_of_fmap. now exists x.
    + apply Hfresh. now right.
Qed.

Lemma insertByTime_perm (x : DbService.HistoryItem) (l : list DbService.HistoryItem) :
  DbService.insertByTime x l ≡ₚ x :: l.
Proof.
  induction l as [|y l IH]; cbn [DbService.insertByTime]; [reflexivity|].
  destruct (_ <? _); [|reflexivity]. rewrite IH. apply Permutation_swap.
Qed.

Lemma sortNewestFirst_perm (l : list DbService.HistoryItem) :
  DbService.sortNewestFirst l ≡ₚ l.
Proof.
  induction l as [|x l IH]; [reflexivity|].
  unfold DbService.sortNewestFirst in *. cbn [foldr].
  now rewrite insertByTime_perm, IH.
Qed.

Lemma insertByTime_sorted (x : DbService.HistoryItem) (l : list DbService.HistoryItem) :
  notOlderFirst l -> notOlderFirst (DbService.insertByTime x l).
Proof.
  unfold notOlderFirst. induction 1 as [|y l Hl IH Hy]; cbn [DbService.insertByTime].
  - repeat constructor.
  - destruct (DbService.timestamp x <? DbService.timestamp y) eqn:Hlt.
    + apply Z.ltb_lt in Hlt. constructor; [exact IH|].
      rewrite (insertByTime_perm x l). constructor; [lia|exact Hy].
    + apply Z.ltb_ge in Hlt. constructor; [now constructor|].
      constructor; [lia|]. eapply Forall_impl; [exact Hy|]. cbn. intros z Hz. lia.
Qed.

Lemma sortNewestFirst_sorted (l : list DbService.HistoryItem) :
  notOlderFirst (DbService.sortNewestFirst l).
Proof.
  induction l as [|x l IH]; [constructor|].
  unfold DbService.sortNewestFirst in *. cbn [foldr]. now apply insertByTime_sorted.
Qed.

Lemma newestFirst_notOlderFirst (l : list DbService.HistoryItem) :
  newestFirst l -> notOlderFirst l.
Proof.
  unfold newestFirst, notOlderFirst. induction 1 as [|x l Hl IH Hx]; constructor.
  - exact IH.
  - eapply Forall_impl; [exact Hx|]. cbn. intros z Hz. lia.
Qed.

Lemma newestFirst_times_distinct (l : list DbService.HistoryItem) :
  newestFirst l -> forall x y, x ∈ l -> y ∈ l ->
  DbService.timestamp x = DbService.timestamp y -> x = y.
Proof.
  unfold newestFirst. induction 1 as [|z l Hl IH Hz]; intros x y Hx Hy Ht.
  - now apply elem_of_nil in Hx.
  - rewrite Forall_forall in Hz.
    apply elem_of_cons in Hx as [->|Hx]; apply elem_of_cons in Hy as [->|Hy].
    + reflexivity.
    + specialize (Hz _ Hy). cbn in Hz. lia.
    + specialize (Hz _ Hx). cbn in Hz. lia.
    + now apply IH.
Qed.

Lemma sortNewestFirst_of_permutation (items db : list DbService.HistoryItem) :
  newestFirst items -> db ≡ₚ items -> DbService.sortNewestFirst db = items.
Proof.
  intros Hsorted Hperm.
  apply (StronglySorted_unique_strong
           (fun a b => DbService.timestamp b <= DbService.timestamp a)).
  - intros x1 x2 H1 H2 Hle1 Hle2.
    apply (newestFirst_times_distinct items Hsorted); [|exact H2|lia].
    now rewrite <- Hperm, <- (sortNewestFirst_perm db).
  - apply sortNewestFirst_sorted.
  - now apply newestFirst_notOlderFirst.
  - now rewrite sortNewestFirst_perm.
Qed.

Lemma save_then_load (items : list DbService.HistoryItem) (db : DbService.Store) :
  NoDup (map DbService.id items) -> newestFirst items ->
  exists store,
    DbService.saveHistoryToDB (Ok tt) items db = (Ok tt, store) /\
    DbService.loadHistoryFromDB (Ok tt) store = Ok items.
Proof.
  intros Hnd Hsorted. unfold DbService.saveHistoryToDB, DbService.loadHistoryFromDB.
  destruct (addAll_ok items [] Hnd) as (store & Hstore).
  { intros x _. apply not_elem_of_nil. }
  rewrite Hstore. exists store. split; [reflexivity|]. f_equal.
  apply sortNewestFirst_of_permutation; [exact Hsorted|].
  destruct (addAll_inv _ _ _ Hstore) as (_ & _ & Hperm). now rewrite app_nil_r in Hperm.
Qed.

(** X23: Saving and loading give the history back.  For a history without a
    repeated identifier and with strictly decreasing times,
    [saveHistoryToDB] succeeds whatever the store held, and
    [loadHistoryFromDB] then returns exactly the list that was saved, in the
    same order; and after [clearHistoryDB] it returns the empty list. *)
Theorem history_round_trip (items : list DbService.HistoryItem) (db : DbService.Store) :
  NoDup (map DbService.id items) -> newestFirst items ->
  (exists store,
     DbService.saveHistoryToDB (Ok tt) items db = (Ok tt, store) /\
     DbService.loadHistoryFromDB (Ok tt) store = Ok items) /\
  DbService.loadHistoryFromDB (Ok tt) (snd (DbService.clearHistoryDB (Ok tt) db)) = Ok [].
Proof.
  intros Hnd Hsorted. split; [now apply save_then_load|reflexivity].
Qed.

(** X24: [saveHistoryToDB] is all or nothing.  It succeeds exactly when the
    database opens and no identifier occurs twice in the list, and the store
    then holds the items of the list and nothing else; when it fails, the
    store is what it was before the call, although the transaction had
    cleared it first. *)
Theorem saveHistoryToDB_all_or_nothing (opened : Exc unit)
    (items : list DbService.HistoryItem) (db : DbService.Store) :
  match DbService.saveHistoryToDB opened items db with
  | (Ok _, store) =>
      opened = Ok tt /\ NoDup (map DbService.id items) /\ store ≡ₚ items
  | (Throw _, store) =>
      store = db /\ (isOk opened = false \/ ~ NoDup (map DbService.id items))
  end.
Proof.
  unfold DbService.saveHistoryToDB. destruct opened as [[]|e].
  - destruct (DbService.addAll items []) as [store|e] eqn:Hall.
    + destruct (addAll_inv _ _ _ Hall) as (Hnd & _ & Hperm).
      rewrite app_nil_r in Hperm. now repeat split.
    + split; [reflexivity|]. right. intros Hnd.
      destruct (addAll_ok items [] Hnd) as (store & Hstore).
      { intros x _. apply not_elem_of_nil. }
      congruence.
  - split; [reflexivity|]. now left.
Qed.

(** X25: [loadHistoryFromDB] returns every record of the store once, never an
    older one before a newer one. *)
Theorem loadHistoryFromDB_newest_first (opened : Exc unit) (db : DbService.Store)
    (loaded : list DbService.HistoryItem) :
  DbService.loadHistoryFromDB opened db = Ok loaded ->
  loaded ≡ₚ db /\ notOlderFirst loaded.
Proof.
  unfold DbService.loadHistoryFromDB. destruct opened as [[]|e]; [|discriminate].
  intros [= <-]. split; [apply sortNewestFirst_perm|apply sortNewestFirst_sorted].
Qed.

Ltac distinct_keys :=
  repeat (apply NoDup_cons_2;
          [let H := fresh in
           intros H;
           repeat (apply elem_of_cons in H as [H|H]; [discriminate H|]);
           now apply elem_of_nil in H|]);
  apply NoDup_nil_2.

Lemma demoHistory_invariant : historyInvariant demoHistory.
Proof.
  split; [|split].
  - cbn. distinct_keys.
  - unfold newestFirst, demoHistory.
    repeat (apply SSorted_cons; [|repeat (apply Forall_cons_2; [cbn; lia|]); apply Forall_nil_2]).
    apply SSorted_nil.
  - cbn. lia.
Qed.

Lemma history_round_trip_witness :
  exists store,
    DbService.saveHistoryToDB (Ok tt) demoHistory [demoItem "zz" 5] = (Ok tt, store) /\
    DbService.loadHistoryFromDB (Ok tt) store = Ok demoHistory.
Proof.
  destruct demoHistory_invariant as (Hnd & Hsorted & _).
  exact (proj1 (history_round_trip demoHistory [demoItem "zz" 5] Hnd Hsorted)).
Defined.

Lemma loadHistoryFromDB_newest_first_witness :
  [demoItem "b7" 300; demoItem "a2" 200; demoItem "c9" 100]%string
    ≡ₚ [demoItem "a2" 200; demoItem "b7" 300; demoItem "c9" 100]%string /\
  notOlderFirst [demoItem "b7" 300; demoItem "a2" 200; demoItem "c9" 100]%string.
Proof.
  exact (loadHistoryFromDB_newest_first (Ok tt)
           [demoItem "a2" 200; demoItem "b7" 300; demoItem "c9" 100]%string
           _ eq_refl).
Defined.

Lemma newestFirst_take (n : nat) (l : list DbService.HistoryItem) :
  newestFirst l -> newestFirst (take n l).
Proof.
  unfold newestFirst. intros H. rewrite <- (take_drop n l) in H.
  now apply StronglySorted_app_1_l in H.
Qed.

Lemma regenerate_keeps_keys (resultId : option string) (t : string)
    (history : list DbService.HistoryItem) :
  map DbService.id (App.regenerateThumbnailHistory resultId t history)
    = map DbService.id history /\
  map DbService.timestamp (App.regenerateThumbnailHistory resultId t history)
    = map DbService.timestamp history.
Proof.
  unfold App.regenerateThumbnailHistory. rewrite !map_map.
  split; apply map_ext; intros h; now destruct (App.sameId _ _).
Qed.

Lemma newestFirst_by_times (l1 l2 : list DbService.HistoryItem) :
  map DbService.timestamp l1 = map DbService.timestamp l2 ->
  newestFirst l2 -> newestFirst l1.
Proof.
  unfold newestFirst. intros Ht H. revert l1 Ht.
  induction H as [|y l2 Hl IH Hy]; intros [|x l1] Ht; try discriminate Ht.
  - constructor.
  - cbn [map] in Ht. injection Ht as Hxy Ht. constructor; [now apply IH|].
    rewrite Forall_forall in *. intros z Hz.
    apply (list_elem_of_fmap_2 DbService.timestamp) in Hz.
    change (DbService.timestamp <$> l1) with (map DbService.timestamp l1) in Hz.
    rewrite Ht in Hz. apply list_elem_of_fmap in Hz as (w & Hw & Hin).
    specialize (Hy w Hin). cbn in Hy. lia.
Qed.

(** X26: The updates of the history in [App.tsx] keep it fit for the database.
    From a history with no identifier twice, strictly decreasing times and
    at most thirty items: [handleGenerate], with a new identifier and a later
    time, gives such a history again, the new item first and the oldest
    dropped beyond thirty; [handleRegenerateThumbnail] gives such a history
    again, with the same identifiers and times, and changes nothing at all
    when the result on display has no identifier (it did not come from the
    history). *)
Theorem history_updates_keep_invariant (history : list DbService.HistoryItem)
    (newItem : DbService.HistoryItem) (resultId : option string) (newThumbnail : string) :
  historyInvariant history ->
  (DbService.id newItem ∉ map DbService.id history ->
   (forall h, h ∈ history -> DbService.timestamp h < DbService.timestamp newItem) ->
   historyInvariant (App.pushHistory newItem history) /\
   exists kept, App.pushHistory newItem history = newItem :: kept /\
                kept `prefix_of` history) /\
  (historyInvariant (App.regenerateThumbnailHistory resultId newThumbnail history) /\
   map DbService.id (App.regenerateThumbnailHistory resultId newThumbnail history)
     = map DbService.id history /\
   map DbService.timestamp (App.regenerateThumbnailHistory resultId newThumbnail history)
     = map DbService.timestamp history /\
   (resultId = None ->
    App.regenerateThumbnailHistory resultId newThumbnail history = history)).
Proof.
  intros (Hnd & Hsorted & Hlen). split.
  - intros Hfresh Hlater. unfold App.pushHistory. cbn [take].
    split; [|exists (take 29 history); split; [reflexivity|apply prefix_take]].
    split; [|split].
    + cbn [map]. apply NoDup_cons_2.
      * intros Hin. apply Hfresh.
        change (map DbService.id (take 29 history))
          with (DbService.id <$> take 29 history) in Hin.
        rewrite fmap_take in Hin. apply elem_of_take in Hin as (i & Hi & _).
        now apply list_elem_of_lookup_2 in Hi.
      * change (map DbService.id (take 29 history))
          with (DbService.id <$> take 29 history).
        rewrite fmap_take. eapply sublist_NoDup; [exact Hnd|apply sublist_take].
    + unfold newestFirst. constructor; [now apply newestFirst_take|].
      apply Forall_forall. intros h Hh. apply Hlater.
      apply elem_of_take in Hh as (i & Hi & _). now apply list_elem_of_lookup_2 in Hi.
    + cbn [length]. rewrite length_take. lia.
  - destruct (regenerate_keeps_keys resultId newThumbnail history) as [Hids Htimes].
    split; [|split; [exact Hids|split; [exact Htimes|]]].
    + split; [now rewrite Hids|split].
      * now apply (newestFirst_by_times _ history).
      * unfold App.regenerateThumbnailHistory. now rewrite length_map.
    + intros ->. unfold App.regenerateThumbnailHistory. cbn [App.sameId].
      now rewrite map_id.
Qed.

Lemma history_updates_keep_invariant_witness :
  historyInvariant (App.pushHistory (demoItem "d4" 400) demoHistory) /\
  exists kept, App.pushHistory (demoItem "d4" 400) demoHistory
               = demoItem "d4" 400 :: kept /\ kept `prefix_of` demoHistory.
Proof.
  refine (proj1 (history_updates_keep_invariant demoHistory (demoItem "d4" 400)
                   None "t2" demoHistory_invariant) _ _).
  - cbn. intros H.
    repeat (apply elem_of_cons in H as [H|H]; [discriminate H|]).
    now apply elem_of_nil in H.
  - intros h Hh. unfold demoHistory in Hh.
    repeat (apply elem_of_cons in Hh as [->|Hh]; [cbn; lia|]).
    now apply elem_of_nil in Hh.
Defined.

(** ** The name of the downloaded audio file *)







(** ** The waits before the calls of the image adapter *)

Lemma unpacedFrom_le (b : bool) (tr : list Event) :
  (unpacedFrom b tr <= unpacedCalls tr)%nat.
Proof.
  unfold unpacedCalls. destruct tr as [|[] tr]; cbn [unpacedFrom]; try lia.
  destruct b; lia.
Qed.

Lemma unpacedFrom_app (b : bool) (t1 t2 : list Event) :
  (unpacedFrom b (t1 ++ t2) <= unpacedFrom b t1 + unpacedCalls t2)%nat.
Proof.
  revert b. induction t1 as [|e t1 IH]; intros b; cbn [app].
  - cbn [unpacedFrom]. apply unpacedFrom_le.
  - destruct e; cbn [unpacedFrom];
      try (specialize (IH false); lia); specialize (IH true); lia.
Qed.

Lemma unpacedCalls_app (t1 t2 : list Event) :
  (unpacedCalls (t1 ++ t2) <= unpacedCalls t1 + unpacedCalls t2)%nat.
Proof. apply unpacedFrom_app. Qed.

Lemma unpacedCalls_no_image (tr : list Event) :
  filter isImageCall tr = [] -> unpacedCalls tr = 0%nat.
Proof.
  unfold unpacedCalls. generalize false as b.
  induction tr as [|e tr IH]; intros b H; [reflexivity|].
  rewrite filter_cons in H. destruct e; cbn in H; try discriminate H;
    cbn [unpacedFrom]; now apply IH.
Qed.

Lemma unpacedCalls_progress (onProgress : bool) (p : Z) :
  unpacedCalls (snd (if onProgress then emit (Progress p) else retR tt)) = 0%nat.
Proof. now destruct onProgress. Qed.

Lemma unpaced_bind {A B} (m : Run A) (k : A -> Run B) (a b : nat) :
  (unpacedCalls (snd m) <= a)%nat -> (forall x, (unpacedCalls (snd (k x)) <= b)%nat) ->
  (unpacedCalls (snd (m ≫= k)) <= a + b)%nat.
Proof.
  intros Hm Hk. rewrite bind_trace.
  etransitivity; [apply unpacedCalls_app|].
  destruct (fst m) as [x|e]; [specialize (Hk x); lia|cbn; lia].
Qed.

Lemma GeminiService_audio_background remoteAudio atob createObjectURL script config :
  only backgroundEvent
    (GeminiService.generateStudioAudio remoteAudio atob createObjectURL script config).
Proof.
  unfold GeminiService.generateStudioAudio.
  apply only_bind; [|intros; apply only_nil].
  apply only_try.
  - unfold GeminiService.audioAttempt.
    apply only_bind; [rewrite GeminiService_retry_shape; apply retryOf_background|].
    intros response.
    destruct (firstInlineData response) as [b64|]; [|apply only_nil].
    destruct (String.eqb b64 ""); [apply only_nil|].
    repeat (apply only_bind; [apply only_nil|intros]). apply only_nil.
  - intros e. apply only_bind; [repeat constructor|intros; apply only_nil].
Qed.

Lemma DbDoc_audio_background remoteAudio atob createObjectURL script config :
  only backgroundEvent
    (DbDoc.generateStudioAudio remoteAudio atob createObjectURL script config).
Proof.
  unfold DbDoc.generateStudioAudio.
  apply only_bind; [|intros; apply only_nil].
  apply only_try.
  - unfold DbDoc.audioAttempt.
    apply only_bind; [rewrite DbDoc_retry_shape; apply retryOf_background|].
    intros response.
    destruct (firstInlineData response) as [b64|]; [|apply only_nil].
    destruct (String.eqb b64 ""); [apply only_nil|].
    repeat (apply only_bind; [apply only_nil|intros]). apply only_nil.
  - intros e. apply only_bind; [repeat constructor|intros; apply only_nil].
Qed.

Section Pacing.

Variable apiKey : option string.
Variable remoteText : string -> nat -> Exc Response.
Variable remoteTextDb : string -> string -> nat -> Exc Response.
Variable JSON_parse : string -> Exc Data.
Variable generateStudioImage : nat -> string -> AspectRatio -> Exc string.
Variable remoteAudio : AudioParams -> nat -> Exc Response.
Variable atob : string -> Exc string.
Variable createObjectURL : Blob -> Exc string.
Variable random : nat -> string.
Variable onProgress : bool.
Variable prompt : string.
Variable config : StudioConfig.

Lemma GeminiService_imageStep_paced data i st :
  unpacedCalls (snd (GeminiService.imageStep generateStudioImage data config i st))
  = 0%nat.
Proof.
  unfold GeminiService.imageStep. destruct (GeminiService.isQuotaExhausted st);
    [reflexivity|].
  rewrite try_trace, !bind_trace, !bind_result. cbn [emit liftE fst snd].
  destruct (generateStudioImage _ _ _); reflexivity.
Qed.

Lemma GeminiService_imageLoop_paced data n i st :
  unpacedCalls
    (snd (GeminiService.imageLoop generateStudioImage onProgress data config n i st))
  = 0%nat.
Proof.
  revert i st. induction n as [|n IH]; intros i st; [reflexivity|].
  cbn [GeminiService.imageLoop]. apply Nat.le_0_r.
  apply (unpaced_bind _ _ 0 0); [now rewrite GeminiService_imageStep_paced|intros st'].
  apply (unpaced_bind _ _ 0 0).
  - unfold GeminiService.progress. now rewrite unpacedCalls_progress.
  - intros _. now rewrite IH.
Qed.

Lemma GeminiService_thumbnail_paced data st :
  unpacedCalls
    (snd (GeminiService.thumbnailStage generateStudioImage prompt data config st))
  = 0%nat.
Proof.
  unfold GeminiService.thumbnailStage.
  rewrite try_trace, !bind_trace, !bind_result. cbn [emit liftE fst snd].
  destruct (generateStudioImage _ _ _); reflexivity.
Qed.

Lemma GeminiService_paced :
  unpacedCalls
    (snd (GeminiService.generateContent apiKey remoteText JSON_parse generateStudioImage
            remoteAudio atob createObjectURL onProgress prompt config)) = 0%nat.
Proof.
  unfold GeminiService.generateContent.
  destruct (GeminiService.keyMissing apiKey); [reflexivity|]. apply Nat.le_0_r.
  apply (unpaced_bind _ _ 0 0);
    [unfold GeminiService.progress; now rewrite unpacedCalls_progress|intros _].
  apply (unpaced_bind _ _ 0 0).
  { now rewrite unpacedCalls_no_image by apply GeminiService_retry_no_image. }
  intros response.
  apply (unpaced_bind _ _ 0 0);
    [unfold GeminiService.progress; now rewrite unpacedCalls_progress|intros _].
  apply (unpaced_bind _ _ 0 0); [reflexivity|intros data].
  apply (unpaced_bind _ _ 0 0); [now rewrite GeminiService_imageLoop_paced|intros st].
  apply (unpaced_bind _ _ 0 0); [now rewrite GeminiService_thumbnail_paced|intros t].
  apply (unpaced_bind _ _ 0 0);
    [unfold GeminiService.progress; now rewrite unpacedCalls_progress|intros _].
  apply (unpaced_bind _ _ 0 0).
  { rewrite unpacedCalls_no_image; [reflexivity|].
    apply filter_imageCall_background, GeminiService_audio_background. }
  intros audio.
  apply (unpaced_bind _ _ 0 0);
    [unfold GeminiService.progress; now rewrite unpacedCalls_progress|intros _].
  reflexivity.
Qed.

Lemma Part000_imageStep_paced prompts i st :
  (unpacedCalls (snd (Part000.imageStep generateStudioImage random prompts config i st))
   <= if (i =? 0)%nat then 1 else 0)%nat.
Proof.
  unfold Part000.imageStep. destruct (Part000.isQuotaExhausted st);
    [cbn; destruct (i =? 0)%nat; lia|].
  rewrite try_trace, !bind_trace, !bind_result.
  destruct i as [|i]; cbn [Nat.ltb Nat.leb Nat.eqb emit retR liftE fst snd];
    destruct (generateStudioImage _ _ _); cbn; lia.
Qed.

Lemma Part000_imageLoop_paced prompts n i st :
  (unpacedCalls
     (snd (Part000.imageLoop generateStudioImage random onProgress prompts config n i st))
   <= if (i =? 0)%nat then 1 else 0)%nat.
Proof.
  revert i st. induction n as [|n IH]; intros i st; [cbn; lia|].
  cbn [Part000.imageLoop].
  replace (if (i =? 0)%nat then 1%nat else 0%nat)
    with ((if (i =? 0)%nat then 1 else 0) + 0)%nat by lia.
  apply unpaced_bind; [apply Part000_imageStep_paced|intros st'].
  cbv zeta. apply (unpaced_bind _ _ 0 0).
  - unfold Part000.progress. now rewrite unpacedCalls_progress.
  - intros _. apply (IH (S i)).
Qed.

Lemma Part000_thumbnail_paced data st :
  unpacedCalls (snd (Part000.thumbnailStage generateStudioImage random data config st))
  = 0%nat.
Proof.
  unfold Part000.thumbnailStage. destruct (Part000.isQuotaExhausted st); [reflexivity|].
  rewrite try_trace, !bind_trace, !bind_result. cbn [emit liftE fst snd].
  destruct (generateStudioImage _ _ _); reflexivity.
Qed.

Lemma Part000_paced :
  (unpacedCalls
     (snd (Part000.generateContent remoteText JSON_parse generateStudioImage
             remoteAudio atob createObjectURL random onProgress prompt config))
   <= 1)%nat.
Proof.
  unfold Part000.generateContent.
  apply (unpaced_bind _ _ 0 1);
    [unfold Part000.progress; now rewrite unpacedCalls_progress|intros _].
  apply (unpaced_bind _ _ 0 1).
  { now rewrite unpacedCalls_no_image by apply Part000_retry_no_image. }
  intros response.
  apply (unpaced_bind _ _ 0 1);
    [unfold Part000.progress; now rewrite unpacedCalls_progress|intros _].
  apply (unpaced_bind _ _ 0 1); [reflexivity|intros data]. cbv zeta.
  apply (unpaced_bind _ _ 1 0); [apply (Part000_imageLoop_paced _ _ 0)|intros st].
  apply (unpaced_bind _ _ 0 0); [now rewrite Part000_thumbnail_paced|intros t].
  apply (unpaced_bind _ _ 0 0);
    [unfold Part000.progress; now rewrite unpacedCalls_progress|intros _].
  apply (unpaced_bind _ _ 0 0).
  { rewrite unpacedCalls_no_image; [reflexivity|].
    apply filter_imageCall_background, Part000_audio_background. }
  intros audio.
  apply (unpaced_bind _ _ 0 0);
    [unfold Part000.progress; now rewrite unpacedCalls_progress|intros _].
  reflexivity.
Qed.

Lemma DbDoc_imageStep_paced prompts i st :
  (unpacedCalls (snd (DbDoc.imageStep generateStudioImage prompts config i st))
   <= if (i =? 0)%nat then 1 else 0)%nat.
Proof.
  unfold DbDoc.imageStep. destruct (DbDoc.isQuotaExhausted st);
    [cbn; destruct (i =? 0)%nat; lia|].
  rewrite try_trace, !bind_trace, !bind_result.
  destruct i as [|i]; cbn [Nat.ltb Nat.leb Nat.eqb emit retR liftE fst snd];
    destruct (generateStudioImage _ _ _); cbn; lia.
Qed.

Lemma DbDoc_imageLoop_paced prompts n i st :
  (unpacedCalls
     (snd (DbDoc.imageLoop generateStudioImage onProgress prompts config n i st))
   <= if (i =? 0)%nat then 1 else 0)%nat.
Proof.
  revert i st. induction n as [|n IH]; intros i st; [cbn; lia|].
  cbn [DbDoc.imageLoop].
  replace (if (i =? 0)%nat then 1%nat else 0%nat)
    with ((if (i =? 0)%nat then 1 else 0) + 0)%nat by lia.
  apply unpaced_bind; [apply DbDoc_imageStep_paced|intros st'].
  apply (unpaced_bind _ _ 0 0).
  - unfold DbDoc.progress. now rewrite unpacedCalls_progress.
  - intros _. apply (IH (S i)).
Qed.

Lemma DbDoc_thumbnail_paced data st :
  unpacedCalls (snd (DbDoc.thumbnailStage generateStudioImage prompt data config st))
  = 0%nat.
Proof.
  unfold DbDoc.thumbnailStage.
  rewrite try_trace, !bind_trace, !bind_result. cbn [emit liftE fst snd].
  destruct (generateStudioImage _ _ _); reflexivity.
Qed.

Lemma DbDoc_paced :
  (unpacedCalls
     (snd (DbDoc.generateContent remoteTextDb JSON_parse generateStudioImage
             remoteAudio atob createObjectURL onProgress prompt config))
   <= 1)%nat.
Proof.
  unfold DbDoc.generateContent.
  apply (unpaced_bind _ _ 0 1);
    [unfold DbDoc.progress; now rewrite unpacedCalls_progress|intros _].
  apply (unpaced_bind _ _ 0 1).
  { now rewrite unpacedCalls_no_image by apply DbDoc_retry_no_image. }
  intros response.
  apply (unpaced_bind _ _ 0 1);
    [unfold DbDoc.progress; now rewrite unpacedCalls_progress|intros _].
  apply (unpaced_bind _ _ 0 1); [reflexivity|intros data]. cbv zeta.
  apply (unpaced_bind _ _ 1 0); [apply (DbDoc_imageLoop_paced _ _ 0)|intros st].
  apply (unpaced_bind _ _ 0 0); [now rewrite DbDoc_thumbnail_paced|intros t].
  apply (unpaced_bind _ _ 0 0).
  { rewrite unpacedCalls_no_image; [reflexivity|].
    apply filter_imageCall_background, DbDoc_audio_background. }
  intros audio.
  apply (unpaced_bind _ _ 0 0);
    [unfold DbDoc.progress; now rewrite unpacedCalls_progress|intros _].
  reflexivity.
Qed.

(** X15: The image adapter is called only after a wait.  In a run of
    [generateContent] of [geminiService.ts] every call of the adapter, for
    an image or for the thumbnail, directly follows a wait; in the two other
    copies at most one call does not (the call for the first image), whatever
    the collaborators do. *)
Theorem image_calls_follow_a_wait :
  unpacedCalls
    (snd (GeminiService.generateContent apiKey remoteText JSON_parse generateStudioImage
            remoteAudio atob createObjectURL onProgress prompt config)) = 0%nat /\
  (unpacedCalls
     (snd (Part000.generateContent remoteText JSON_parse generateStudioImage
             remoteAudio atob createObjectURL random onProgress prompt config))
   <= 1)%nat /\
  (unpacedCalls
     (snd (DbDoc.generateContent remoteTextDb JSON_parse generateStudioImage
             remoteAudio atob createObjectURL onProgress prompt config))
   <= 1)%nat.
Proof.
  split; [exact GeminiService_paced|]. split; [exact Part000_paced|exact DbDoc_paced].
Qed.

End Pacing.

Example unpaced_first_image :
  unpacedCalls (snd quotaRunGemini) = 0%nat /\
  unpacedCalls (snd quotaRunPart000) = 1%nat /\
  unpacedCalls (snd quotaRunDbDoc) = 1%nat.
Proof. repeat apply conj; vm_compute; reflexivity. Qed.

(** ** The quota flag in a whole run of [part_000] *)

Section Part000Run.

Variable remoteText : string -> nat -> Exc Response.
Variable JSON_parse : string -> Exc Data.
Variable generateStudioImage : nat -> string -> AspectRatio -> Exc string.
Variable remoteAudio : AudioParams -> nat -> Exc Response.
Variable atob : string -> Exc string.
Variable createObjectURL : Blob -> Exc string.
Variable random : nat -> string.
Variable onProgress : bool.
Variable prompt : string.
Variable config : StudioConfig.

(** X14: In [part_000] a rate limit ends the image work of the run.  When the
    text call and the parse succeed with [n] image prompts, call [j] of the
    adapter ([j < n]) fails with a message containing 429 and the calls
    before it do not, the run returns a result; the adapter has been called
    [j + 1] times in the whole run; images [j+1 .. n-1] are fallback
    placeholders, and so is the thumbnail, for which no call is made. *)
Theorem Part000_run_stops_at_rate_limit (response : Response) (data : Data) (j : nat) :
  let run := Part000.generateContent remoteText JSON_parse generateStudioImage
               remoteAudio atob createObjectURL random onProgress prompt config in
  let n := length (default [] (imagePrompts data)) in
  fst (Part000.retry (remoteText (Part000.textContents prompt config)) 3 2000)
    = Ok response ->
  JSON_parse (orElse (text response) "{}") = Ok data ->
  (j < n)%nat ->
  (forall k p, (k < j)%nat ->
     notRateLimited (generateStudioImage k p (aspectRatio config))) ->
  (forall p, rateLimited (generateStudioImage j p (aspectRatio config))) ->
  exists r generated rc,
    fst run = Ok r /\
    length generated = j /\
    images r
    = generated ++ Part000.errImage j (random rc) config
      :: map (fun m => Part000.fallbackImage (S j + m) (random (S rc + m)) config)
           (seq 0 (n - S j)) /\
    thumbnail r = Part000.thumbFallback (random (S rc + (n - S j))) config /\
    length (filter isImageCall (snd run)) = S j.
Proof.
  intros run n Htext Hparse Hj Hbefore Hat. subst run n.
  set (prompts := default [] (imagePrompts data)) in *.
  destruct (Part000_imageLoop_until generateStudioImage random onProgress config
              prompts j (length prompts) 0
              {| Part000.loopImages := []; Part000.isQuotaExhausted := false;
                 Part000.currentProgress := 20; Part000.adapterCalls := 0;
                 Part000.randomCalls := 0 |} eq_refl Hj Hbefore Hat)
    as (generated & rc & st & Hlen & Hloop & Himgs & Hflag & _ & Hrnd & Hcalls).
  assert (Hthumb : Part000.thumbnailStage generateStudioImage random data config st
                   = (Ok (Part000.thumbFallback
                            (random (S rc + (length prompts - S j))) config), [])).
  { unfold Part000.thumbnailStage. now rewrite Hflag, Hrnd. }
  eexists _, generated, rc.
  unfold Part000.generateContent. fold prompts.
  split; [|split; [exact Hlen|]].
  - rewrite bind_result, Part000_progress_ok, bind_result, Htext.
    rewrite bind_result, Part000_progress_ok, bind_result. cbn [liftE fst].
    rewrite Hparse. cbv zeta. fold prompts.
    rewrite bind_result, Hloop. cbn [fst]. rewrite bind_result, Hthumb. cbn [fst].
    rewrite bind_result, Part000_progress_ok, bind_result, Part000_audio_result.
    rewrite bind_result, Part000_progress_ok. reflexivity.
  - cbn [images thumbnail]. split; [exact Himgs|]. split; [reflexivity|].
    rewrite bind_trace, Part000_progress_ok, filter_app, bind_trace, Htext, filter_app.
    rewrite Part000_retry_no_image.
    rewrite bind_trace, Part000_progress_ok, filter_app, bind_trace, filter_app.
    cbn [liftE fst snd]. rewrite Hparse. cbv zeta. fold prompts.
    rewrite bind_trace, Hloop, filter_app. cbn [fst snd].
    rewrite bind_trace, Hthumb, filter_app. cbn [fst snd].
    rewrite bind_trace, Part000_progress_ok, filter_app.
    rewrite bind_trace, Part000_audio_result, filter_app.
    rewrite (filter_imageCall_background _ (Part000_audio_background _ _ _ _ _)).
    rewrite bind_trace, Part000_progress_ok, filter_app.
    unfold Part000.progress. rewrite !filter_imageCall_progress.
    cbn [app filter snd retR]. rewrite !app_nil_r. exact Hcalls.
Qed.

End Part000Run.

Lemma Part000_run_stops_at_rate_limit_witness :
  exists r generated rc,
    fst quotaRunPart000 = Ok r /\
    length generated = 1%nat /\
    images r
    = generated ++ Part000.errImage 1 ("0." ++ show_nat rc) demoConfig
      :: map (fun m => Part000.fallbackImage (2 + m) ("0." ++ show_nat (S rc + m)) demoConfig)
           (seq 0 (4 - 2)) /\
    thumbnail r = Part000.thumbFallback ("0." ++ show_nat (S rc + (4 - 2))) demoConfig /\
    length (filter isImageCall (snd quotaRunPart000)) = 2%nat.
Proof.
  refine (Part000_run_stops_at_rate_limit (fun _ _ => Ok demoText) (fun _ => Ok demoData)
            rateLimitedOnSecond (fun _ _ => Throw (newError "offline"))
            (fun s => Ok s) (fun _ => Ok "blob:1"%string) (fun k => ("0." ++ show_nat k)%string)
            true "mountain sunrise" demoConfig demoText demoData 1
            eq_refl eq_refl ltac:(cbn; lia) _ _).
  - intros [|k] p Hk; [exact I|lia].
  - intros p. eexists. split; reflexivity.
Defined.

(** ** Silence under the gain stage *)

Lemma is_nan_SF (x : float) :
  PrimFloat.is_nan x = match Prim2SF x with S754_nan => true | _ => false end.
Proof.
  unfold PrimFloat.is_nan. rewrite FloatAxioms.eqb_spec.
  pose proof (Prim2SF_valid x) as Hv.
  destruct (Prim2SF x) as [s|s| |s m e]; try reflexivity.
  - now destruct s.
  - unfold SFeqb, SFcompare. destruct s; now rewrite Z.compare_refl, Pos.compare_cont_refl.
Qed.

Lemma mul_zero_SF (vf : float) :
  Prim2SF (PrimFloat.mul 0%float vf) = S754_nan \/
  exists s, Prim2SF (PrimFloat.mul 0%float vf) = S754_zero s.
Proof.
  rewrite FloatAxioms.mul_spec. change (Prim2SF 0%float) with (S754_zero false).
  destruct (Prim2SF vf) as [s|s| |s m e]; cbn; eauto.
Qed.

Lemma truncZ_clamp_zero (x : float) (s : bool) :
  Prim2SF x = S754_zero s ->
  truncZ (Math_max (-32768)%float (Math_min 32767%float x)) = 0.
Proof.
  intros Hx.
  assert (Hnan : PrimFloat.is_nan x = false) by now rewrite is_nan_SF, Hx.
  assert (Hhi : PrimFloat.ltb x 32767%float = true).
  { rewrite FloatAxioms.ltb_spec, Hx. now destruct s. }
  assert (Hlo : PrimFloat.ltb (-32768)%float x = true).
  { rewrite FloatAxioms.ltb_spec, Hx. now destruct s. }
  rewrite Math_min_hi, Hnan, Hhi, Math_max_lo, Hnan, Hlo.
  unfold truncZ. now rewrite Hx.
Qed.

Lemma gainSample_zero (vf : float) : Part000.gainSample vf 0 = 0.
Proof.
  rewrite gainSample_no_wrap. unfold Part000.clampScaled.
  change (float_of_int16 0) with 0%float.
  destruct (mul_zero_SF vf) as [Hnan|[s Hz]].
  - assert (H : PrimFloat.is_nan (PrimFloat.mul 0%float vf) = true)
      by now rewrite is_nan_SF, Hnan.
    rewrite Math_min_hi, H. reflexivity.
  - exact (truncZ_clamp_zero _ s Hz).
Qed.

Lemma int16View_zeros (n : nat) :
  int16View (replicate (2 * n) x00) = Ok (replicate n 0).
Proof.
  induction n as [|n IH]; [reflexivity|].
  replace (2 * S n)%nat with (S (S (2 * n))) by lia.
  cbn [replicate int16View]. now rewrite IH.
Qed.

Lemma int16Bytes_zeros (n : nat) :
  int16Bytes (replicate n 0) = replicate (2 * n) x00.
Proof.
  induction n as [|n IH]; [reflexivity|].
  replace (2 * S n)%nat with (S (S (2 * n))) by lia.
  unfold int16Bytes in *. cbn [replicate map concat]. now rewrite IH.
Qed.

(** X19: Silence stays silence at every volume: a sample of value zero is zero
    after the gain, for every factor ([NaN] and the infinities included),
    and a buffer of zero samples comes out of the gain stage as it went
    in. *)
Theorem gain_keeps_silence (volumeFactor : float) (n : nat) :
  Part000.gainSample volumeFactor 0 = 0 /\
  Part000.gainStage (replicate (2 * n) x00) volumeFactor = Ok (replicate (2 * n) x00).
Proof.
  split; [apply gainSample_zero|].
  unfold Part000.gainStage. destruct (strictNe volumeFactor 1.0%float); [|reflexivity].
  rewrite int16View_zeros. cbn [mbind Exc_bind bindE]. f_equal.
  rewrite <- int16Bytes_zeros. f_equal.
  induction n as [|n IH]; [reflexivity|].
  cbn [replicate map]. now rewrite gainSample_zero, IH.
Qed.

(** ** The last progress report *)

Section ProgressDone.

Variable apiKey : option string.
Variable remoteText : string -> nat -> Exc Response.
Variable remoteTextDb : string -> string -> nat -> Exc Response.
Variable JSON_parse : string -> Exc Data.
Variable generateStudioImage : nat -> string -> AspectRatio -> Exc string.
Variable remoteAudio : AudioParams -> nat -> Exc Response.
Variable atob : string -> Exc string.
Variable createObjectURL : Blob -> Exc string.
Variable random : nat -> string.
Variable prompt : string.
Variable config : StudioConfig.







End ProgressDone.
